(** * Person-identity stitching and box agreement: a shallow embedding

    The scripts verified here are

    - [Dataset/train_temp.py]  (BoxMatcher): pairs the rows of
      [train_without_personID.csv] with the rows of [train_personID.csv];
    - [Dataset/train_fixed.py] (IdentityPropagator): sorts [train_temp.csv]
      and fills the [-1] person ids in place;
    - [quality_control/iou_calculator.py] (AgreementScorer): spatial IoU and
      the agreement report.

    CSV cells are strings, Python [int]s are [Z], Python [float]s are the
    binary64 numbers of [PrimFloat]; an exception caught by a [try] is a
    [None] in the option monad. *)

From Stdlib Require Import ZArith List String Ascii Bool Lia.
From Stdlib Require Import Floats.
From Stdlib Require Import DecimalString DecimalZ DecimalPos DecimalFacts.
From Stdlib Require Import Permutation Sorted OrderedTypeEx.
From Stdlib Require QArith Qabs.
Import ListNotations.

Set Warnings "-inexact-float".

Declare Scope py_scope.
Delimit Scope py_scope with py.
Notation "x <- e ;; k" :=
  (match e with Some x => k | None => None end)
  (at level 61, e at next level, right associativity) : py_scope.
Open Scope py_scope.

(** * Part I: definitions *)

(** ** Python built-ins used by the three scripts *)
Module Py.

(** [abs(a - b) < 0.005], the tolerance test of both scripts. *)
Definition tolerance : float := 0.005%float.

Definition near (a b : float) : bool :=
  (abs (a - b) <? tolerance)%float.

(** [max(a, b)] keeps [a] unless [b > a]; [min(a, b)] keeps [a] unless
    [b < a] (CPython's [min_max]). *)
Definition py_max (a b : float) : float := if (a <? b)%float then b else a.

Definition py_min (a b : float) : float := if (b <? a)%float then b else a.

(** [str(n)] for an [int]. *)
Definition py_str (n : Z) : string := NilZero.string_of_int (Z.to_int n).

(** [int(s)] and [float(s)] on a CSV cell; [None] is [ValueError]. The
    scripts are verified for every pair of parsers. *)
Class Builtins := {
  py_int : string -> option Z;
  py_float : string -> option float
}.

(** [int(str(n)) == n]. *)
Definition int_str_law `{Builtins} : Prop :=
  forall n : Z, py_int (py_str n) = Some n.

(** Short-circuit [and] of two tests that may raise. *)
Definition and_then (p q : option bool) : option bool :=
  match p with
  | Some true => q
  | Some false => Some false
  | None => None
  end.

End Py.

(** ** Plain decimal numerals: a concrete pair of parsers

    The numerals that [csv.writer] prints: an optional sign, digits, and for
    floats an optional fraction and exponent. The float is the binary64
    number nearest to the decimal value, ties to even. *)
Module Decimal64.

Definition digit_of (c : ascii) : option Z :=
  let n := Z.of_nat (nat_of_ascii c) in
  if ((48 <=? n) && (n <=? 57))%Z then Some (n - 48)%Z else None.

(** Leading digits of [s]: their value on top of [acc], how many there
    were, and what follows. *)
Fixpoint digits (s : string) (acc : Z) (count : nat) : Z * nat * string :=
  match s with
  | EmptyString => (acc, count, s)
  | String c rest =>
      match digit_of c with
      | Some d => digits rest (10 * acc + d)%Z (S count)
      | None => (acc, count, s)
      end
  end.

Definition sign_of (s : string) : bool * string :=
  match s with
  | String "-"%char rest => (true, rest)
  | String "+"%char rest => (false, rest)
  | _ => (false, s)
  end.

Definition exponent_of (s : string) : option Z :=
  match s with
  | EmptyString => Some 0%Z
  | String c rest =>
      if (Ascii.eqb c "e" || Ascii.eqb c "E")%bool then
        let '(neg, body) := sign_of rest in
        let '(v, n, tail) := digits body 0%Z 0 in
        match n, tail with
        | S _, EmptyString => Some (if neg then (- v)%Z else v)
        | _, _ => None
        end
      else None
  end.

(** [(-1)^neg * m * 10^k], rounded once. *)
Definition round_decimal (neg : bool) (m k : Z) : spec_float :=
  match m with
  | Z0 => S754_zero neg
  | Zneg _ => S754_nan
  | Zpos _ =>
      if (0 <=? k)%Z then
        binary_normalize prec emax (if neg then - (m * 10 ^ k) else m * 10 ^ k)%Z 0%Z false
      else
        let '(q, e, l) := SFdiv_core_binary prec emax m 0%Z (10 ^ (- k))%Z 0%Z in
        binary_round_aux prec emax neg q e l
  end.

Definition float_of_string (s : string) : option float :=
  let '(neg, body) := sign_of s in
  let '(ip, n1, r1) := digits body 0%Z 0 in
  let '(m, n2, r2) :=
    match r1 with
    | String "."%char frac => digits frac ip 0
    | _ => (ip, 0, r1)
    end in
  match n1 + n2 with
  | 0 => None
  | S _ =>
      e <- exponent_of r2 ;;
      Some (SF2Prim (round_decimal neg m (e - Z.of_nat n2)))
  end.

Definition int_of_string (s : string) : option Z :=
  d <- NilZero.int_of_string s ;; Some (Z.of_int d).

#[export] Instance builtins : Py.Builtins := {
  py_int := int_of_string;
  py_float := float_of_string
}.

End Decimal64.

(** ** The tolerance, stated apart from the scripts

    Two readings of "the coordinates differ by less than 0.005": on the
    numbers the cells write, in exact arithmetic; and on their doubles, as
    IEEE 754 computes the difference. Neither is written with the scripts'
    own test [Py.near]. *)
Module Reference.

(** The double nearest to 0.005: [5764607523034235 * 2^-60], a little
    above 0.005. *)
Definition tolerance64 : spec_float := S754_finite false 5764607523034235 (-60).

(** [a] and [b] are less than the tolerance apart as binary64 computes it:
    the difference [a - b], rounded to the nearest double with ties to
    even, its sign dropped, is below [tolerance64]. *)
Definition within64 (a b : float) : bool :=
  SFltb (SFabs (SF64sub (Prim2SF a) (Prim2SF b))) tolerance64.

(** [m * 10^k], exactly. *)
Definition scale (m k : Z) : QArith_base.Q :=
  if (0 <=? k)%Z then QArith_base.Qmake (m * 10 ^ k) 1
  else QArith_base.Qmake m (Z.to_pos (10 ^ (- k))).

(** The number a plain decimal numeral writes, exactly; the numerals are
    those of [Decimal64.float_of_string], which rounds this number. *)
Definition decimal (s : string) : option QArith_base.Q :=
  let '(neg, body) := Decimal64.sign_of s in
  let '(ip, n1, r1) := Decimal64.digits body 0%Z 0 in
  let '(m, n2, r2) :=
    match r1 with
    | String "."%char frac => Decimal64.digits frac ip 0
    | _ => (ip, 0, r1)
    end in
  match n1 + n2 with
  | 0 => None
  | S _ =>
      e <- Decimal64.exponent_of r2 ;;
      Some (scale (if neg then (- m)%Z else m) (e - Z.of_nat n2))
  end.

(** [|a - b| < 0.005], exactly. *)
Definition within (a b : QArith_base.Q) : bool :=
  negb (QArith_base.Qle_bool (QArith_base.Qmake 5 1000)
          (Qabs.Qabs (QArith_base.Qminus a b))).

End Reference.

(** ** train_temp.py: BoxMatcher *)
Module TrainTemp.

Import Py.

(** A row kept by the loader ([len(row) >= 7], lines 21 and 28): the
    matching loop reads columns 0 to 6 and nothing else. *)
Record csv_row := {
  c0 : string;   (* video_name *)
  c1 : string;   (* frame_idx *)
  c2 : string;   (* x1 *)
  c3 : string;   (* y1 *)
  c4 : string;   (* x2 *)
  c5 : string;   (* y2 *)
  c6 : string    (* action_label, or person id in train_personID.csv *)
}.

(** Lines 17-29: the header is skipped with [next], short rows are dropped. *)
Definition keep (row : list string) : option csv_row :=
  match row with
  | a :: b :: c :: d :: e :: f :: g :: _ => Some (Build_csv_row a b c d e f g)
  | _ => None
  end.

Fixpoint keep_rows (rows : list (list string)) : list csv_row :=
  match rows with
  | [] => []
  | row :: rest =>
      match keep row with
      | Some r => r :: keep_rows rest
      | None => keep_rows rest
      end
  end.

Definition load (csv : list (list string)) : list csv_row :=
  keep_rows (tl csv).

(** [dict_entry]: the seven cells of [data] and the person id, an [int]. *)
Record dict_entry := {
  cells : csv_row;
  person_id : Z
}.

Section Matching.
Context `{Builtins}.

(** [abs(float(s) - float(t)) < 0.005]. *)
Definition near_cells (s t : string) : option bool :=
  a <- py_float s ;;
  b <- py_float t ;;
  Some (near a b).

(** Lines 50-53. *)
Definition boxes_near (data temp_data : csv_row) : option bool :=
  and_then (near_cells (c2 data) (c2 temp_data))
    (and_then (near_cells (c3 data) (c3 temp_data))
       (and_then (near_cells (c4 data) (c4 temp_data))
          (near_cells (c5 data) (c5 temp_data)))).

(** The body of the [try] (lines 46-59). [None]: an exception was raised
    (and is caught, line 60); [Some None]: a test was false;
    [Some (Some e)]: [e] was appended and the scan ends. *)
Definition try_pair (data temp_data : csv_row) : option (option dict_entry) :=
  if (c0 data =? c0 temp_data)%string then
    data_frame <- py_int (c1 data) ;;
    temp_data_frame <- py_int (c1 temp_data) ;;
    if (data_frame =? temp_data_frame)%Z then
      ok <- boxes_near data temp_data ;;
      if ok then
        id <- py_int (c6 temp_data) ;;
        Some (Some (Build_dict_entry data (id - 1)))
      else Some None
    else Some None
  else Some None.

(** The inner loop (lines 44-62). *)
Fixpoint scan (data : csv_row) (train_personID : list csv_row) : option dict_entry :=
  match train_personID with
  | [] => None
  | temp_data :: rest =>
      match try_pair data temp_data with
      | Some (Some e) => Some e
      | Some None => scan data rest
      | None => scan data rest
      end
  end.

(** One turn of the outer loop (lines 43-67): what is appended to [dicts]. *)
Definition match_one (train_personID : list csv_row) (data : csv_row) : dict_entry :=
  match scan data train_personID with
  | Some e => e
  | None => Build_dict_entry data (-1)
  end.

(** The outer loop (lines 34-67), [dicts] threaded as an accumulator. *)
Fixpoint match_loop (train_personID todo : list csv_row) (dicts : list dict_entry)
  : list dict_entry :=
  match todo with
  | [] => dicts
  | data :: rest =>
      match_loop train_personID rest (dicts ++ [match_one train_personID data])
  end.

Definition match_boxes (train_personID train_without_personID : list csv_row)
  : list dict_entry :=
  match_loop train_personID train_without_personID [].

(** The rows written to [train_temp.csv] (lines 74-77). *)
Definition header : list string :=
  ["video_name"; "frame_idx"; "x1"; "y1"; "x2"; "y2"; "action_label"; "person_id"]%string.

Definition to_line (e : dict_entry) : list string :=
  let d := cells e in
  [c0 d; c1 d; c2 d; c3 d; c4 d; c5 d; c6 d; py_str (person_id e)].

Definition train_temp (personID_csv without_personID_csv : list (list string))
  : list (list string) :=
  header :: map to_line (match_boxes (load personID_csv) (load without_personID_csv)).

End Matching.

(** *** The reference definition, on typed records *)

(** A detection of the source without identities. *)
Record Detection := {
  video_name : string;
  frame_index : Z;
  x1 : float;
  y1 : float;
  x2 : float;
  y2 : float;
  action_label : string
}.

(** A detection of the source with identities. *)
Record Identified := {
  detection : Detection;
  identity : Z
}.

Record MatchedRecord := {
  matched : Detection;
  matched_person_id : Z
}.

(** [t] is the same box as [d]: same video, same frame, each coordinate
    less than the tolerance apart as binary64 computes the difference. *)
Definition same_box (d t : Detection) : bool :=
  (video_name d =? video_name t)%string
  && (frame_index d =? frame_index t)%Z
  && Reference.within64 (x1 d) (x1 t) && Reference.within64 (y1 d) (y1 t)
  && Reference.within64 (x2 d) (x2 t) && Reference.within64 (y2 d) (y2 t).

(** First match wins; an unmatched detection gets [-1]. *)
Definition match_ref (withIdentity : list Identified) (withoutIdentity : list Detection)
  : list MatchedRecord :=
  map (fun d =>
         match find (fun t => same_box d (detection t)) withIdentity with
         | Some t => Build_MatchedRecord d (identity t - 1)
         | None => Build_MatchedRecord d (-1)
         end)
      withoutIdentity.

Section Decoding.
Context `{Builtins}.

(** The record a row stands for, when its numeric cells parse. *)
Definition decode (r : csv_row) : option Detection :=
  f <- py_int (c1 r) ;;
  a <- py_float (c2 r) ;;
  b <- py_float (c3 r) ;;
  c <- py_float (c4 r) ;;
  d <- py_float (c5 r) ;;
  Some (Build_Detection (c0 r) f a b c d (c6 r)).

Definition decode_identified (r : csv_row) : option Identified :=
  d <- decode r ;;
  id <- py_int (c6 r) ;;
  Some (Build_Identified d id).

Definition decode_entry (e : dict_entry) : option MatchedRecord :=
  d <- decode (cells e) ;;
  Some (Build_MatchedRecord d (person_id e)).

Fixpoint decode_all {A B : Type} (f : A -> option B) (l : list A) : option (list B) :=
  match l with
  | [] => Some []
  | a :: rest =>
      b <- f a ;;
      bs <- decode_all f rest ;;
      Some (b :: bs)
  end.

End Decoding.

(** *** The tolerance test on rows *)

Section Tolerance.
Context `{Builtins}.

(** [t] matches [data] within tolerance: lines 46-53 all pass. *)
Definition within_tolerance (data t : csv_row) : bool :=
  (c0 data =? c0 t)%string
  && match py_int (c1 data), py_int (c1 t) with
     | Some f, Some g => (f =? g)%Z
     | _, _ => false
     end
  && match boxes_near data t with
     | Some ok => ok
     | None => false
     end.

End Tolerance.

(** *** Scenario 1 of the specification, as CSV files *)
Definition scenario1_personID : list (list string) :=
  [ ["video_name"; "frame_idx"; "x1"; "y1"; "x2"; "y2"; "person_id"];
    ["1"; "5"; "0.101"; "0.101"; "0.301"; "0.301"; "3"] ]%string.

Definition scenario1_without_personID : list (list string) :=
  [ ["video_name"; "frame_idx"; "x1"; "y1"; "x2"; "y2"; "action_label"];
    ["1"; "5"; "0.1"; "0.1"; "0.3"; "0.3"; "7"] ]%string.

(** *** The reference definition in the words of the specification

    The coordinates are the numbers the cells write, and two of them differ
    by less than 0.005 when they do so in exact arithmetic. *)

(** A detection with the numbers its cells write. *)
Record Written := {
  written_video_name : string;
  written_frame_index : Z;
  written_x1 : QArith_base.Q;
  written_y1 : QArith_base.Q;
  written_x2 : QArith_base.Q;
  written_y2 : QArith_base.Q
}.

Definition same_box_spec (d t : Written) : bool :=
  (written_video_name d =? written_video_name t)%string
  && (written_frame_index d =? written_frame_index t)%Z
  && Reference.within (written_x1 d) (written_x1 t)
  && Reference.within (written_y1 d) (written_y1 t)
  && Reference.within (written_x2 d) (written_x2 t)
  && Reference.within (written_y2 d) (written_y2 t).

(** First match wins; the person id is that of the record found, less 1,
    or [-1]. *)
Definition match_spec (withIdentity : list (Written * Z)) (withoutIdentity : list Written)
  : list (Written * Z) :=
  map (fun d =>
         match find (fun t => same_box_spec d (fst t)) withIdentity with
         | Some t => (d, (snd t - 1)%Z)
         | None => (d, (-1)%Z)
         end)
      withoutIdentity.

(** The numbers a row writes. *)
Definition read_written (r : csv_row) : option Written :=
  f <- Decimal64.int_of_string (c1 r) ;;
  a <- Reference.decimal (c2 r) ;;
  b <- Reference.decimal (c3 r) ;;
  c <- Reference.decimal (c4 r) ;;
  d <- Reference.decimal (c5 r) ;;
  Some (Build_Written (c0 r) f a b c d).

(** Two tracker files for the detection of scenario 1, with [x1] written
    0.005 away from the detection's: [0.105] against [0.1], and, for a
    detection at [0.5], [0.505]. *)
Definition half_hundredth_personID : list (list string) :=
  [ ["video_name"; "frame_idx"; "x1"; "y1"; "x2"; "y2"; "person_id"];
    ["1"; "5"; "0.105"; "0.1"; "0.3"; "0.3"; "3"] ]%string.

Definition half_hundredth_higher_personID : list (list string) :=
  [ ["video_name"; "frame_idx"; "x1"; "y1"; "x2"; "y2"; "person_id"];
    ["1"; "5"; "0.505"; "0.1"; "0.7"; "0.3"; "3"] ]%string.

Definition half_hundredth_higher_without_personID : list (list string) :=
  [ ["video_name"; "frame_idx"; "x1"; "y1"; "x2"; "y2"; "action_label"];
    ["1"; "5"; "0.5"; "0.1"; "0.7"; "0.3"; "7"] ]%string.

(** *** The counters of lines 35-36 and 58, 67 *)

(** What the outer loop has built so far. *)
Record tally := {
  dicts : list dict_entry;
  matched_count : nat;
  unmatched_count : nat
}.

Section Counting.
Context `{Builtins}.

(** Lines 39-67 with the two counters: [isFind] is set where the scan
    appends and breaks. *)
Fixpoint match_count (train_personID todo : list csv_row) (t : tally) : tally :=
  match todo with
  | [] => t
  | data :: rest =>
      match scan data train_personID with
      | Some dict_entry =>
          match_count train_personID rest
            {| dicts := dicts t ++ [dict_entry];
               matched_count := S (matched_count t);
               unmatched_count := unmatched_count t |}
      | None =>
          match_count train_personID rest
            {| dicts := dicts t ++ [Build_dict_entry data (-1)];
               matched_count := matched_count t;
               unmatched_count := S (unmatched_count t) |}
      end
  end.

(** Lines 34-36. *)
Definition no_tally : tally :=
  {| dicts := []; matched_count := 0; unmatched_count := 0 |}.

(** The entry carries an id other than [-1]. *)
Definition identified (e : dict_entry) : bool := negb (person_id e =? -1)%Z.

(** Every numeric cell of a row of [train_personID.csv] parses. *)
Definition well_formed (t : csv_row) : bool :=
  match decode_identified t with
  | Some _ => true
  | None => false
  end.

End Counting.

(** The first seven cells of a line, when it has them. *)
Definition long_enough (row : list string) : bool := (7 <=? List.length row)%nat.

(** A tracker file with a line that is not a number in the [x1] column
    before the line of scenario 1. *)
Definition scenario1_damaged : list (list string) :=
  [ ["video_name"; "frame_idx"; "x1"; "y1"; "x2"; "y2"; "person_id"];
    ["1"; "5"; "n/a"; "0.101"; "0.301"; "0.301"; "9"];
    ["1"; "5"; "0.101"; "0.101"; "0.301"; "0.301"; "3"] ]%string.

End TrainTemp.

(** ** train_fixed.py: IdentityPropagator *)
Module TrainFixed.

Import Py.

(** A row of [train_temp.csv], eight cells as [train_temp.py] writes them
    (lines 76-77 there); [row[-1]] is [person_id]. *)
Record row := {
  video_name : string;     (* row[0] *)
  frame_idx : string;      (* row[1] *)
  x1 : string;             (* row[2] *)
  y1 : string;             (* row[3] *)
  x2 : string;             (* row[4] *)
  y2 : string;             (* row[5] *)
  action_label : string;   (* row[6] *)
  person_id : string       (* row[-1] *)
}.

(** [row[-1] = v]. *)
Definition with_person_id (r : row) (v : string) : row :=
  {| video_name := video_name r; frame_idx := frame_idx r;
     x1 := x1 r; y1 := y1 r; x2 := x2 r; y2 := y2 r;
     action_label := action_label r; person_id := v |}.

(** [train_temp[index][-1] = v], on an index inside the list. *)
Fixpoint set_person_id (train_temp : list row) (index : nat) (v : string) : list row :=
  match train_temp, index with
  | [], _ => []
  | r :: rest, O => with_person_id r v :: rest
  | r :: rest, S i => r :: set_person_id rest i v
  end.

(** The seed's fields read at lines 29-33. *)
Record seed := {
  seed_x1 : float;
  seed_y1 : float;
  seed_x2 : float;
  seed_y2 : float;
  current_frame : Z
}.

(** What the main loop carries from one index to the next. *)
Record state := {
  train_temp : list row;
  maxId : Z;
  videoName : string
}.

Section Propagation.
Context `{Builtins}.

(** *** Lines 10-19: the sort *)
Definition is_header (r : row) : bool := (video_name r =? "video_name")%string.

(** Lines 13-17. *)
Fixpoint split_header (rows : list row) (header : option row) (data_rows : list row)
  : option row * list row :=
  match rows with
  | [] => (header, data_rows)
  | r :: rest =>
      if is_header r then split_header rest (Some r) data_rows
      else split_header rest header (data_rows ++ [r])
  end.

(** [key=lambda x: (x[0], int(x[1]))]; [int] may raise. *)
Definition sort_key (r : row) : option (string * Z) :=
  f <- py_int (frame_idx r) ;; Some (video_name r, f).

(** Tuple comparison [k1 <= k2]: strings by code unit, then integers. *)
Definition key_le (k1 k2 : string * Z) : bool :=
  match String.compare (fst k1) (fst k2) with
  | Lt => true
  | Eq => (snd k1 <=? snd k2)%Z
  | Gt => false
  end.

Fixpoint keyed (rows : list row) : option (list (string * Z * row)) :=
  match rows with
  | [] => Some []
  | r :: rest =>
      k <- sort_key r ;;
      ks <- keyed rest ;;
      Some ((k, r) :: ks)
  end.

(** [list.sort] is stable: a row goes before the first row of the sorted
    rest whose key is not smaller. *)
Fixpoint insert (x : string * Z * row) (sorted : list (string * Z * row))
  : list (string * Z * row) :=
  match sorted with
  | [] => [x]
  | y :: rest =>
      if key_le (fst x) (fst y) then x :: sorted else y :: insert x rest
  end.

Definition stable_sort (l : list (string * Z * row)) : list (string * Z * row) :=
  fold_right insert [] l.

(** Line 19: [[header] + data_rows if header else data_rows]. *)
Definition attach (header : option row) (data_rows : list row) : list row :=
  match header with
  | Some h => h :: data_rows
  | None => data_rows
  end.

(** Lines 10-19; [None] when a frame index does not parse (the script
    stops with [ValueError]). *)
Definition sort_rows (rows : list row) : option (list row) :=
  let '(header, data_rows) := split_header rows None [] in
  ks <- keyed data_rows ;;
  Some (attach header (map snd (stable_sort ks))).

(** *** Lines 23-64: [update_train_temp] *)

(** Lines 28-36; [None] is the [except] branch. *)
Definition read_seed (r : row) : option seed :=
  a <- py_float (x1 r) ;;
  b <- py_float (y1 r) ;;
  c <- py_float (x2 r) ;;
  d <- py_float (y2 r) ;;
  f <- py_int (frame_idx r) ;;
  Some (Build_seed a b c d f).

(** Lines 46-64 for one candidate: [true] when the candidate takes the
    seed's id and the loop goes on, [false] on every [break]. *)
Definition same_track (sd : seed) (next : row) : bool :=
  match py_int (frame_idx next) with
  | None => false
  | Some next_frame =>
      if (Z.abs (next_frame - current_frame sd) >? 10)%Z then false
      else
        match py_float (x1 next) with
        | None => false
        | Some xT1 =>
        match py_float (y1 next) with
        | None => false
        | Some yT1 =>
        match py_float (x2 next) with
        | None => false
        | Some xT2 =>
        match py_float (y2 next) with
        | None => false
        | Some yT2 =>
            near (seed_x1 sd) xT1 && near (seed_y1 sd) yT1
            && near (seed_x2 sd) xT2 && near (seed_y2 sd) yT2
        end end end end
  end.

(** Lines 37-64, the loop over [offset]. *)
Fixpoint look_ahead (offsets : list nat) (tt : list row) (videoName : string)
    (index : nat) (maxId : Z) (sd : seed) : list row :=
  match offsets with
  | [] => tt
  | offset :: later =>
      let next_index := index + offset in
      match nth_error tt next_index with
      | None => tt
      | Some next =>
          if negb (video_name next =? videoName)%string then tt
          else if negb (person_id next =? "-1")%string then tt
          else if same_track sd next then
            look_ahead later (set_person_id tt next_index (py_str (maxId + 1)))
              videoName index maxId sd
          else tt
      end
  end.

Definition update_train_temp (tt : list row) (videoName : string)
    (index : nat) (maxId : Z) : list row :=
  match nth_error tt index with
  | None => tt
  | Some r =>
      let tt := set_person_id tt index (py_str (maxId + 1)) in
      match read_seed r with
      | None => tt
      | Some sd => look_ahead (seq 1 10) tt videoName index maxId sd
      end
  end.

(** *** Lines 67-95: the main loop *)

(** Line 82; [None] is [ValueError]. *)
Definition read_id (data : row) : option Z :=
  if negb (person_id data =? "-1")%string then py_int (person_id data)
  else Some (-1)%Z.

(** One turn of the loop at [index]: the state it leaves and, when the
    turn reaches line 90, the call [update_train_temp(videoName, index,
    maxId)] it makes, recorded as the video and the id [maxId + 1] that the
    call writes. *)
Definition turn (st : state) (index : nat) : state * option (string * Z) :=
  match nth_error (train_temp st) index with
  | None => (st, None)
  | Some data =>
      if (index =? 0)%nat && is_header data then (st, None)
      else
        let '(videoName, maxId) :=
          if negb (videoName st =? video_name data)%string
          then (video_name data, (-1)%Z)
          else (videoName st, maxId st) in
        match read_id data with
        | None => (Build_state (train_temp st) maxId videoName, None)
        | Some current_id =>
            let maxId := if (current_id >? maxId)%Z then current_id else maxId in
            if (person_id data =? "-1")%string then
              (Build_state (update_train_temp (train_temp st) videoName index maxId)
                           (maxId + 1) videoName,
               Some (videoName, (maxId + 1)%Z))
            else (Build_state (train_temp st) maxId videoName, None)
        end
  end.

Definition step (st : state) (index : nat) : state := fst (turn st index).

Definition run_from (st : state) (indices : list nat) : state :=
  fold_left step indices st.

(** The seed assignments made from [st] over [indices], in order. *)
Fixpoint seeds_from (st : state) (indices : list nat) : list (string * Z) :=
  match indices with
  | [] => []
  | index :: later =>
      match snd (turn st index) with
      | Some call => call :: seeds_from (step st index) later
      | None => seeds_from (step st index) later
      end
  end.

Definition initial (rows : list row) : state := Build_state rows (-1) "".

(** The loop over [range(len(train_temp))] and the list it leaves. *)
Definition propagate (rows : list row) : list row :=
  train_temp (run_from (initial rows) (seq 0 (List.length rows))).

(** The ids given to seeds during that loop, each with its video. *)
Definition seeds (rows : list row) : list (string * Z) :=
  seeds_from (initial rows) (seq 0 (List.length rows)).

(** The whole script, from the rows read to the rows written. *)
Definition train_fixed (rows : list row) : option (list row) :=
  sorted <- sort_rows rows ;; Some (propagate sorted).

End Propagation.

(** *** The loop, read off the rows still to visit

    The look-ahead only writes after the seed and the main loop only moves
    forward, so both can be described on the list of rows from the current
    index on. [extend] and [visit] are that description; [propagate] is
    proved equal to it below. *)

Section Structural.
Context `{Builtins}.

(** A candidate takes the seed's id: none of the [break]s of lines 41-64. *)
Definition accepts (sd : seed) (videoName : string) (next : row) : bool :=
  (video_name next =? videoName)%string
  && (person_id next =? "-1")%string
  && same_track sd next.

(** The rows after the seed, once the look-ahead over [window] offsets is
    done: the leading accepted candidates carry [id]. *)
Fixpoint extend (window : nat) (sd : seed) (videoName id : string) (rest : list row)
  : list row :=
  match window, rest with
  | S w, next :: rest' =>
      if accepts sd videoName next
      then with_person_id next id :: extend w sd videoName id rest'
      else rest
  | _, _ => rest
  end.

Definition after_seed (videoName : string) (maxId : Z) (r : row) (rest : list row)
  : list row :=
  match read_seed r with
  | None => rest
  | Some sd => extend 10 sd videoName (py_str (maxId + 1)) rest
  end.

Definition push (r : row) (p : list row * list (string * Z))
  : list row * list (string * Z) :=
  (r :: fst p, snd p).

(** The main loop from a row on; [first] says the row is at index 0. The
    result is the rows left and the seed assignments made. *)
Fixpoint visit (fuel : nat) (first : bool) (maxId : Z) (videoName : string)
    (rows : list row) : list row * list (string * Z) :=
  match fuel, rows with
  | S fuel', data :: rest =>
      if first && is_header data
      then push data (visit fuel' false maxId videoName rest)
      else
        let '(videoName, maxId) :=
          if negb (videoName =? video_name data)%string
          then (video_name data, (-1)%Z)
          else (videoName, maxId) in
        match read_id data with
        | None => push data (visit fuel' false maxId videoName rest)
        | Some current_id =>
            let maxId := if (current_id >? maxId)%Z then current_id else maxId in
            if (person_id data =? "-1")%string then
              let '(out, calls) :=
                visit fuel' false (maxId + 1) videoName
                      (after_seed videoName maxId data rest) in
              (with_person_id data (py_str (maxId + 1)) :: out,
               (videoName, (maxId + 1)%Z) :: calls)
            else push data (visit fuel' false maxId videoName rest)
        end
  | _, _ => (rows, [])
  end.

(** What a turn does with the row it visits. *)
Inductive action :=
| Skip                           (* line 73 *)
| Keep (maxId : Z) (videoName : string)   (* lines 87 and 89, test false *)
| Seed (maxId : Z) (videoName : string).  (* line 90, with its arguments *)

Definition action_of (first : bool) (m : Z) (v : string) (data : row) : action :=
  if first && is_header data then Skip
  else
    let '(v', m') :=
      if negb (v =? video_name data)%string
      then (video_name data, (-1)%Z) else (v, m) in
    match read_id data with
    | None => Keep m' v'
    | Some current_id =>
        let m'' := if (current_id >? m')%Z then current_id else m' in
        if (person_id data =? "-1")%string then Seed m'' v' else Keep m'' v'
    end.

End Structural.

(** *** Unassigned and resolved rows *)

Section Resolution.
Context `{Builtins}.

(** The person id of a row as [train_temp.py] writes it: [str] of [-1] or
    of a non-negative integer. *)
Definition written (r : row) : Prop :=
  exists n : Z, (-1 <= n)%Z /\ person_id r = py_str n.

(** The person id is not ['-1'] and reads as a non-negative integer. *)
Definition resolved (r : row) : Prop :=
  person_id r <> "-1"%string
  /\ exists n : Z, (0 <= n)%Z /\ py_int (person_id r) = Some n.

End Resolution.

(** *** The look-ahead window *)

Section Window.
Context `{Builtins}.

(** How many candidates in a row take the seed's id. *)
Fixpoint chain_length (window : nat) (sd : seed) (v : string) (rest : list row) : nat :=
  match window, rest with
  | S w, next :: rest' =>
      if accepts sd v next then S (chain_length w sd v rest') else 0
  | _, _ => 0
  end.

(** The candidate [c] continues the seed's track: same video, still
    unassigned, at most 10 frames away, each coordinate less than the
    tolerance away from the seed's as binary64 computes the difference. *)
Definition continues (sd : seed) (v : string) (c : row) : Prop :=
  video_name c = v
  /\ person_id c = "-1"%string
  /\ exists (f : Z) (a b a' b' : float),
       py_int (frame_idx c) = Some f
       /\ (Z.abs (f - current_frame sd) <= 10)%Z
       /\ py_float (x1 c) = Some a /\ py_float (y1 c) = Some b
       /\ py_float (x2 c) = Some a' /\ py_float (y2 c) = Some b'
       /\ Reference.within64 (seed_x1 sd) a = true
       /\ Reference.within64 (seed_y1 sd) b = true
       /\ Reference.within64 (seed_x2 sd) a' = true
       /\ Reference.within64 (seed_y2 sd) b' = true.

End Window.

(** *** Numbering inside a video *)

(** The video names of a list with adjacent repeats removed: one entry for
    each run of rows of one video. A list sorted by video name has no
    entry twice. *)
Fixpoint runs (names : list string) : list string :=
  match names with
  | [] => []
  | a :: rest =>
      match rest with
      | [] => [a]
      | b :: _ => if (a =? b)%string then runs rest else a :: runs rest
      end
  end.

(** The ids given to the seeds of video [u], in the order of the calls. *)
Definition ids_for (u : string) (calls : list (string * Z)) : list Z :=
  map snd (filter (fun c => (fst c =? u)%string) calls).

(** [ids] is [a], [a + 1], [a + 2], ... *)
Fixpoint counts_from (a : Z) (ids : list Z) : Prop :=
  match ids with
  | [] => True
  | i :: later => i = a /\ counts_from (a + 1) later
  end.

Section Numbering.
Context `{Builtins}.

(** A row not yet visited, when the loop is in video [v] with [maxId = m]:
    unassigned, or given an id of [v] by an earlier look-ahead. *)
Definition pending (m : Z) (v : string) (r : row) : Prop :=
  person_id r = "-1"%string
  \/ (video_name r = v
      /\ exists p : Z, (0 <= p <= m)%Z /\ person_id r = py_str p).

(** The state [(m, v)] fits the names still to visit: [v] is fresh, or
    gone, or the video of the next row. *)
Definition fits (m : Z) (v : string) (names : list string) : Prop :=
  m = (-1)%Z \/ ~ In v names \/ hd_error names = Some v.

End Numbering.

(** A list whose only row is named like the header and is unassigned. *)
Definition header_named : list row :=
  [Build_row "video_name" "5" "0.1" "0.1" "0.3" "0.3" "7" "-1"].

(** The file of scenario 3, under its header: a seed at frame 10, the same
    box at frame 12, the same box at frame 25. *)
Definition header_row : row :=
  Build_row "video_name" "frame_idx" "x1" "y1" "x2" "y2" "action_label" "person_id".

Definition scenario3 : list row :=
  [ Build_row "1" "10" "0.1" "0.1" "0.3" "0.3" "7" "-1";
    Build_row "1" "12" "0.101" "0.101" "0.301" "0.301" "7" "-1";
    Build_row "1" "25" "0.1" "0.1" "0.3" "0.3" "7" "-1" ].

(** Scenario 3 with the third row at frame 20 instead of 25. *)
Definition scenario3_close : list row :=
  [ Build_row "1" "10" "0.1" "0.1" "0.3" "0.3" "7" "-1";
    Build_row "1" "12" "0.101" "0.101" "0.301" "0.301" "7" "-1";
    Build_row "1" "20" "0.1" "0.1" "0.3" "0.3" "7" "-1" ].

(** A seed, another box one frame on, then the seed's box again. *)
Definition broken_chain : list row :=
  [ Build_row "1" "10" "0.1" "0.1" "0.3" "0.3" "7" "-1";
    Build_row "1" "11" "0.5" "0.5" "0.7" "0.7" "7" "-1";
    Build_row "1" "12" "0.1" "0.1" "0.3" "0.3" "7" "-1" ].

(** A seed and a box whose [x1] is written 0.005 away from the seed's:
    [0.105] against [0.1], and [0.505] against [0.5]. *)
Definition half_hundredth : list row :=
  [ Build_row "1" "10" "0.1" "0.1" "0.3" "0.3" "7" "-1";
    Build_row "1" "11" "0.105" "0.1" "0.3" "0.3" "7" "-1" ].

Definition half_hundredth_higher : list row :=
  [ Build_row "1" "10" "0.5" "0.1" "0.7" "0.3" "7" "-1";
    Build_row "1" "11" "0.505" "0.1" "0.7" "0.3" "7" "-1" ].

(** A seed whose [x1] cell is not a number, followed by the same box. *)
Definition unreadable_seed : list row :=
  [ Build_row "1" "10" "n/a" "0.1" "0.3" "0.3" "7" "-1";
    Build_row "1" "11" "0.1" "0.1" "0.3" "0.3" "7" "-1" ].

(** Two boxes of one video, the later frame first. *)
Definition unsorted : list row :=
  [ Build_row "1" "2" "0.1" "0.1" "0.3" "0.3" "7" "-1";
    Build_row "1" "1" "0.5" "0.5" "0.7" "0.7" "7" "-1" ].

Definition unsorted_sorted : list row :=
  [ Build_row "1" "1" "0.5" "0.5" "0.7" "0.7" "7" "-1";
    Build_row "1" "2" "0.1" "0.1" "0.3" "0.3" "7" "-1" ].

(** [a] is not after [b]. *)
Definition name_le (a b : string) : Prop := String.compare a b <> Gt.

Definition keyed_le (x y : string * Z * row) : Prop := key_le (fst x) (fst y) = true.

(** Two videos: in the first a box seen at frames 1 and 2 and another box
    at frame 2, in the second one box. *)
Definition two_videos : list row :=
  [ Build_row "1" "1" "0.1" "0.1" "0.2" "0.2" "7" "-1";
    Build_row "1" "2" "0.1" "0.1" "0.2" "0.2" "7" "-1";
    Build_row "1" "2" "0.5" "0.5" "0.6" "0.6" "7" "-1";
    Build_row "2" "1" "0.1" "0.1" "0.2" "0.2" "7" "-1" ].

(** *** The order the sort leaves *)

Section Order.
Context `{Builtins}.

(** A row that is not taken for the header (line 14). *)
Definition data_row (r : row) : bool := negb (is_header r).

(** [a] does not sort after [b]: both keys are read, and [key(a) <= key(b)]. *)
Definition row_le (a b : row) : Prop :=
  exists ka kb : string * Z,
    sort_key a = Some ka /\ sort_key b = Some kb /\ key_le ka kb = true.

(** The key of [r] is [k]. *)
Definition has_key (k : string * Z) (r : row) : bool :=
  match sort_key r with
  | Some k' => (fst k' =? fst k)%string && (snd k' =? snd k)%Z
  | None => false
  end.

End Order.

Definition key_is (k : string * Z) (x : string * Z * row) : bool :=
  (fst (fst x) =? fst k)%string && (snd (fst x) =? snd k)%Z.

(** *** What the loop may do to a row *)

(** [r'] is [r], or [r] was unassigned and [r'] is [r] with an id that is
    not negative. *)
Definition filled (r r' : row) : Prop :=
  r' = r
  \/ (person_id r = "-1"%string
      /\ exists k : Z, (0 <= k)%Z /\ r' = with_person_id r (py_str k)).

Definition assigned (r : row) : Prop := person_id r <> "-1"%string.

(** *** From [train_temp.py] to [train_fixed.py] *)

(** A line of [train_temp.csv] as [csv.reader] returns it (lines 5-8):
    eight cells, as [train_temp.py] writes them. *)
Definition read_line (line : list string) : option row :=
  match line with
  | [a; b; c; d; e; f; g; h] => Some (Build_row a b c d e f g h)
  | _ => None
  end.

Definition read_lines (lines : list (list string)) : option (list row) :=
  TrainTemp.decode_all read_line lines.

(** The row that an entry of [dicts] is read back as. *)
Definition of_entry (e : TrainTemp.dict_entry) : row :=
  let d := TrainTemp.cells e in
  Build_row (TrainTemp.c0 d) (TrainTemp.c1 d) (TrainTemp.c2 d) (TrainTemp.c3 d)
            (TrainTemp.c4 d) (TrainTemp.c5 d) (TrainTemp.c6 d)
            (py_str (TrainTemp.person_id e)).

(** A detection file of three boxes of one video, two of them known to the
    tracker file of scenario 1 and its neighbour. *)
Definition three_boxes : list (list string) :=
  [ ["video_name"; "frame_idx"; "x1"; "y1"; "x2"; "y2"; "action_label"];
    ["1"; "6"; "0.5"; "0.5"; "0.7"; "0.7"; "4"];
    ["1"; "5"; "0.1"; "0.1"; "0.3"; "0.3"; "7"];
    ["1"; "7"; "0.5"; "0.5"; "0.7"; "0.7"; "4"] ]%string.

(** Rows with two header lines, as two files put end to end. *)
Definition two_headers : list row :=
  [ header_row;
    Build_row "2" "1" "0.1" "0.1" "0.2" "0.2" "7" "-1";
    header_row;
    Build_row "1" "1" "0.1" "0.1" "0.2" "0.2" "7" "3" ].

(** A row whose frame index is not a number. *)
Definition bad_frame : list row :=
  [ header_row; Build_row "1" "one" "0.1" "0.1" "0.2" "0.2" "7" "-1" ].

(** Rows with ids from the tracker and a person id that is not a number. *)
Definition mixed_ids : list row :=
  [ header_row;
    Build_row "1" "1" "0.1" "0.1" "0.2" "0.2" "7" "4";
    Build_row "1" "2" "0.1" "0.1" "0.2" "0.2" "7" "-1";
    Build_row "1" "3" "0.5" "0.5" "0.6" "0.6" "7" "n/a";
    Build_row "1" "4" "0.5" "0.5" "0.6" "0.6" "7" "-1" ].

(** [ids] goes up strictly, from above [a]. *)
Fixpoint above (a : Z) (ids : list Z) : Prop :=
  match ids with
  | [] => True
  | i :: later => (a < i)%Z /\ above i later
  end.

(** A sorted table of one video in which the tracker knew the boxes of
    frames 1 and 3 and not the two boxes between them. *)
Definition known_and_new : list row :=
  [ header_row;
    Build_row "1" "1" "0.1" "0.1" "0.2" "0.2" "7" "2";
    Build_row "1" "2" "0.5" "0.5" "0.6" "0.6" "7" "-1";
    Build_row "1" "2" "0.8" "0.8" "0.9" "0.9" "7" "-1";
    Build_row "1" "3" "0.1" "0.1" "0.2" "0.2" "7" "7" ].

(** What the sort makes of [two_headers], and the loop of [mixed_ids]. *)
Definition two_headers_sorted : list row :=
  [ header_row;
    Build_row "1" "1" "0.1" "0.1" "0.2" "0.2" "7" "3";
    Build_row "2" "1" "0.1" "0.1" "0.2" "0.2" "7" "-1" ].

Definition mixed_ids_filled : list row :=
  [ header_row;
    Build_row "1" "1" "0.1" "0.1" "0.2" "0.2" "7" "4";
    Build_row "1" "2" "0.1" "0.1" "0.2" "0.2" "7" "5";
    Build_row "1" "3" "0.5" "0.5" "0.6" "0.6" "7" "n/a";
    Build_row "1" "4" "0.5" "0.5" "0.6" "0.6" "7" "6" ].

End TrainFixed.

(** ** Binary64 numbers on the line *)
Module Binary64.

(** The place of a number on the line, as a triple compared from the left:
    the two zeros share a place. *)
Definition rank (x : spec_float) : Z * Z * Z :=
  match x with
  | S754_nan => (0, 0, 0)%Z
  | S754_zero _ => (0, 0, 0)%Z
  | S754_infinity false => (2, 0, 0)%Z
  | S754_infinity true => (-2, 0, 0)%Z
  | S754_finite false m e => (1, e, Zpos m)%Z
  | S754_finite true m e => (-1, - e, Zneg m)%Z
  end.

Definition lt3 (a b : Z * Z * Z) : Prop :=
  (fst (fst a) < fst (fst b)
   \/ (fst (fst a) = fst (fst b)
       /\ (snd (fst a) < snd (fst b)
           \/ (snd (fst a) = snd (fst b) /\ snd a < snd b))))%Z.

Definition rk (x : float) : Z * Z * Z := rank (Prim2SF x).

(** [x] is a number. *)
Definition number (x : float) : Prop := Prim2SF x <> S754_nan.

Definition lt (x y : float) : Prop := lt3 (rk x) (rk y).

Definition le (x y : float) : Prop := lt3 (rk x) (rk y) \/ rk x = rk y.

End Binary64.

(** ** iou_calculator.py: AgreementScorer *)
Module IoU.

Import Py.

(** What a box may hold: a Python [float] or a [numpy.float64], which is a
    subclass of [float] with the same binary64 arithmetic; or a
    [numpy.int64], as a cell of an integer column of a DataFrame is, which
    is an instance of neither [int] nor [float]. (A Python [int], whose
    arithmetic is exact, is not modelled.) *)
Inductive coord :=
| PyFloat (x : float)
| NpInt64 (n : Z).

(** A box is a Python list, [[x1, y1, x2, y2]] when well formed. *)
Definition box := list coord.

(** [isinstance(coord, (int, float))]. *)
Definition isinstance_int_float (c : coord) : bool :=
  match c with
  | PyFloat _ => true
  | NpInt64 _ => false
  end.

(** [_is_valid_box] (lines 163-173): the length, the [isinstance] test of
    line 167, then the order of the corners. The range test of line 171
    only logs. *)
Definition is_valid_box (b : box) : bool :=
  match b with
  | [x1; y1; x2; y2] =>
      if negb (forallb isinstance_int_float b) then false
      else
        match x1, y1, x2, y2 with
        | PyFloat x1, PyFloat y1, PyFloat x2, PyFloat y2 =>
            if ((x2 <=? x1) || (y2 <=? y1))%float then false else true
        | _, _, _, _ => false
        end
  | _ => false
  end.

(** [calculate_spatial_iou] (lines 13-41). A list that does not unpack
    into four names raises [ValueError], caught at line 39. Past line 18
    both boxes hold floats, [_is_valid_box] having passed; the last branch
    of the inner [match] is not reached. *)
Definition calculate_spatial_iou (box1 box2 : box) : float :=
  match box1, box2 with
  | [x1_1; y1_1; x2_1; y2_1], [x1_2; y1_2; x2_2; y2_2] =>
      if negb (is_valid_box box1) || negb (is_valid_box box2) then 0%float
      else
        match x1_1, y1_1, x2_1, y2_1, x1_2, y1_2, x2_2, y2_2 with
        | PyFloat x1_1, PyFloat y1_1, PyFloat x2_1, PyFloat y2_1,
          PyFloat x1_2, PyFloat y1_2, PyFloat x2_2, PyFloat y2_2 =>
            let x1_inter := py_max x1_1 x1_2 in
            let y1_inter := py_max y1_1 y1_2 in
            let x2_inter := py_min x2_1 x2_2 in
            let y2_inter := py_min y2_1 y2_2 in
            if ((x2_inter <=? x1_inter) || (y2_inter <=? y1_inter))%float then 0%float
            else
              let intersection_area :=
                ((x2_inter - x1_inter) * (y2_inter - y1_inter))%float in
              let box1_area := ((x2_1 - x1_1) * (y2_1 - y1_1))%float in
              let box2_area := ((x2_2 - x1_2) * (y2_2 - y1_2))%float in
              let union_area := (box1_area + box2_area - intersection_area)%float in
              if (union_area =? 0)%float then 0%float
              else
                let iou := (intersection_area / union_area)%float in
                py_max 0%float (py_min 1%float iou)
        | _, _, _, _, _, _, _, _ => 0%float
        end
  | _, _ => 0%float
  end.

(** The area the script computes for a box of floats. *)
Definition area (b : box) : float :=
  match b with
  | [PyFloat x1; PyFloat y1; PyFloat x2; PyFloat y2] => ((x2 - x1) * (y2 - y1))%float
  | _ => 0%float
  end.

(** [x1 >= x2 or y1 >= y2], on floats. *)
Definition degenerate (b : box) : Prop :=
  match b with
  | [PyFloat x1; PyFloat y1; PyFloat x2; PyFloat y2] =>
      (x2 <=? x1)%float = true \/ (y2 <=? y1)%float = true
  | _ => False
  end.

(** [x1 < x2 and y1 < y2], on floats. *)
Definition non_degenerate (b : box) : Prop :=
  match b with
  | [PyFloat x1; PyFloat y1; PyFloat x2; PyFloat y2] =>
      (x1 <? x2)%float = true /\ (y1 <? y2)%float = true
  | _ => False
  end.

(** The interiors of two boxes of floats share no point. *)
Definition disjoint (a b : box) : Prop :=
  match a, b with
  | [PyFloat ax1; PyFloat ay1; PyFloat ax2; PyFloat ay2],
    [PyFloat bx1; PyFloat by1; PyFloat bx2; PyFloat by2] =>
      (ax2 <=? bx1)%float = true \/ (bx2 <=? ax1)%float = true
      \/ (ay2 <=? by1)%float = true \/ (by2 <=? ay1)%float = true
  | _, _ => False
  end.

(** The coordinate is not NaN. *)
Definition coord_number (c : coord) : Prop :=
  match c with
  | PyFloat x => Binary64.number x
  | NpInt64 _ => True
  end.

(** No coordinate is NaN. *)
Definition numbers (b : box) : Prop := Forall coord_number b.

(** A box whose [x1] is NaN, a box to its right, a box of width and height
    [1e-200], and the box of the module's own test. *)
Definition nan_box : box := map PyFloat [nan; 0; 1; 1]%float.

Definition far_box : box := map PyFloat [2; 0; 3; 1]%float.

Definition tiny_box : box := map PyFloat [0; 0; 1e-200; 1e-200]%float.

Definition test_box : box := map PyFloat [0.1; 0.2; 0.5; 0.8]%float.

Definition test_box2 : box := map PyFloat [0.2; 0.3; 0.6; 0.9]%float.

(** The zero-width box of the specification. *)
Definition zero_width_box : box := map PyFloat [0.5; 0.5; 0.5; 0.9]%float.

(** The unit square as a row of integer columns gives it through
    [iloc[0]]. *)
Definition int64_box : box := map NpInt64 [0; 0; 1; 1]%Z.

(** *** calculate_annotation_agreement (lines 82-143) *)

(** A row of an annotation table, with the columns the function reads.
    The box columns are of dtype [float64]: their cells reach
    [calculate_spatial_iou] as floats from [iterrows] and as
    [numpy.float64] from [iloc[0]]. *)
Record annotation := {
  video_name : string;
  timestamp : float;
  x1 : float;
  y1 : float;
  x2 : float;
  y2 : float;
  action_label : Z;
  person_id : Z
}.

Definition box_of (r : annotation) : box :=
  [PyFloat (x1 r); PyFloat (y1 r); PyFloat (x2 r); PyFloat (y2 r)].

(** Lines 91-95: the mask built from [row1], at a row of [annotations2]. *)
Definition mask (row1 row2 : annotation) : bool :=
  (video_name row2 =? video_name row1)%string
  && (timestamp row2 =? timestamp row1)%float
  && (person_id row2 =? person_id row1)%Z.

(** An element of [matches] (lines 108-116). *)
Record match_entry := {
  m_video_name : string;
  m_timestamp : float;
  m_person_id : Z;
  spatial_iou : float;
  label_match : bool;
  box1 : box;
  box2 : box
}.

(** Lines 91-116 for one [row1]: nothing, or the entry of its first match. *)
Definition match_row (annotations2 : list annotation) (row1 : annotation)
  : list match_entry :=
  match find (mask row1) annotations2 with
  | None => []
  | Some row2 =>
      [ {| m_video_name := video_name row1;
           m_timestamp := timestamp row1;
           m_person_id := person_id row1;
           spatial_iou := calculate_spatial_iou (box_of row1) (box_of row2);
           label_match := (action_label row1 =? action_label row2)%Z;
           box1 := box_of row1;
           box2 := box_of row2 |} ]
  end.

(** Lines 89-116. *)
Definition all_matches (annotations1 annotations2 : list annotation)
  : list match_entry :=
  flat_map (match_row annotations2) annotations1.

(** Lines 86-88: [if video_name:] is false for [None] and for [""]. *)
Definition filter_video (video : option string) (rows : list annotation)
  : list annotation :=
  match video with
  | None => rows
  | Some v =>
      if (v =? "")%string then rows
      else filter (fun r => (video_name r =? v)%string) rows
  end.

(** The dictionary returned; the two keys that the empty report lacks are
    options. *)
Record report := {
  mean_spatial_iou : float;
  median_spatial_iou : float;
  std_spatial_iou : option float;
  label_accuracy : float;
  total_matches : nat;
  high_iou_matches : nat;
  low_iou_samples : option (list match_entry)
}.

Definition float_of_bool (b : bool) : float := if b then 1%float else 0%float.

Definition float_of_nat (n : nat) : float :=
  of_uint63 (Uint63Axioms.of_Z (Z.of_nat n)).

(** A mean computed from left to right, to run the function on examples. *)
Definition mean_in_order (l : list float) : float :=
  (fold_left add l 0 / float_of_nat (List.length l))%float.

Section Agreement.
(** NumPy's [mean], [median] and [std], and the calculator's threshold. *)

Variables np_mean np_median np_std : list float -> float.
Variable min_iou_threshold : float.

Definition calculate_annotation_agreement
    (annotations1 annotations2 : list annotation) (video : option string) : report :=
  let annotations1 := filter_video video annotations1 in
  let annotations2 := filter_video video annotations2 in
  let matches := all_matches annotations1 annotations2 in
  match matches with
  | [] =>
      {| mean_spatial_iou := 0; median_spatial_iou := 0; std_spatial_iou := None;
         label_accuracy := 0; total_matches := 0; high_iou_matches := 0;
         low_iou_samples := None |}
  | _ :: _ =>
      let iou_scores := map spatial_iou matches in
      let label_matches := map label_match matches in
      {| mean_spatial_iou := np_mean iou_scores;
         median_spatial_iou := np_median iou_scores;
         std_spatial_iou := Some (np_std iou_scores);
         label_accuracy := np_mean (map float_of_bool label_matches);
         total_matches := List.length matches;
         high_iou_matches :=
           List.length (filter (fun iou => (min_iou_threshold <=? iou)%float) iou_scores);
         low_iou_samples :=
           Some (filter (fun m => (spatial_iou m <? min_iou_threshold)%float) matches) |}
  end.

(** No row has the key of an earlier row. *)
Definition keys_distinct (rows : list annotation) : Prop :=
  forall (i j : nat) (ri rj : annotation),
    i < j -> nth_error rows i = Some ri -> nth_error rows j = Some rj ->
    mask rj ri = false.

(** A box that has IoU 1.0 with itself. *)
Definition whole (b : box) : Prop :=
  non_degenerate b
  /\ (0 <? area b)%float = true
  /\ (area b + area b <? infinity)%float = true.

(** The entry of a row matched with itself. *)
Definition self_entry (r : annotation) : match_entry :=
  {| m_video_name := video_name r;
     m_timestamp := timestamp r;
     m_person_id := person_id r;
     spatial_iou := calculate_spatial_iou (box_of r) (box_of r);
     label_match := (action_label r =? action_label r)%Z;
     box1 := box_of r;
     box2 := box_of r |}.

End Agreement.

(** Two tables: two rows with different timestamps, and two rows with the
    same key whose boxes do not meet. *)
Definition two_rows : list annotation :=
  [ Build_annotation "video_001" 1 0.1 0.2 0.5 0.8 1 0;
    Build_annotation "video_001" 2 0.2 0.3 0.6 0.9 7 1 ]%float.

Definition same_key_rows : list annotation :=
  [ Build_annotation "video_001" 1 0.1 0.2 0.5 0.8 1 0;
    Build_annotation "video_001" 1 0.6 0.1 0.9 0.3 7 0 ]%float.

(** *** calculate_temporal_iou (lines 43-68) *)

(** An interval is a Python list of floats, [[start, end]] when well
    formed; a list that does not unpack into two names raises
    [ValueError], caught at line 66. *)
Definition interval := list float.

Definition calculate_temporal_iou (time1 time2 : interval) : float :=
  match time1, time2 with
  | [start1; end1], [start2; end2] =>
      if ((end1 <=? start1) || (end2 <=? start2))%float then 0%float
      else
        let intersection_start := py_max start1 start2 in
        let intersection_end := py_min end1 end2 in
        if (intersection_end <=? intersection_start)%float then 0%float
        else
          let intersection_duration := (intersection_end - intersection_start)%float in
          let duration1 := (end1 - start1)%float in
          let duration2 := (end2 - start2)%float in
          let union_duration := (duration1 + duration2 - intersection_duration)%float in
          if (union_duration =? 0)%float then 0%float
          else
            let tiou := (intersection_duration / union_duration)%float in
            py_max 0%float (py_min 1%float tiou)
  | _, _ => 0%float
  end.

(** [end - start], the duration the function computes. *)
Definition duration (t : interval) : float :=
  match t with
  | [start; end_] => (end_ - start)%float
  | _ => 0%float
  end.

(** [start < end]. *)
Definition proper (t : interval) : Prop :=
  match t with
  | [start; end_] => (start <? end_)%float = true
  | _ => False
  end.

(** [start >= end]. *)
Definition improper (t : interval) : Prop :=
  match t with
  | [start; end_] => (end_ <=? start)%float = true
  | _ => False
  end.

(** One interval ends where the other starts, or before. *)
Definition apart (s t : interval) : Prop :=
  match s, t with
  | [start1; end1], [start2; end2] =>
      (end1 <=? start2)%float = true \/ (end2 <=? start1)%float = true
  | _, _ => False
  end.

(** The intervals of the module's own test. *)
Definition test_time : interval := [1; 5]%float.

Definition test_time2 : interval := [3; 7]%float.

Definition test_time3 : interval := [6; 8]%float.

(** *** calculate_batch_spatial_iou (lines 70-80) *)

Definition calculate_batch_spatial_iou (boxes1 boxes2 : list box) : list float :=
  if negb (List.length boxes1 =? List.length boxes2)%nat then []
  else
    fold_left (fun iou_scores pair =>
                 iou_scores ++ [calculate_spatial_iou (fst pair) (snd pair)])
              (combine boxes1 boxes2) [].

(** *** Python dictionaries with string keys *)

(** The items in insertion order; the keys of a dictionary are distinct. *)
Definition dict (V : Type) : Type := list (string * V).

Definition keys {V : Type} (d : dict V) : list string := map fst d.

(** [d[k]]; [None] is [KeyError]. *)
Fixpoint dict_get {V : Type} (d : dict V) (k : string) : option V :=
  match d with
  | [] => None
  | (k', v) :: rest => if (k' =? k)%string then Some v else dict_get rest k
  end.

(** [d[k] = v]: a key already there keeps its place. *)
Fixpoint dict_set {V : Type} (d : dict V) (k : string) (v : V) : dict V :=
  match d with
  | [] => [(k, v)]
  | (k', v') :: rest =>
      if (k' =? k)%string then (k', v) :: rest else (k', v') :: dict_set rest k v
  end.

Definition enumerate {A : Type} (l : list A) : list (nat * A) :=
  combine (seq 0 (List.length l)) l.

(** The pairs [(l[i], l[j])], [i < j], in the order the two loops of
    lines 149-151 meet them. *)
Fixpoint pairs {A : Type} (l : list A) : list (A * A) :=
  match l with
  | [] => []
  | a :: rest => map (pair a) rest ++ pairs rest
  end.

(** [f"{annotator1}_vs_{annotator2}"]. *)
Definition pair_key (annotator1 annotator2 : string) : string :=
  (annotator1 ++ "_vs_" ++ annotator2)%string.

(** The number of entries of [low_iou_samples], 0 when the key is absent. *)
Definition low_count (r : report) : nat :=
  match low_iou_samples r with
  | Some samples => List.length samples
  | None => 0
  end.

(** [row1] has a row with its key in [annotations2]. *)
Definition has_partner (annotations2 : list annotation) (row1 : annotation) : bool :=
  existsb (mask row1) annotations2.

(** A sample of [get_problematic_samples]: an entry of [low_iou_samples]
    with the two keys of lines 183-184. *)
Record flagged := {
  sample : match_entry;
  annotator_pair : string;
  needs_review : bool
}.

(** Lines 183-185: the sample with its two new keys. *)
Definition flag (pair_key : string) (sample : match_entry) : flagged :=
  {| sample := sample; annotator_pair := pair_key; needs_review := true |}.

(** [results['low_iou_samples']] where the key is there, no sample
    otherwise. *)
Definition samples_of (results : report) : list match_entry :=
  match low_iou_samples results with
  | Some samples => samples
  | None => []
  end.

Section Annotators.
Variables np_mean np_median np_std : list float -> float.
Variable min_iou_threshold : float.

(** Lines 154-159, for one pair of names. *)
Definition add_pair (annotation_dict : dict (list annotation))
    (pairwise_results : option (dict report)) (annotator1 annotator2 : string)
  : option (dict report) :=
  pairwise_results <- pairwise_results ;;
  annotations1 <- dict_get annotation_dict annotator1 ;;
  annotations2 <- dict_get annotation_dict annotator2 ;;
  Some (dict_set pairwise_results (pair_key annotator1 annotator2)
          (calculate_annotation_agreement np_mean np_median np_std min_iou_threshold
             annotations1 annotations2 None)).

(** [calculate_multi_annotator_iou] (lines 145-161); [None] is a
    [KeyError] that nothing catches. *)
Definition calculate_multi_annotator_iou (annotation_dict : dict (list annotation))
  : option (dict report) :=
  let annotator_names := keys annotation_dict in
  fold_left
    (fun pairwise_results ia =>
       fold_left
         (fun pairwise_results jb =>
            if (fst ia <? fst jb)%nat
            then add_pair annotation_dict pairwise_results (snd ia) (snd jb)
            else pairwise_results)
         (enumerate annotator_names) pairwise_results)
    (enumerate annotator_names) (Some []).

(** Lines 180-185 for one item of [pairwise_results]. *)
Definition flag_pair (problematic_samples : list flagged) (item : string * report)
  : list flagged :=
  match low_iou_samples (snd item) with
  | Some samples =>
      fold_left
        (fun problematic_samples sample =>
           problematic_samples
           ++ [ {| sample := sample; annotator_pair := fst item; needs_review := true |} ])
        samples problematic_samples
  | None => problematic_samples
  end.

(** [get_problematic_samples] (lines 175-187). *)
Definition get_problematic_samples (annotation_dict : dict (list annotation))
    (min_iou : float) : option (list flagged) :=
  pairwise_results <- calculate_multi_annotator_iou annotation_dict ;;
  Some (fold_left flag_pair pairwise_results []).

(** The report of one pair of annotators. *)
Definition agreement_of (pair : (string * list annotation) * (string * list annotation))
  : string * report :=
  (pair_key (fst (fst pair)) (fst (snd pair)),
   calculate_annotation_agreement np_mean np_median np_std min_iou_threshold
     (snd (fst pair)) (snd (snd pair)) None).

End Annotators.

(** The two tables of the module's own test, and a third annotator who
    drew the boxes of the first elsewhere. *)
Definition annotations_1 : list annotation :=
  [ Build_annotation "video_001" 1 0.1 0.2 0.5 0.8 1 0;
    Build_annotation "video_001" 2 0.2 0.3 0.6 0.9 7 1;
    Build_annotation "video_002" 1 0.3 0.4 0.7 0.8 12 0 ]%float.

Definition annotations_2 : list annotation :=
  [ Build_annotation "video_001" 1 0.15 0.25 0.55 0.85 1 0;
    Build_annotation "video_001" 2 0.25 0.35 0.65 0.95 7 1;
    Build_annotation "video_002" 1 0.35 0.45 0.75 0.85 15 0 ]%float.

Definition annotations_3 : list annotation :=
  [ Build_annotation "video_001" 1 0.6 0.1 0.9 0.3 1 0 ]%float.

Definition three_annotators : dict (list annotation) :=
  [ ("ann1", annotations_1); ("ann2", annotations_2); ("ann3", annotations_3) ]%string.

End IoU.

(** * Part II: properties *)

(** ** The decimal parsers: round trip *)
Module Decimal64Facts.
Import Decimal64.

(** [int(str(n)) == n] holds of these parsers. *)
Lemma int_str (n : Z) : int_of_string (Py.py_str n) = Some n.
Proof.
  unfold int_of_string, Py.py_str.
  rewrite NilZero.isi.
  - now rewrite DecimalZ.of_to.
  - destruct n; simpl; try discriminate.
    intros [= E]. exact (DecimalPos.Unsigned.to_uint_nonnil _ E).
  - destruct n; simpl; try discriminate.
    intros [= E]. exact (DecimalPos.Unsigned.to_uint_nonnil _ E).
Qed.

Lemma int_str_law : Py.int_str_law (H := builtins).
Proof. intros n. apply int_str. Qed.

End Decimal64Facts.

(** ** The scripts' tolerance test is the binary64 reading *)
Module ReferenceFacts.
Import Py Reference.

(** [abs(a - b) < 0.005] on Python floats is [within64]. *)
Lemma near_within64 (a b : float) : near a b = within64 a b.
Proof.
  unfold near, within64, tolerance.
  rewrite ltb_spec, abs_spec, sub_spec. reflexivity.
Qed.

(** A computed difference that is the double 0.005 itself is not within
    the tolerance. *)
Lemma within64_strict (a b : float) :
  Prim2SF (abs (a - b)) = tolerance64 -> within64 a b = false.
Proof.
  unfold within64. rewrite abs_spec, sub_spec. intros ->. reflexivity.
Qed.

(** [tolerance64] is the double of the scripts' literal, and no double is
    nearer to 0.005: it lies within half a unit in the last place,
    [2^-61], of it. *)
Lemma tolerance64_nearest :
  Prim2SF tolerance = tolerance64
  /\ QArith_base.Qle_bool
       (Qabs.Qabs (QArith_base.Qminus
                     (QArith_base.Qmake 5764607523034235 (2 ^ 60))
                     (QArith_base.Qmake 5 1000)))
       (QArith_base.Qmake 1 (2 ^ 61)) = true.
Proof. split; vm_compute; reflexivity. Qed.

End ReferenceFacts.

(** ** train_temp.py: properties of BoxMatcher *)
Module TrainTempFacts.
Import Py TrainTemp.

(** *** Properties of the matching loop *)

Section MatchingFacts.
Context `{Builtins}.

Lemma match_loop_map (train_personID todo : list csv_row) (dicts : list dict_entry) :
  match_loop train_personID todo dicts = dicts ++ map (match_one train_personID) todo.
Proof.
  revert dicts. induction todo as [|data rest IH]; intros dicts; simpl.
  - now rewrite List.app_nil_r.
  - rewrite IH, <- List.app_assoc. reflexivity.
Qed.

Lemma match_boxes_map (train_personID train_without_personID : list csv_row) :
  match_boxes train_personID train_without_personID
  = map (match_one train_personID) train_without_personID.
Proof. unfold match_boxes. now rewrite match_loop_map. Qed.

Lemma match_boxes_length (train_personID train_without_personID : list csv_row) :
  List.length (match_boxes train_personID train_without_personID)
  = List.length train_without_personID.
Proof. rewrite match_boxes_map. apply List.length_map. Qed.

(** [match_one] keeps the cells of the row it was given. *)
Lemma scan_cells (data : csv_row) (train_personID : list csv_row) (e : dict_entry) :
  scan data train_personID = Some e -> cells e = data.
Proof.
  induction train_personID as [|t rest IH]; simpl; [discriminate|].
  unfold try_pair.
  destruct (c0 data =? c0 t)%string; [|exact IH].
  destruct (py_int (c1 data)) as [f|]; [|exact IH].
  destruct (py_int (c1 t)) as [g|]; [|exact IH].
  destruct (f =? g)%Z; [|exact IH].
  destruct (boxes_near data t) as [[|]|]; try exact IH.
  destruct (py_int (c6 t)) as [id|]; [|exact IH].
  intros [= <-]. reflexivity.
Qed.

Lemma match_one_cells (train_personID : list csv_row) (data : csv_row) :
  cells (match_one train_personID data) = data.
Proof.
  unfold match_one. destruct (scan data train_personID) eqn:E; [|reflexivity].
  eapply scan_cells; eassumption.
Qed.

Lemma boxes_near_decoded (d t : csv_row) (D T : Detection) :
  decode d = Some D -> decode t = Some T ->
  boxes_near d t
  = Some (Reference.within64 (x1 D) (x1 T) && Reference.within64 (y1 D) (y1 T)
          && Reference.within64 (x2 D) (x2 T) && Reference.within64 (y2 D) (y2 T)).
Proof.
  unfold decode, boxes_near, near_cells. intros HD HT.
  destruct (py_int (c1 d)); [|discriminate].
  destruct (py_float (c2 d)); [|discriminate].
  destruct (py_float (c3 d)); [|discriminate].
  destruct (py_float (c4 d)); [|discriminate].
  destruct (py_float (c5 d)); [|discriminate].
  destruct (py_int (c1 t)); [|discriminate].
  destruct (py_float (c2 t)); [|discriminate].
  destruct (py_float (c3 t)); [|discriminate].
  destruct (py_float (c4 t)); [|discriminate].
  destruct (py_float (c5 t)); [|discriminate].
  injection HD as <-. injection HT as <-. simpl.
  rewrite <- !ReferenceFacts.near_within64.
  destruct (near _ _); simpl; [|reflexivity].
  destruct (near _ _); simpl; [|reflexivity].
  destruct (near _ _); simpl; reflexivity.
Qed.

Lemma decode_fields (r : csv_row) (D : Detection) :
  decode r = Some D ->
  video_name D = c0 r /\ py_int (c1 r) = Some (frame_index D).
Proof.
  unfold decode. intros HD.
  destruct (py_int (c1 r)); [|discriminate].
  destruct (py_float (c2 r)); [|discriminate].
  destruct (py_float (c3 r)); [|discriminate].
  destruct (py_float (c4 r)); [|discriminate].
  destruct (py_float (c5 r)); [|discriminate].
  injection HD as <-. split; reflexivity.
Qed.

Lemma try_pair_decoded (d t : csv_row) (D : Detection) (T : Identified) :
  decode d = Some D -> decode_identified t = Some T ->
  try_pair d t
  = Some (if same_box D (detection T)
          then Some (Build_dict_entry d (identity T - 1)) else None).
Proof.
  intros HD HT. unfold decode_identified in HT.
  destruct (decode t) as [T0|] eqn:HT0; [|discriminate].
  destruct (py_int (c6 t)) as [id|] eqn:Hid; [|discriminate].
  injection HT as <-. simpl.
  destruct (decode_fields d D HD) as [Hv Hf].
  destruct (decode_fields t T0 HT0) as [Hv0 Hf0].
  unfold try_pair, same_box.
  rewrite Hf, Hf0, (boxes_near_decoded d t D T0 HD HT0), Hv, Hv0.
  destruct (c0 d =? c0 t)%string; simpl; [|reflexivity].
  destruct (frame_index D =? frame_index T0)%Z; simpl; [|reflexivity].
  rewrite <- !andb_assoc.
  destruct (Reference.within64 (x1 D) (x1 T0) && _); [|reflexivity].
  now rewrite Hid.
Qed.

Lemma scan_decoded (d : csv_row) (D : Detection)
      (train_personID : list csv_row) (W : list Identified) :
  decode d = Some D ->
  decode_all decode_identified train_personID = Some W ->
  scan d train_personID
  = option_map (fun t => Build_dict_entry d (identity t - 1))
               (find (fun t => same_box D (detection t)) W).
Proof.
  intros HD. revert W.
  induction train_personID as [|t rest IH]; intros W HW; simpl in HW.
  - injection HW as <-. reflexivity.
  - destruct (decode_identified t) as [T|] eqn:HT; [|discriminate].
    destruct (decode_all decode_identified rest) as [Ws|]; [|discriminate].
    injection HW as <-. simpl.
    rewrite (try_pair_decoded d t D T HD HT).
    destruct (same_box D (detection T)); [reflexivity|].
    now apply IH.
Qed.

Lemma match_boxes_decoded (train_personID train_without_personID : list csv_row)
      (W : list Identified) (D : list Detection) :
  decode_all decode_identified train_personID = Some W ->
  decode_all decode train_without_personID = Some D ->
  decode_all decode_entry (match_boxes train_personID train_without_personID)
  = Some (match_ref W D).
Proof.
  intros HW. rewrite match_boxes_map. revert D.
  induction train_without_personID as [|d rest IH]; intros D HD; simpl in HD.
  - injection HD as <-. reflexivity.
  - destruct (decode d) as [D0|] eqn:HD0; [|discriminate].
    destruct (decode_all decode rest) as [Ds|]; [|discriminate].
    injection HD as <-. simpl.
    rewrite (IH Ds eq_refl).
    unfold decode_entry at 1. rewrite match_one_cells, HD0.
    unfold match_one. rewrite (scan_decoded d D0 train_personID W HD0 HW).
    destruct (find _ W); reflexivity.
Qed.

End MatchingFacts.

Section Tolerance.
Context `{Builtins}.

Lemma try_pair_found (data t : csv_row) (e : dict_entry) :
  try_pair data t = Some (Some e) ->
  within_tolerance data t = true
  /\ exists id, py_int (c6 t) = Some id /\ e = Build_dict_entry data (id - 1).
Proof.
  unfold try_pair, within_tolerance.
  destruct (c0 data =? c0 t)%string; [|discriminate].
  destruct (py_int (c1 data)) as [f|]; [|discriminate].
  destruct (py_int (c1 t)) as [g|]; [|discriminate].
  destruct (f =? g)%Z; [|discriminate].
  destruct (boxes_near data t) as [[|]|]; try discriminate.
  destruct (py_int (c6 t)) as [id|]; [|discriminate].
  intros [= <-]. split; [reflexivity|]. exists id. split; reflexivity.
Qed.

Lemma try_pair_outside (data t : csv_row) :
  within_tolerance data t = false ->
  try_pair data t = Some None \/ try_pair data t = None.
Proof.
  unfold try_pair, within_tolerance.
  destruct (c0 data =? c0 t)%string; [|now left].
  destruct (py_int (c1 data)) as [f|]; [|now right].
  destruct (py_int (c1 t)) as [g|]; [|now right].
  destruct (f =? g)%Z; [|now left].
  destruct (boxes_near data t) as [[|]|]; simpl; try discriminate.
  - now left.
  - now right.
Qed.

Lemma scan_found (data : csv_row) (train_personID : list csv_row) (e : dict_entry) :
  scan data train_personID = Some e ->
  exists t id, In t train_personID /\ within_tolerance data t = true
               /\ py_int (c6 t) = Some id /\ e = Build_dict_entry data (id - 1).
Proof.
  induction train_personID as [|t rest IH]; simpl; [discriminate|].
  destruct (try_pair data t) as [[e'|]|] eqn:E.
  - intros [= <-]. destruct (try_pair_found _ _ _ E) as [Hw [id [Hid He]]].
    exists t, id. auto.
  - intros Hs. destruct (IH Hs) as [u [id [Hin Hrest]]]. exists u, id. auto.
  - intros Hs. destruct (IH Hs) as [u [id [Hin Hrest]]]. exists u, id. auto.
Qed.

Lemma scan_none (data : csv_row) (train_personID : list csv_row) :
  (forall t, In t train_personID -> within_tolerance data t = false) ->
  scan data train_personID = None.
Proof.
  induction train_personID as [|t rest IH]; simpl; intros Hall; [reflexivity|].
  destruct (try_pair_outside data t (Hall t (or_introl eq_refl))) as [-> | ->];
    apply IH; intros u Hu; apply Hall; now right.
Qed.

End Tolerance.

(** C1 (amended). On rows whose numeric cells parse, [match_boxes] is the
    reference definition [match_ref]: each record of the source without
    identities yields exactly one output record, paired with the first
    record of the other source, in list order, that has the same video
    name, the same frame index as an integer, and four coordinates each
    less than the tolerance away as binary64 computes it: the difference of
    the two doubles, rounded, its sign dropped, is below the double nearest
    to 0.005. A computed difference that is this double itself rules the
    pair out; so does [x1] written [0.505] against [0.5], whose computed
    difference is above it, while [0.1049] against [0.1] makes a pair. *)
Theorem match_boxes_is_match_ref :
  (forall (B : Builtins) (train_personID train_without_personID : list csv_row)
          (W : list Identified) (D : list Detection),
      decode_all decode_identified train_personID = Some W ->
      decode_all decode train_without_personID = Some D ->
      decode_all decode_entry (match_boxes train_personID train_without_personID)
      = Some (match_ref W D)
      /\ List.length (match_boxes train_personID train_without_personID)
         = List.length train_without_personID)
  /\ (forall d t : Detection,
        (Prim2SF (abs (x1 d - x1 t)) = Reference.tolerance64
         \/ Prim2SF (abs (y1 d - y1 t)) = Reference.tolerance64
         \/ Prim2SF (abs (x2 d - x2 t)) = Reference.tolerance64
         \/ Prim2SF (abs (y2 d - y2 t)) = Reference.tolerance64)%float ->
        same_box d t = false)
  /\ match_boxes (H := Decimal64.builtins)
       (load half_hundredth_higher_personID)
       (load half_hundredth_higher_without_personID)
     = [Build_dict_entry (Build_csv_row "1" "5" "0.5" "0.1" "0.7" "0.3" "7") (-1)]
  /\ match_ref
       [Build_Identified (Build_Detection "1" 5 0.1049 0.1 0.3 0.3 "3") 3]
       [Build_Detection "1" 5 0.1 0.1 0.3 0.3 "7"]
     = [Build_MatchedRecord (Build_Detection "1" 5 0.1 0.1 0.3 0.3 "7") 2].
Proof.
  split; [|split; [|split]].
  - intros B train_personID train_without_personID W D HW HD. split.
    + now apply match_boxes_decoded.
    + apply match_boxes_length.
  - intros d t Hexact. unfold same_box.
    destruct Hexact as [E|[E|[E|E]]];
      rewrite (ReferenceFacts.within64_strict _ _ E);
      rewrite ?andb_false_r; reflexivity.
  - vm_compute. reflexivity.
  - vm_compute. reflexivity.
Qed.

(** C1, counterexample: the tracker row writes [x1 = 0.105] and the
    detection [x1 = 0.1], exactly 0.005 apart, the other cells being equal.
    By the specification's words the detection is left unmatched; the script pairs
    the two rows and writes person id 2, the doubles of [0.105] and [0.1]
    having the computed difference [5764607523034224 * 2^-60], below the
    double of [0.005], [5764607523034235 * 2^-60]. *)
Lemma match_boxes_half_hundredth :
  read_written (Build_csv_row "1" "5" "0.105" "0.1" "0.3" "0.3" "3")
  = Some (Build_Written "1" 5 (QArith_base.Qmake 105 1000) (QArith_base.Qmake 1 10)
            (QArith_base.Qmake 3 10) (QArith_base.Qmake 3 10))
  /\ read_written (Build_csv_row "1" "5" "0.1" "0.1" "0.3" "0.3" "7")
     = Some (Build_Written "1" 5 (QArith_base.Qmake 1 10) (QArith_base.Qmake 1 10)
               (QArith_base.Qmake 3 10) (QArith_base.Qmake 3 10))
  /\ QArith_base.Qeq
       (QArith_base.Qminus (QArith_base.Qmake 105 1000) (QArith_base.Qmake 1 10))
       (QArith_base.Qmake 5 1000)
  /\ match_spec
       [(Build_Written "1" 5 (QArith_base.Qmake 105 1000) (QArith_base.Qmake 1 10)
           (QArith_base.Qmake 3 10) (QArith_base.Qmake 3 10), 3%Z)]
       [Build_Written "1" 5 (QArith_base.Qmake 1 10) (QArith_base.Qmake 1 10)
          (QArith_base.Qmake 3 10) (QArith_base.Qmake 3 10)]
     = [(Build_Written "1" 5 (QArith_base.Qmake 1 10) (QArith_base.Qmake 1 10)
           (QArith_base.Qmake 3 10) (QArith_base.Qmake 3 10), (-1)%Z)]
  /\ match_boxes (H := Decimal64.builtins)
       (load half_hundredth_personID) (load scenario1_without_personID)
     = [Build_dict_entry (Build_csv_row "1" "5" "0.1" "0.1" "0.3" "0.3" "7") 2]
  /\ Decimal64.float_of_string "0.1" = Some 0.1%float
  /\ Decimal64.float_of_string "0.105" = Some 0.105%float
  /\ Prim2SF (abs (0.1 - 0.105))
     = S754_finite false 5764607523034224 (-60).
Proof. repeat split; vm_compute; reflexivity. Qed.

Lemma match_boxes_is_match_ref_witness :
  (decode_all (decode_entry (H := Decimal64.builtins))
    (match_boxes (H := Decimal64.builtins)
       (load scenario1_personID) (load scenario1_without_personID))
  = Some (match_ref
            [Build_Identified
               (Build_Detection "1" 5 0.101 0.101 0.301 0.301 "3") 3]
            [Build_Detection "1" 5 0.1 0.1 0.3 0.3 "7"])
  /\ List.length (match_boxes (H := Decimal64.builtins)
                    (load scenario1_personID) (load scenario1_without_personID))
     = 1%nat)
  /\ same_box (Build_Detection "1" 5 0.005 0.1 0.3 0.3 "7")
              (Build_Detection "1" 5 0 0.1 0.3 0.3 "3") = false.
Proof.
  split.
  - exact (proj1 match_boxes_is_match_ref Decimal64.builtins
             (load scenario1_personID) (load scenario1_without_personID)
             [Build_Identified
                (Build_Detection "1" 5 0.101 0.101 0.301 0.301 "3") 3]
             [Build_Detection "1" 5 0.1 0.1 0.3 0.3 "7"]
             eq_refl eq_refl).
  - apply (proj1 (proj2 match_boxes_is_match_ref)). left. reflexivity.
Defined.

(** C2. When the scan finds a record [t] for [data], the entry it emits
    carries [int(t[6]) - 1], and [t] is within tolerance of [data]; when no
    record is within tolerance the entry carries [-1]. In scenario 1 the
    person id 3 becomes 2. *)
Theorem match_one_person_id :
  (forall (B : Builtins) (train_personID : list csv_row) (data : csv_row),
      (forall e, scan data train_personID = Some e ->
         match_one train_personID data = e
         /\ exists t id, In t train_personID /\ within_tolerance data t = true
                         /\ py_int (c6 t) = Some id
                         /\ e = Build_dict_entry data (id - 1))
      /\ ((forall t, In t train_personID -> within_tolerance data t = false) ->
          match_one train_personID data = Build_dict_entry data (-1)))
  /\ match_boxes (H := Decimal64.builtins)
       (load scenario1_personID) (load scenario1_without_personID)
     = [Build_dict_entry (Build_csv_row "1" "5" "0.1" "0.1" "0.3" "0.3" "7") 2].
Proof.
  split.
  - intros B train_personID data. split.
    + intros e He. split.
      * unfold match_one. now rewrite He.
      * now apply scan_found.
    + intros Hall. unfold match_one. now rewrite scan_none.
  - vm_compute. reflexivity.
Qed.

Lemma match_one_person_id_witness :
  match_one (H := Decimal64.builtins) (load scenario1_personID)
    (Build_csv_row "1" "5" "0.1" "0.1" "0.3" "0.3" "7")
  = Build_dict_entry (Build_csv_row "1" "5" "0.1" "0.1" "0.3" "0.3" "7") 2.
Proof.
  exact (proj1 (proj1 (proj1 match_one_person_id Decimal64.builtins
                         (load scenario1_personID)
                         (Build_csv_row "1" "5" "0.1" "0.1" "0.3" "0.3" "7"))
                  (Build_dict_entry (Build_csv_row "1" "5" "0.1" "0.1" "0.3" "0.3" "7") 2)
                  eq_refl)).
Defined.

(** *** The file written *)

Lemma keep_long_enough (row : list string) :
  keep row = None <-> long_enough row = false.
Proof.
  unfold long_enough.
  destruct row as [|a [|b [|c [|d [|e [|f [|g rest]]]]]]]; simpl;
    split; intros E; try reflexivity; discriminate.
Qed.

Lemma keep_firstn (row : list string) (r : csv_row) :
  keep row = Some r -> firstn 7 row = [c0 r; c1 r; c2 r; c3 r; c4 r; c5 r; c6 r].
Proof.
  destruct row as [|a [|b [|c [|d [|e [|f [|g rest]]]]]]]; simpl; try discriminate.
  intros [= <-]. reflexivity.
Qed.

Lemma keep_rows_firstn (rows : list (list string)) :
  map (fun r => [c0 r; c1 r; c2 r; c3 r; c4 r; c5 r; c6 r]) (keep_rows rows)
  = map (firstn 7) (filter long_enough rows).
Proof.
  induction rows as [|row rows IH]; [reflexivity|].
  cbn [keep_rows filter].
  destruct (keep row) as [r|] eqn:E.
  - destruct (long_enough row) eqn:L.
    + cbn [map]. now rewrite IH, (keep_firstn row r E).
    + apply keep_long_enough in L. congruence.
  - apply keep_long_enough in E. now rewrite E.
Qed.

Section FileFacts.
Context `{Builtins}.

Lemma keep_to_line (e : dict_entry) : keep (to_line e) = Some (cells e).
Proof. unfold to_line. destruct e as [[a b c d e f g] id]. reflexivity. Qed.

Lemma keep_rows_to_line (l : list dict_entry) :
  keep_rows (map to_line l) = map cells l.
Proof.
  induction l as [|e l IH]; [reflexivity|].
  cbn [map keep_rows]. now rewrite keep_to_line, IH.
Qed.

Lemma match_boxes_cells (train_personID train_without_personID : list csv_row) :
  map cells (match_boxes train_personID train_without_personID)
  = train_without_personID.
Proof.
  rewrite match_boxes_map, List.map_map.
  rewrite (map_ext _ (fun r => r)) by (intros r; apply match_one_cells).
  apply List.map_id.
Qed.

End FileFacts.

(** X1. [train_temp.csv] is [train_without_personID.csv] with one more column:
    under the header line it holds, in the same order, the first seven
    cells of every line of the input that has seven cells, each followed by
    the person id; the first line of the input is dropped whatever it
    holds. Every line written has eight cells, and the file loads back as
    the input does. *)
Theorem train_temp_keeps_rows `{Builtins}
    (personID_csv without_personID_csv : list (list string)) :
  hd_error (train_temp personID_csv without_personID_csv) = Some header
  /\ map (firstn 7) (tl (train_temp personID_csv without_personID_csv))
     = map (firstn 7) (filter long_enough (tl without_personID_csv))
  /\ Forall (fun line => List.length line = 8)
            (train_temp personID_csv without_personID_csv)
  /\ load (train_temp personID_csv without_personID_csv)
     = load without_personID_csv.
Proof.
  unfold train_temp, load. cbn [hd_error tl].
  split; [reflexivity|]. split; [|split].
  - rewrite <- keep_rows_firstn, List.map_map.
    rewrite <- (match_boxes_cells (load personID_csv)
                  (keep_rows (tl without_personID_csv))) at 2.
    unfold load. now rewrite List.map_map.
  - constructor; [reflexivity|].
    apply Forall_forall. intros line Hin.
    apply in_map_iff in Hin as [e [<- _]]. reflexivity.
  - rewrite keep_rows_to_line. apply match_boxes_cells.
Qed.

(** *** Rows that do not parse *)

Section Malformed.
Context `{Builtins}.

Lemma boxes_near_true (data t : csv_row) :
  boxes_near data t = Some true ->
  (exists a, py_float (c2 data) = Some a) /\ (exists a, py_float (c3 data) = Some a)
  /\ (exists a, py_float (c4 data) = Some a) /\ (exists a, py_float (c5 data) = Some a)
  /\ (exists a, py_float (c2 t) = Some a) /\ (exists a, py_float (c3 t) = Some a)
  /\ (exists a, py_float (c4 t) = Some a) /\ (exists a, py_float (c5 t) = Some a).
Proof.
  unfold boxes_near, and_then, near_cells.
  destruct (py_float (c2 data)) as [a2|]; [|discriminate].
  destruct (py_float (c2 t)) as [b2|]; [|discriminate].
  destruct (near a2 b2); [|discriminate].
  destruct (py_float (c3 data)) as [a3|]; [|discriminate].
  destruct (py_float (c3 t)) as [b3|]; [|discriminate].
  destruct (near a3 b3); [|discriminate].
  destruct (py_float (c4 data)) as [a4|]; [|discriminate].
  destruct (py_float (c4 t)) as [b4|]; [|discriminate].
  destruct (near a4 b4); [|discriminate].
  destruct (py_float (c5 data)) as [a5|]; [|discriminate].
  destruct (py_float (c5 t)) as [b5|]; [|discriminate].
  intros _. repeat split; eexists; reflexivity.
Qed.

(** An entry is appended only for two rows that parse. *)
Lemma try_pair_parsed (data t : csv_row) (e : dict_entry) :
  try_pair data t = Some (Some e) ->
  decode data <> None /\ well_formed t = true.
Proof.
  unfold try_pair, well_formed, decode_identified, decode.
  destruct (c0 data =? c0 t)%string; [|discriminate].
  destruct (py_int (c1 data)) as [f|]; [|discriminate].
  destruct (py_int (c1 t)) as [g|]; [|discriminate].
  destruct (f =? g)%Z; [|discriminate].
  destruct (boxes_near data t) as [[|]|] eqn:E; try discriminate.
  destruct (py_int (c6 t)) as [id|]; [|discriminate].
  intros _.
  destruct (boxes_near_true data t E)
    as ([a2 ->] & [a3 ->] & [a4 ->] & [a5 ->] & [b2 ->] & [b3 ->] & [b4 ->] & [b5 ->]).
  split; [discriminate | reflexivity].
Qed.

Lemma scan_well_formed (data : csv_row) (train_personID : list csv_row) :
  scan data train_personID = scan data (filter well_formed train_personID).
Proof.
  induction train_personID as [|t rest IH]; [reflexivity|].
  cbn [scan filter].
  destruct (well_formed t) eqn:W.
  - cbn [scan]. now rewrite IH.
  - destruct (try_pair data t) as [[e|]|] eqn:E; try exact IH.
    apply try_pair_parsed in E as [_ E]. congruence.
Qed.

Lemma scan_unparsed (data : csv_row) (train_personID : list csv_row) :
  decode data = None -> scan data train_personID = None.
Proof.
  intros Hd. induction train_personID as [|t rest IH]; [reflexivity|].
  cbn [scan].
  destruct (try_pair data t) as [[e|]|] eqn:E; try exact IH.
  apply try_pair_parsed in E as [E _]. now elim E.
Qed.

End Malformed.

(** X2. A line of [train_personID.csv] with a cell that is not a number (frame,
    coordinate or person id) is passed over as if it were not in the file:
    the [except] of line 60 goes on with the next line. A line of
    [train_without_personID.csv] with a frame or a coordinate that is not a
    number is written with person id -1, whatever the other file holds. *)
Theorem match_boxes_malformed `{Builtins}
    (train_personID train_without_personID : list csv_row) :
  match_boxes train_personID train_without_personID
  = match_boxes (filter well_formed train_personID) train_without_personID
  /\ forall data, In data train_without_personID -> decode data = None ->
       In (Build_dict_entry data (-1))
          (match_boxes train_personID train_without_personID).
Proof.
  rewrite !match_boxes_map. split.
  - apply map_ext. intros data. unfold match_one.
    now rewrite scan_well_formed.
  - intros data Hin Hd. apply in_map_iff. exists data. split; [|exact Hin].
    unfold match_one. now rewrite scan_unparsed.
Qed.

Lemma match_boxes_malformed_witness :
  match_boxes (H := Decimal64.builtins)
    (load scenario1_damaged) (load scenario1_without_personID)
  = match_boxes (H := Decimal64.builtins)
      (filter (well_formed (H := Decimal64.builtins)) (load scenario1_damaged))
      (load scenario1_without_personID).
Proof.
  exact (proj1 (match_boxes_malformed (H := Decimal64.builtins)
                  (load scenario1_damaged) (load scenario1_without_personID))).
Defined.

(** *** The counters *)

Section CountingFacts.
Context `{Builtins}.

Lemma match_count_spec (train_personID todo : list csv_row) (t : tally) :
  dicts (match_count train_personID todo t)
  = dicts t ++ map (match_one train_personID) todo
  /\ matched_count (match_count train_personID todo t)
     = matched_count t
       + List.length (filter (fun d => match scan d train_personID with
                                       | Some _ => true | None => false end) todo)
  /\ unmatched_count (match_count train_personID todo t)
     = unmatched_count t
       + List.length (filter (fun d => match scan d train_personID with
                                       | Some _ => false | None => true end) todo).
Proof.
  revert t. induction todo as [|data rest IH]; intros t.
  - cbn. rewrite List.app_nil_r. repeat split; lia.
  - cbn [match_count map filter]. unfold match_one at 1.
    destruct (scan data train_personID) as [e|].
    + destruct (IH {| dicts := dicts t ++ [e];
                      matched_count := S (matched_count t);
                      unmatched_count := unmatched_count t |}) as (-> & -> & ->).
      cbn [dicts matched_count unmatched_count List.length].
      rewrite <- List.app_assoc. repeat split; lia.
    + destruct (IH {| dicts := dicts t ++ [Build_dict_entry data (-1)];
                      matched_count := matched_count t;
                      unmatched_count := S (unmatched_count t) |}) as (-> & -> & ->).
      cbn [dicts matched_count unmatched_count List.length].
      rewrite <- List.app_assoc. repeat split; lia.
Qed.

Lemma partition_length {A : Type} (f g : A -> bool) (l : list A) :
  (forall a, g a = negb (f a)) ->
  List.length (filter f l) + List.length (filter g l) = List.length l.
Proof.
  intros Hfg. induction l as [|a l IH]; [reflexivity|].
  cbn [filter]. rewrite (Hfg a). destruct (f a); cbn [negb List.length]; lia.
Qed.

Lemma identified_found (train_personID : list csv_row) (todo : list csv_row) :
  List.length (filter identified (map (match_one train_personID) todo))
  <= List.length (filter (fun d => match scan d train_personID with
                                   | Some _ => true | None => false end) todo).
Proof.
  induction todo as [|data rest IH]; [reflexivity|].
  cbn [map filter]. unfold match_one at 1.
  destruct (scan data train_personID) as [e|]; cbn [List.length].
  - destruct (identified e); cbn [List.length]; lia.
  - exact IH.
Qed.

End CountingFacts.

(** X3. The three numbers printed at the end (lines 70-72): the entries
    counted are those of [dicts], [Matched] and [Unmatched] add up to
    [Total], which is the number of rows loaded from
    [train_without_personID.csv]; and every entry with a person id other
    than -1 was counted as matched (a matched entry may still carry -1, from
    a tracker id 0). *)
Theorem match_count_total `{Builtins}
    (train_personID train_without_personID : list csv_row) :
  let t := match_count train_personID train_without_personID no_tally in
  dicts t = match_boxes train_personID train_without_personID
  /\ matched_count t + unmatched_count t = List.length (dicts t)
  /\ List.length (dicts t) = List.length train_without_personID
  /\ List.length (filter identified (dicts t)) <= matched_count t.
Proof.
  destruct (match_count_spec train_personID train_without_personID no_tally)
    as (Hd & Hm & Hu).
  cbv zeta. rewrite Hd, Hm, Hu. cbn [no_tally dicts matched_count unmatched_count app].
  rewrite <- match_boxes_map.
  split; [reflexivity|]. split; [|split].
  - rewrite match_boxes_length. apply partition_length.
    intros d. now destruct (scan d train_personID).
  - apply match_boxes_length.
  - rewrite match_boxes_map. apply identified_found.
Qed.

End TrainTempFacts.

(** ** train_fixed.py: properties of IdentityPropagator *)
Module TrainFixedFacts.
Import Py TrainFixed.

(** *** The loop as a traversal of the rows still to visit *)

Section Structural.
Context `{Builtins}.

Lemma nth_error_middle (P : list row) (r : row) (R : list row) :
  nth_error (P ++ r :: R) (List.length P) = Some r.
Proof.
  rewrite List.nth_error_app2 by lia. now rewrite Nat.sub_diag.
Qed.

Lemma set_person_id_middle (P : list row) (r : row) (R : list row) (v : string) :
  set_person_id (P ++ r :: R) (List.length P) v = P ++ with_person_id r v :: R.
Proof.
  induction P as [|p P IH]; simpl; [reflexivity|]. now rewrite IH.
Qed.

Lemma extend_length (w : nat) (sd : seed) (v id : string) (rest : list row) :
  List.length (extend w sd v id rest) = List.length rest.
Proof.
  revert rest. induction w as [|w IH]; intros [|next rest]; simpl; try reflexivity.
  destruct (accepts sd v next); simpl; [now rewrite IH | reflexivity].
Qed.

Lemma after_seed_length (v : string) (m : Z) (r : row) (rest : list row) :
  List.length (after_seed v m r rest) = List.length rest.
Proof.
  unfold after_seed. destruct (read_seed r); [apply extend_length | reflexivity].
Qed.

Lemma look_ahead_extend (w k index : nat) (P R : list row)
      (v : string) (m : Z) (sd : seed) :
  List.length P = index + k ->
  look_ahead (seq k w) (P ++ R) v index m sd
  = P ++ extend w sd v (py_str (m + 1)) R.
Proof.
  revert k P R. induction w as [|w IH]; intros k P R HP; simpl.
  - now destruct R.
  - rewrite <- HP. destruct R as [|next R].
    + rewrite List.app_nil_r.
      now rewrite (proj2 (List.nth_error_None P (List.length P)) (le_n _)).
    + rewrite nth_error_middle. unfold accepts.
      destruct (video_name next =? v)%string; simpl; [|reflexivity].
      destruct (person_id next =? "-1")%string; simpl; [|reflexivity].
      destruct (same_track sd next); [|reflexivity].
      rewrite set_person_id_middle.
      change (P ++ with_person_id next (py_str (m + 1)) :: R)
        with (P ++ [with_person_id next (py_str (m + 1))] ++ R).
      rewrite List.app_assoc, (IH (S k)).
      * now rewrite <- List.app_assoc.
      * rewrite List.length_app. simpl. lia.
Qed.

Lemma update_train_temp_middle (P : list row) (r : row) (R : list row)
      (v : string) (m : Z) :
  update_train_temp (P ++ r :: R) v (List.length P) m
  = P ++ with_person_id r (py_str (m + 1)) :: after_seed v m r R.
Proof.
  unfold update_train_temp, after_seed.
  rewrite nth_error_middle, set_person_id_middle.
  destruct (read_seed r) as [sd|]; [|reflexivity].
  change (P ++ with_person_id r (py_str (m + 1)) :: R)
    with (P ++ [with_person_id r (py_str (m + 1))] ++ R).
  rewrite List.app_assoc, (look_ahead_extend 10 1).
  - now rewrite <- List.app_assoc.
  - rewrite List.length_app. simpl. lia.
Qed.

Lemma turn_action (P : list row) (data : row) (rest : list row) (m : Z) (v : string) :
  turn (Build_state (P ++ data :: rest) m v) (List.length P)
  = match action_of (List.length P =? 0)%nat m v data with
    | Skip => (Build_state (P ++ data :: rest) m v, None)
    | Keep m' v' => (Build_state (P ++ data :: rest) m' v', None)
    | Seed m' v' =>
        (Build_state
           (P ++ with_person_id data (py_str (m' + 1)) :: after_seed v' m' data rest)
           (m' + 1) v',
         Some (v', (m' + 1)%Z))
    end.
Proof.
  unfold turn, action_of. simpl train_temp. simpl videoName. simpl maxId.
  rewrite nth_error_middle.
  destruct ((List.length P =? 0)%nat && is_header data); [reflexivity|].
  destruct (negb (v =? video_name data)%string);
    destruct (read_id data) as [cid|]; try reflexivity;
    destruct (person_id data =? "-1")%string; try reflexivity;
    now rewrite update_train_temp_middle.
Qed.

Lemma visit_action (n : nat) (first : bool) (m : Z) (v : string)
      (data : row) (rest : list row) :
  visit (S n) first m v (data :: rest)
  = match action_of first m v data with
    | Skip => push data (visit n false m v rest)
    | Keep m' v' => push data (visit n false m' v' rest)
    | Seed m' v' =>
        let '(out, calls) := visit n false (m' + 1) v' (after_seed v' m' data rest) in
        (with_person_id data (py_str (m' + 1)) :: out, (v', (m' + 1)%Z) :: calls)
    end.
Proof.
  unfold action_of. simpl.
  destruct (first && is_header data); [reflexivity|].
  destruct (negb (v =? video_name data)%string);
    destruct (read_id data) as [cid|]; try reflexivity;
    destruct (person_id data =? "-1")%string; reflexivity.
Qed.

(** The index-based loop from index [length P] on is [visit] on the rows
    from there on. *)
Lemma run_from_visit (n : nat) (P S : list row) (m : Z) (v : string) :
  List.length S = n ->
  train_temp (run_from (Build_state (P ++ S) m v) (seq (List.length P) n))
  = P ++ fst (visit n (List.length P =? 0)%nat m v S)
  /\ seeds_from (Build_state (P ++ S) m v) (seq (List.length P) n)
     = snd (visit n (List.length P =? 0)%nat m v S).
Proof.
  revert P S m v. induction n as [|n IH]; intros P S m v HS.
  - destruct S; [|discriminate]. split; reflexivity.
  - destruct S as [|data rest]; [discriminate|]. injection HS as HS.
    assert (Hnext : forall (d : row) (rest' : list row) (m' : Z) (v' : string),
               List.length rest' = n ->
               train_temp (run_from (Build_state (P ++ d :: rest') m' v')
                             (seq (S (List.length P)) n))
               = P ++ d :: fst (visit n false m' v' rest')
               /\ seeds_from (Build_state (P ++ d :: rest') m' v')
                    (seq (S (List.length P)) n)
                  = snd (visit n false m' v' rest')).
    { intros d rest' m' v' Hr.
      pose proof (IH (P ++ [d]) rest' m' v' Hr) as IH'.
      rewrite List.length_app in IH'. simpl in IH'.
      replace (List.length P + 1) with (S (List.length P)) in IH' by lia.
      rewrite <- !List.app_assoc in IH'. simpl in IH'. exact IH'. }
    rewrite visit_action.
    change (seq (List.length P) (S n))
      with (List.length P :: seq (S (List.length P)) n).
    unfold run_from. simpl fold_left. simpl seeds_from. unfold step.
    rewrite turn_action.
    destruct (action_of (List.length P =? 0)%nat m v data) as [|m' v'|m' v'];
      simpl fst; simpl snd.
    + exact (Hnext data rest m v HS).
    + exact (Hnext data rest m' v' HS).
    + destruct (Hnext (with_person_id data (py_str (m' + 1)))
                      (after_seed v' m' data rest) (m' + 1)%Z v') as [H1 H2].
      { now rewrite after_seed_length. }
      destruct (visit n false (m' + 1) v' (after_seed v' m' data rest))
        as [out calls].
      simpl in *. split; [exact H1 | now rewrite H2].
Qed.

Lemma visit_length (n : nat) (first : bool) (m : Z) (v : string) (rows : list row) :
  List.length (fst (visit n first m v rows)) = List.length rows.
Proof.
  revert first m v rows.
  induction n as [|n IH]; intros first m v [|d rest]; try reflexivity.
  rewrite visit_action.
  destruct (action_of first m v d) as [|m' v'|m' v']; simpl;
    try (now rewrite IH).
  pose proof (IH false (m' + 1)%Z v' (after_seed v' m' d rest)) as IH'.
  destruct (visit n false (m' + 1) v' (after_seed v' m' d rest)).
  simpl in *. now rewrite IH', after_seed_length.
Qed.

Lemma propagate_visit (rows : list row) :
  propagate rows = fst (visit (List.length rows) true (-1) "" rows).
Proof.
  unfold propagate, initial.
  exact (proj1 (run_from_visit (List.length rows) [] rows (-1) "" eq_refl)).
Qed.

Lemma seeds_visit (rows : list row) :
  seeds rows = snd (visit (List.length rows) true (-1) "" rows).
Proof.
  unfold seeds, initial.
  exact (proj2 (run_from_visit (List.length rows) [] rows (-1) "" eq_refl)).
Qed.

End Structural.

(** *** Every row is resolved *)

Section Resolution.
Context `{Builtins}.
Hypothesis int_str : int_str_law.

Lemma py_str_unassigned (n : Z) : py_str n = "-1"%string -> n = (-1)%Z.
Proof.
  intros E. pose proof (int_str n) as Hn. rewrite E in Hn.
  change "-1"%string with (py_str (-1)) in Hn. rewrite int_str in Hn.
  now injection Hn.
Qed.

Lemma resolved_py_str (r : row) (n : Z) :
  (0 <= n)%Z -> resolved (with_person_id r (py_str n)).
Proof.
  intros Hn. split; simpl.
  - intros E. apply py_str_unassigned in E. lia.
  - exists n. split; [exact Hn | apply int_str].
Qed.

Lemma written_py_str (r : row) (n : Z) :
  (-1 <= n)%Z -> written (with_person_id r (py_str n)).
Proof. intros Hn. exists n. split; [exact Hn | reflexivity]. Qed.

Lemma read_id_written (r : row) (n : Z) :
  person_id r = py_str n -> read_id r = Some n.
Proof.
  intros E. unfold read_id.
  destruct (person_id r =? "-1")%string eqn:E1; simpl.
  - apply String.eqb_eq in E1. rewrite E in E1.
    apply py_str_unassigned in E1. now subst.
  - rewrite E. apply int_str.
Qed.

Lemma extend_Forall (Q : row -> Prop) (w : nat) (sd : seed) (v id : string)
      (rest : list row) :
  (forall r, Q r -> Q (with_person_id r id)) ->
  Forall Q rest -> Forall Q (extend w sd v id rest).
Proof.
  intros Hset. revert rest.
  induction w as [|w IH]; intros [|next rest] Hall; simpl; try assumption.
  destruct (accepts sd v next); [|assumption].
  inversion Hall; subst. constructor; auto.
Qed.

Lemma after_seed_written (v : string) (m : Z) (r : row) (rest : list row) :
  (-1 <= m)%Z -> Forall written rest -> Forall written (after_seed v m r rest).
Proof.
  intros Hm Hall. unfold after_seed. destruct (read_seed r); [|assumption].
  apply extend_Forall; [|assumption].
  intros r0 _. apply written_py_str. lia.
Qed.

(** What [action_of] decides on a row whose id was [written]. *)
Lemma action_of_written (m : Z) (v : string) (data : row) :
  (-1 <= m)%Z -> written data ->
  match action_of false m v data with
  | Skip => False
  | Keep m' _ => (-1 <= m')%Z /\ resolved data
  | Seed m' _ => (-1 <= m')%Z
  end.
Proof.
  intros Hm [n [Hn En]]. unfold action_of. simpl.
  rewrite (read_id_written data n En).
  assert (Hmax : forall m0 : Z, (-1 <= m0)%Z ->
                   (-1 <= (if (n >? m0)%Z then n else m0))%Z).
  { intros m0 Hm0. destruct (n >? m0)%Z; lia. }
  assert (Hres : (person_id data =? "-1")%string = false -> resolved data).
  { intros E. apply String.eqb_neq in E. split; [exact E|].
    exists n. split.
    - destruct (Z.eq_dec n (-1)) as [->|Hne]; [now elim E | lia].
    - rewrite En. apply int_str. }
  destruct (negb (v =? video_name data)%string);
    destruct (person_id data =? "-1")%string eqn:E;
    try (apply Hmax; lia);
    (split; [apply Hmax; lia | now apply Hres]).
Qed.

Lemma visit_resolved (n : nat) (m : Z) (v : string) (rows : list row) :
  List.length rows <= n -> (-1 <= m)%Z -> Forall written rows ->
  Forall resolved (fst (visit n false m v rows)).
Proof.
  revert m v rows. induction n as [|n IH]; intros m v rows Hlen Hm Hall.
  - destruct rows; [constructor | simpl in Hlen; lia].
  - destruct rows as [|data rest]; [constructor|].
    inversion Hall as [|? ? Hdata Hrest]; subst.
    simpl in Hlen. rewrite visit_action.
    pose proof (action_of_written m v data Hm Hdata) as Hact.
    destruct (action_of false m v data) as [|m' v'|m' v'].
    + contradiction.
    + destruct Hact as [Hm' Hres]. simpl. constructor; [exact Hres|].
      apply IH; [lia | assumption | assumption].
    + pose proof (IH (m' + 1)%Z v' (after_seed v' m' data rest)) as IH'.
      rewrite after_seed_length in IH'.
      destruct (visit n false (m' + 1) v' (after_seed v' m' data rest))
        as [out calls].
      simpl in *. constructor.
      * apply resolved_py_str. lia.
      * apply IH'; [lia | lia |]. now apply after_seed_written.
Qed.

Lemma visit_first (n : nat) (m : Z) (v : string) (data : row) (rest : list row) :
  is_header data = false ->
  visit (S n) true m v (data :: rest) = visit (S n) false m v (data :: rest).
Proof.
  intros Hh. rewrite !visit_action. unfold action_of. now rewrite Hh.
Qed.

Lemma visit_header (n : nat) (m : Z) (v : string) (h : row) (rest : list row) :
  is_header h = true ->
  visit (S n) true m v (h :: rest) = push h (visit n false m v rest).
Proof.
  intros Hh. rewrite visit_action. unfold action_of. now rewrite Hh.
Qed.

(** C3 (amended). Over the rows under the header row, or over a list whose
    first row is not named like the header, when every person id is the
    string of -1 or of a non-negative integer: after the loop no row of
    them has person id -1, each reads as an integer that is at least 0, and
    no row is added or lost. (The row at index 0 is skipped when its video
    name is the header's, line 72, whatever its person id.) *)
Theorem propagate_attach_resolved (header : option row) (rows : list row) :
  match header with
  | Some h => is_header h = true
  | None => forall r, hd_error rows = Some r -> is_header r = false
  end ->
  Forall written rows ->
  exists out,
    propagate (attach header rows) = attach header out
    /\ List.length out = List.length rows
    /\ Forall resolved out.
Proof.
  intros Hhead Hall. rewrite propagate_visit.
  destruct header as [h|]; unfold attach.
  - change (List.length (h :: rows)) with (S (List.length rows)).
    rewrite (visit_header _ _ _ _ _ Hhead).
    exists (fst (visit (List.length rows) false (-1) "" rows)).
    split; [reflexivity|]. split; [apply visit_length|].
    apply visit_resolved; [lia | lia | assumption].
  - exists (fst (visit (List.length rows) true (-1) "" rows)).
    split; [reflexivity|]. split; [apply visit_length|].
    destruct rows as [|data rest]; [constructor|].
    change (List.length (data :: rest)) with (S (List.length rest)).
    rewrite visit_first by (now apply Hhead).
    apply visit_resolved; [simpl; lia | lia | assumption].
Qed.

End Resolution.

(** *** The look-ahead window *)

Section Window.
Context `{Builtins}.

Lemma extend_chain (w : nat) (sd : seed) (v id : string) (rest : list row) :
  extend w sd v id rest
  = map (fun c => with_person_id c id) (firstn (chain_length w sd v rest) rest)
    ++ skipn (chain_length w sd v rest) rest.
Proof.
  revert rest. induction w as [|w IH]; intros [|next rest]; simpl; try reflexivity.
  destruct (accepts sd v next); simpl; [now rewrite IH | reflexivity].
Qed.

Lemma chain_length_window (w : nat) (sd : seed) (v : string) (rest : list row) :
  chain_length w sd v rest <= w.
Proof.
  revert rest. induction w as [|w IH]; intros [|next rest]; simpl; try lia.
  destruct (accepts sd v next); [|lia]. specialize (IH rest). lia.
Qed.

Lemma chain_accepted (w : nat) (sd : seed) (v : string) (rest : list row) (c : row) :
  In c (firstn (chain_length w sd v rest) rest) -> accepts sd v c = true.
Proof.
  revert rest. induction w as [|w IH]; intros [|next rest]; simpl; try contradiction.
  destruct (accepts sd v next) eqn:E; simpl; [|contradiction].
  intros [<-|Hin]; [exact E | now apply (IH rest)].
Qed.

Lemma chain_stops (w : nat) (sd : seed) (v : string) (rest : list row) (c : row) :
  chain_length w sd v rest < w ->
  nth_error rest (chain_length w sd v rest) = Some c ->
  accepts sd v c = false.
Proof.
  revert rest. induction w as [|w IH]; intros [|next rest]; simpl; try lia.
  - intros _. discriminate.
  - destruct (accepts sd v next) eqn:E; simpl.
    + intros Hlt. apply IH. lia.
    + intros _ [= <-]. exact E.
Qed.

Lemma accepts_iff (sd : seed) (v : string) (c : row) :
  accepts sd v c = true <-> continues sd v c.
Proof.
  unfold accepts, same_track, continues. split.
  - intros Hacc.
    apply andb_prop in Hacc as [Hacc Htrack].
    apply andb_prop in Hacc as [Hv Hp].
    apply String.eqb_eq in Hv. apply String.eqb_eq in Hp.
    split; [exact Hv|]. split; [exact Hp|].
    destruct (py_int (frame_idx c)) as [f|]; [|discriminate].
    destruct (Z.abs (f - current_frame sd) >? 10)%Z eqn:Hgap; [discriminate|].
    destruct (py_float (x1 c)) as [a|]; [|discriminate].
    destruct (py_float (y1 c)) as [b|]; [|discriminate].
    destruct (py_float (x2 c)) as [a'|]; [|discriminate].
    destruct (py_float (y2 c)) as [b'|]; [|discriminate].
    apply andb_prop in Htrack as [Htrack H4].
    apply andb_prop in Htrack as [Htrack H3].
    apply andb_prop in Htrack as [H1 H2].
    exists f, a, b, a', b'.
    rewrite <- !ReferenceFacts.near_within64.
    repeat split; try assumption; try reflexivity.
    rewrite Z.gtb_ltb in Hgap. apply Z.ltb_ge in Hgap. exact Hgap.
  - intros (Hv & Hp & f & a & b & a' & b' & Hf & Hgap & Ha & Hb & Ha' & Hb' & H1 & H2 & H3 & H4).
    rewrite <- ReferenceFacts.near_within64 in H1, H2, H3, H4.
    rewrite Hv, Hp, Hf, Ha, Hb, Ha', Hb', H1, H2, H3, H4, String.eqb_refl.
    simpl. rewrite Z.gtb_ltb.
    now rewrite (proj2 (Z.ltb_ge _ _) Hgap).
Qed.

Lemma update_train_temp_at (tt : list row) (v : string) (index : nat) (m : Z) (r : row) :
  nth_error tt index = Some r ->
  nth_error (update_train_temp tt v index m) index
  = Some (with_person_id r (py_str (m + 1))).
Proof.
  intros E. apply List.nth_error_split in E. destruct E as [P [R [-> <-]]].
  rewrite update_train_temp_middle. apply nth_error_middle.
Qed.

Lemma update_train_temp_unread (tt : list row) (v : string) (index : nat) (m : Z) (r : row) :
  nth_error tt index = Some r -> read_seed r = None ->
  update_train_temp tt v index m = set_person_id tt index (py_str (m + 1)).
Proof.
  intros E Hr. unfold update_train_temp. now rewrite E, Hr.
Qed.

End Window.

(** *** Numbering inside a video *)

Lemma counts_from_seq (ids : list Z) :
  counts_from 0 ids -> ids = map Z.of_nat (seq 0 (List.length ids)).
Proof.
  assert (G : forall (k : nat) (l : list Z),
             counts_from (Z.of_nat k) l -> l = map Z.of_nat (seq k (List.length l))).
  { intros k l. revert k. induction l as [|i l IH]; intros k Hc; [reflexivity|].
    destruct Hc as [-> Hc]. simpl. f_equal. apply IH.
    now replace (Z.of_nat (S k)) with (Z.of_nat k + 1)%Z by lia. }
  apply (G 0).
Qed.

Lemma runs_In (x : string) (names : list string) :
  In x names -> In x (runs names).
Proof.
  induction names as [|a rest IH]; [contradiction|].
  intros Hin. simpl. destruct rest as [|b rest'].
  - destruct Hin as [<-|[]]. now left.
  - destruct (a =? b)%string eqn:E.
    + apply String.eqb_eq in E. subst b. apply IH.
      destruct Hin as [<-|Hin]; [now left | exact Hin].
    + destruct Hin as [<-|Hin]; [now left | right; now apply IH].
Qed.

Lemma runs_tail (a : string) (names : list string) :
  NoDup (runs (a :: names)) -> NoDup (runs names).
Proof.
  simpl. destruct names as [|b rest]; [intros _; constructor|].
  destruct (a =? b)%string; [trivial|].
  intros Hnd. now inversion Hnd.
Qed.

Lemma runs_two (a b : string) (rest : list string) :
  runs (a :: b :: rest)
  = if (a =? b)%string then runs (b :: rest) else a :: runs (b :: rest).
Proof. reflexivity. Qed.

Lemma runs_leading (a : string) (names : list string) :
  NoDup (runs (a :: names)) -> In a names -> hd_error names = Some a.
Proof.
  destruct names as [|b rest]; [contradiction|].
  rewrite runs_two. destruct (a =? b)%string eqn:E.
  - apply String.eqb_eq in E. now subst.
  - intros Hnd Hin. apply NoDup_cons_iff in Hnd as [Hnotin _].
    elim Hnotin. now apply runs_In.
Qed.

Section Numbering.
Context `{Builtins}.
Hypothesis int_str : int_str_law.

Lemma extend_names (w : nat) (sd : seed) (v id : string) (rest : list row) :
  map video_name (extend w sd v id rest) = map video_name rest.
Proof.
  revert rest. induction w as [|w IH]; intros [|next rest]; simpl; try reflexivity.
  destruct (accepts sd v next); simpl; [now rewrite IH | reflexivity].
Qed.

Lemma after_seed_names (v : string) (m : Z) (r : row) (rest : list row) :
  map video_name (after_seed v m r rest) = map video_name rest.
Proof.
  unfold after_seed. destruct (read_seed r); [apply extend_names | reflexivity].
Qed.

Lemma extend_pending (w : nat) (sd : seed) (v : string) (m : Z) (rest : list row) :
  (-1 <= m)%Z ->
  Forall (pending m v) rest ->
  Forall (pending (m + 1) v) (extend w sd v (py_str (m + 1)) rest).
Proof.
  intros Hm.
  assert (Hmono : forall r, pending m v r -> pending (m + 1) v r).
  { intros r [E|[Ev [p [Hp Ep]]]]; [now left|].
    right. split; [exact Ev|]. exists p. split; [lia | exact Ep]. }
  revert rest. induction w as [|w IH]; intros [|next rest] Hall; simpl.
  - constructor.
  - eapply Forall_impl; [exact Hmono | exact Hall].
  - constructor.
  - inversion Hall as [|? ? Hnext Hrest]; subst.
    destruct (accepts sd v next) eqn:E.
    + constructor; [|now apply IH].
      right. simpl. split.
      * unfold accepts in E. apply andb_prop in E as [E _].
        apply andb_prop in E as [E _]. now apply String.eqb_eq in E.
      * exists (m + 1)%Z. split; [lia | reflexivity].
    + constructor; [now apply Hmono|].
      eapply Forall_impl; [exact Hmono | exact Hrest].
Qed.

Lemma after_seed_pending (v : string) (m : Z) (r : row) (rest : list row) :
  (-1 <= m)%Z ->
  Forall (pending m v) rest ->
  Forall (pending (m + 1) v) (after_seed v m r rest).
Proof.
  intros Hm Hall. unfold after_seed. destruct (read_seed r).
  - now apply extend_pending.
  - eapply Forall_impl; [|exact Hall].
    intros r0 [E|[Ev [p [Hp Ep]]]]; [now left|].
    right. split; [exact Ev|]. exists p. split; [lia | exact Ep].
Qed.

(** What the loop does with a pending row. *)
Lemma action_of_pending (m : Z) (v : string) (data : row) :
  (-1 <= m)%Z -> pending m v data ->
  (person_id data = "-1"%string
   /\ action_of false m v data
      = Seed (if (v =? video_name data)%string then m else (-1)%Z) (video_name data))
  \/ (video_name data = v /\ action_of false m v data = Keep m v).
Proof.
  intros Hm [E|[Ev [p [Hp Ep]]]].
  - left. split; [exact E|]. unfold action_of, read_id. rewrite E. simpl.
    destruct (v =? video_name data)%string eqn:Ev; simpl.
    + apply String.eqb_eq in Ev. rewrite <- Ev.
      destruct (-1 >? m)%Z eqn:G; [|reflexivity].
      rewrite Z.gtb_ltb in G. apply Z.ltb_lt in G. lia.
    + reflexivity.
  - right. split; [exact Ev|]. unfold action_of. simpl.
    rewrite <- Ev, String.eqb_refl. simpl.
    rewrite (read_id_written int_str data p Ep).
    assert (Hne : (person_id data =? "-1")%string = false).
    { apply String.eqb_neq. rewrite Ep. intros E.
      apply (py_str_unassigned int_str) in E. lia. }
    rewrite Hne.
    destruct (p >? m)%Z eqn:G; [|reflexivity].
    rewrite Z.gtb_ltb in G. apply Z.ltb_lt in G. lia.
Qed.

Lemma ids_for_absent (u : string) (calls : list (string * Z)) :
  (forall c, In c calls -> fst c <> u) -> ids_for u calls = [].
Proof.
  unfold ids_for. induction calls as [|c calls IH]; intros Hall; [reflexivity|].
  simpl. destruct (fst c =? u)%string eqn:E.
  - apply String.eqb_eq in E. elim (Hall c (or_introl eq_refl) E).
  - apply IH. intros c' Hc'. apply Hall. now right.
Qed.

Lemma fits_tail (m : Z) (a : string) (names : list string) :
  NoDup (runs (a :: names)) -> fits m a names.
Proof.
  intros Hnd. destruct (in_dec string_dec a names) as [Hin|Hnot].
  - right. right. now apply runs_leading.
  - right. now left.
Qed.

Lemma visit_calls (n : nat) (first : bool) (m : Z) (v : string) (rows : list row) :
  List.length rows <= n -> (-1 <= m)%Z ->
  Forall (pending m v) rows ->
  NoDup (runs (map video_name rows)) ->
  fits m v (map video_name rows) ->
  (forall c, In c (snd (visit n first m v rows)) ->
             In (fst c) (map video_name rows))
  /\ (forall u, counts_from (if (u =? v)%string then (m + 1)%Z else 0%Z)
                            (ids_for u (snd (visit n first m v rows)))).
Proof.
  revert first m v rows.
  induction n as [|n IH]; intros first m v rows Hlen Hm Hpend Hnd Hfit.
  - destruct rows; [|simpl in Hlen; lia]. simpl. split; [contradiction | trivial].
  - destruct rows as [|data rest].
    { simpl. split; [contradiction | trivial]. }
    simpl in Hlen. simpl map in *.
    inversion Hpend as [|? ? Hdata Hrest]; subst.
    pose proof (runs_tail _ _ Hnd) as Hnd'.
    rewrite visit_action.
    assert (Hskip : forall m0 v0,
               m0 = m -> v0 = v ->
               (forall c, In c (snd (push data (visit n false m0 v0 rest))) ->
                          In (fst c) (video_name data :: map video_name rest))
               /\ (forall u, counts_from (if (u =? v)%string then (m + 1)%Z else 0%Z)
                               (ids_for u (snd (push data (visit n false m0 v0 rest)))))).
    { intros m0 v0 -> ->. simpl.
      assert (Hfit' : fits m v (map video_name rest)).
      { destruct Hfit as [Hf|[Hf|Hf]].
        - now left.
        - right. left. intros Hin. apply Hf. now right.
        - injection Hf as Hf. rewrite <- Hf. now apply fits_tail. }
      destruct (IH false m v rest) as [IH1 IH2]; try assumption; try lia.
      split; [|exact IH2]. intros c Hc. right. now apply IH1. }
    destruct (first && is_header data) eqn:Hfirst.
    { assert (Hact : action_of first m v data = Skip)
        by (unfold action_of; now rewrite Hfirst).
      rewrite Hact. now apply Hskip. }
    assert (Hact : action_of first m v data = action_of false m v data)
      by (unfold action_of; now rewrite Hfirst).
    rewrite Hact. clear Hact.
    destruct (action_of_pending m v data Hm Hdata) as [[Hid ->]|[Hv ->]].
    + (* a seed *)
      set (m' := if (v =? video_name data)%string then m else (-1)%Z).
      assert (Hm' : (-1 <= m')%Z) by (unfold m'; destruct (v =? _)%string; lia).
      assert (Hpend' : Forall (pending m' (video_name data)) rest).
      { unfold m'. destruct (v =? video_name data)%string eqn:Ev.
        - apply String.eqb_eq in Ev. now rewrite <- Ev.
        - apply String.eqb_neq in Ev.
          apply Forall_forall. intros r Hr.
          pose proof (proj1 (Forall_forall _ _) Hrest r Hr) as [E|[Er [p [Hp Ep]]]].
          + now left.
          + exfalso. destruct Hfit as [Hf|[Hf|Hf]].
            * lia.
            * apply Hf. right. rewrite <- Er. now apply in_map.
            * injection Hf as Hf. now apply Ev. }
      destruct (IH false (m' + 1)%Z (video_name data)
                   (after_seed (video_name data) m' data rest)) as [IH1 IH2].
      * rewrite after_seed_length. lia.
      * lia.
      * now apply after_seed_pending.
      * now rewrite after_seed_names.
      * rewrite after_seed_names. now apply fits_tail.
      * rewrite after_seed_names in IH1.
        destruct (visit n false (m' + 1) (video_name data)
                        (after_seed (video_name data) m' data rest))
          as [out calls].
        simpl snd in *. split.
        -- intros c [<-|Hc]; [now left | right; now apply IH1].
        -- intros u. unfold ids_for. simpl filter.
           destruct (video_name data =? u)%string eqn:Eu.
           ++ apply String.eqb_eq in Eu. subst u. simpl. split.
              ** unfold m'. rewrite (String.eqb_sym v).
                 destruct (video_name data =? v)%string; reflexivity.
              ** specialize (IH2 (video_name data)).
                 rewrite String.eqb_refl in IH2.
                 replace ((if (video_name data =? v)%string
                           then (m + 1)%Z else 0%Z) + 1)%Z
                   with (m' + 1 + 1)%Z; [exact IH2|].
                 unfold m'. rewrite (String.eqb_sym v).
                 destruct (video_name data =? v)%string; reflexivity.
           ++ fold (ids_for u calls). specialize (IH2 u).
              rewrite String.eqb_sym in Eu. rewrite Eu in IH2.
              destruct (u =? v)%string eqn:Euv; [|exact IH2].
              apply String.eqb_eq in Euv. subst u.
              destruct Hfit as [Hf|[Hf|Hf]].
              ** subst m. exact IH2.
              ** rewrite ids_for_absent; [exact I|].
                 intros c Hc E. apply Hf. right. rewrite <- E. now apply IH1.
              ** injection Hf as Hf. rewrite Hf, String.eqb_refl in Eu.
                 discriminate.
    + (* a row that an earlier look-ahead assigned *)
      now apply Hskip.
Qed.

End Numbering.

(** C3, counterexample: every person id of [header_named] is -1, and the
    loop leaves it so. *)
Lemma propagate_header_named :
  Forall written header_named
  /\ propagate (H := Decimal64.builtins) header_named = header_named
  /\ ~ Forall (resolved (H := Decimal64.builtins))
         (propagate (H := Decimal64.builtins) header_named).
Proof.
  split; [|split].
  - repeat constructor. exists (-1)%Z. split; [lia | reflexivity].
  - reflexivity.
  - intros Hall. inversion Hall as [|? ? [Hne _] _]; subst.
    now apply Hne.
Qed.

Lemma propagate_attach_resolved_witness :
  exists out,
    propagate (H := Decimal64.builtins) (attach (Some header_row) scenario3)
    = attach (Some header_row) out
    /\ List.length out = List.length scenario3
    /\ Forall (resolved (H := Decimal64.builtins)) out.
Proof.
  apply (propagate_attach_resolved (H := Decimal64.builtins)
           Decimal64Facts.int_str_law (Some header_row) scenario3).
  - reflexivity.
  - repeat constructor; exists (-1)%Z; (split; [lia | reflexivity]).
Defined.

(** C5 (amended). A call on a seed whose fields parse writes the new id on
    the seed and on the [k] rows that follow it, [k] at most 10, each of
    which continues the seed's track; every other row is left as it was,
    and when [k] is less than 10 the row after the chain, if there is one,
    does not continue the track: another video, an id already set, a frame
    more than 10 away, or a coordinate not less than the tolerance away,
    where two coordinates are less than the tolerance apart when the
    difference of their doubles as binary64 computes it, its sign dropped,
    is below the double nearest to 0.005. In scenario 3 the row at frame 12
    takes the seed's id and the row at frame 25 does not, though it would
    at frame 20. A box that differs breaks the chain and the seed's own box
    one frame later is not reached; [x1] written [0.505] against the seed's
    [0.5] breaks it too. *)
Theorem update_train_temp_window :
  (forall (B : Builtins) (P : list row) (r : row) (R : list row)
          (v : string) (m : Z) (sd : seed),
      read_seed r = Some sd ->
      update_train_temp (P ++ r :: R) v (List.length P) m
      = P ++ with_person_id r (py_str (m + 1))
          :: map (fun c => with_person_id c (py_str (m + 1)))
                 (firstn (chain_length 10 sd v R) R)
          ++ skipn (chain_length 10 sd v R) R
      /\ chain_length 10 sd v R <= 10
      /\ (forall c, In c (firstn (chain_length 10 sd v R) R) -> continues sd v c)
      /\ (chain_length 10 sd v R < 10 ->
          forall c, nth_error R (chain_length 10 sd v R) = Some c ->
                    ~ continues sd v c))
  /\ update_train_temp (H := Decimal64.builtins) scenario3 "1" 0 (-1)
     = [ Build_row "1" "10" "0.1" "0.1" "0.3" "0.3" "7" "0";
         Build_row "1" "12" "0.101" "0.101" "0.301" "0.301" "7" "0";
         Build_row "1" "25" "0.1" "0.1" "0.3" "0.3" "7" "-1" ]
  /\ update_train_temp (H := Decimal64.builtins) scenario3_close "1" 0 (-1)
     = [ Build_row "1" "10" "0.1" "0.1" "0.3" "0.3" "7" "0";
         Build_row "1" "12" "0.101" "0.101" "0.301" "0.301" "7" "0";
         Build_row "1" "20" "0.1" "0.1" "0.3" "0.3" "7" "0" ]
  /\ update_train_temp (H := Decimal64.builtins) broken_chain "1" 0 (-1)
     = [ Build_row "1" "10" "0.1" "0.1" "0.3" "0.3" "7" "0";
         Build_row "1" "11" "0.5" "0.5" "0.7" "0.7" "7" "-1";
         Build_row "1" "12" "0.1" "0.1" "0.3" "0.3" "7" "-1" ]
  /\ update_train_temp (H := Decimal64.builtins) half_hundredth_higher "1" 0 (-1)
     = [ Build_row "1" "10" "0.5" "0.1" "0.7" "0.3" "7" "0";
         Build_row "1" "11" "0.505" "0.1" "0.7" "0.3" "7" "-1" ].
Proof.
  split; [|repeat split; vm_compute; reflexivity].
  intros B P r R v m sd Hsd. split; [|split; [|split]].
  - rewrite update_train_temp_middle. unfold after_seed. rewrite Hsd.
    now rewrite extend_chain.
  - apply chain_length_window.
  - intros c Hin. apply accepts_iff. eapply chain_accepted; eassumption.
  - intros Hlt c Hc Hcont. apply accepts_iff in Hcont.
    now rewrite (chain_stops 10 sd v R c Hlt Hc) in Hcont.
Qed.

(** C5, counterexample: the candidate writes [x1 = 0.105] and the seed
    [x1 = 0.1], exactly 0.005 apart and so not less than 0.005, the other
    cells being equal; the look-ahead gives the candidate the seed's id all
    the same, the computed difference of the two doubles being
    [5764607523034224 * 2^-60], below the double of [0.005],
    [5764607523034235 * 2^-60]. *)
Lemma update_train_temp_half_hundredth :
  Reference.decimal "0.1" = Some (QArith_base.Qmake 1 10)
  /\ Reference.decimal "0.105" = Some (QArith_base.Qmake 105 1000)
  /\ QArith_base.Qeq
       (QArith_base.Qminus (QArith_base.Qmake 105 1000) (QArith_base.Qmake 1 10))
       (QArith_base.Qmake 5 1000)
  /\ Reference.within (QArith_base.Qmake 1 10) (QArith_base.Qmake 105 1000) = false
  /\ update_train_temp (H := Decimal64.builtins) half_hundredth "1" 0 (-1)
     = [ Build_row "1" "10" "0.1" "0.1" "0.3" "0.3" "7" "0";
         Build_row "1" "11" "0.105" "0.1" "0.3" "0.3" "7" "0" ]
  /\ read_seed (H := Decimal64.builtins)
       (Build_row "1" "10" "0.1" "0.1" "0.3" "0.3" "7" "-1")
     = Some (Build_seed 0.1 0.1 0.3 0.3 10)
  /\ Decimal64.float_of_string "0.105" = Some 0.105%float
  /\ Prim2SF (abs (0.1 - 0.105))
     = S754_finite false 5764607523034224 (-60).
Proof. repeat split; vm_compute; reflexivity. Qed.

Lemma update_train_temp_window_witness :
  update_train_temp (H := Decimal64.builtins)
    ([header_row] ++ Build_row "1" "10" "0.1" "0.1" "0.3" "0.3" "7" "-1"
                  :: tl scenario3) "1" 1 (-1)
  = [ header_row;
      Build_row "1" "10" "0.1" "0.1" "0.3" "0.3" "7" "0";
      Build_row "1" "12" "0.101" "0.101" "0.301" "0.301" "7" "0";
      Build_row "1" "25" "0.1" "0.1" "0.3" "0.3" "7" "-1" ].
Proof.
  exact (proj1 (proj1 update_train_temp_window Decimal64.builtins
                  [header_row]
                  (Build_row "1" "10" "0.1" "0.1" "0.3" "0.3" "7" "-1")
                  (tl scenario3) "1"%string (-1)%Z
                  (Build_seed 0.1 0.1 0.3 0.3 10) eq_refl)).
Defined.

(** C10. [update_train_temp] writes [maxId + 1] on the seed before it
    reads the seed's coordinates and frame: the seed carries the new id
    whether or not they parse, and when they do not, nothing else changes.
    In the main loop the id written on a seed is never negative. *)
Theorem seed_written_before_read :
  (forall (B : Builtins) (tt : list row) (v : string) (index : nat) (m : Z) (r : row),
      nth_error tt index = Some r ->
      nth_error (update_train_temp tt v index m) index
      = Some (with_person_id r (py_str (m + 1)))
      /\ (read_seed r = None ->
          update_train_temp tt v index m = set_person_id tt index (py_str (m + 1))))
  /\ (forall (B : Builtins) (st : state) (index : nat) (data : row),
      nth_error (train_temp st) index = Some data ->
      person_id data = "-1"%string ->
      (index =? 0)%nat && is_header data = false ->
      (-1 <= maxId st)%Z ->
      exists k : Z,
        (0 <= k)%Z
        /\ nth_error (train_temp (step st index)) index
           = Some (with_person_id data (py_str k))
        /\ (read_seed data = None ->
            train_temp (step st index)
            = set_person_id (train_temp st) index (py_str k)))
  /\ propagate (H := Decimal64.builtins) unreadable_seed
     = [ Build_row "1" "10" "n/a" "0.1" "0.3" "0.3" "7" "0";
         Build_row "1" "11" "0.1" "0.1" "0.3" "0.3" "7" "1" ].
Proof.
  split; [|split; [|vm_compute; reflexivity]].
  - intros B tt v index m r Hr. split.
    + now apply update_train_temp_at.
    + now apply update_train_temp_unread.
  - intros B st index data Hdata Hid Hhead Hmax.
    unfold step, turn. rewrite Hdata, Hhead. unfold read_id. rewrite Hid.
    change (negb ("-1" =? "-1")%string) with false. cbv iota.
    change ("-1" =? "-1")%string with true. cbv iota.
    destruct (negb (videoName st =? video_name data)%string); simpl.
    + exists 0%Z. split; [lia|]. split.
      * now apply (update_train_temp_at _ _ _ (-1)%Z).
      * now apply (update_train_temp_unread _ _ _ (-1)%Z).
    + replace (if (-1 >? maxId st)%Z then (-1)%Z else maxId st) with (maxId st)
        by (destruct (-1 >? maxId st)%Z eqn:E; [rewrite Z.gtb_ltb in E;
            apply Z.ltb_lt in E; lia | reflexivity]).
      exists (maxId st + 1)%Z. split; [lia|]. split.
      * now apply update_train_temp_at.
      * now apply update_train_temp_unread.
Qed.

Lemma seed_written_before_read_witness :
  update_train_temp (H := Decimal64.builtins) unreadable_seed "1" 0 (-1)
  = set_person_id unreadable_seed 0 (py_str (-1 + 1)).
Proof.
  exact (proj2 (proj1 seed_written_before_read Decimal64.builtins
                  unreadable_seed "1"%string 0 (-1)%Z
                  (Build_row "1" "10" "n/a" "0.1" "0.3" "0.3" "7" "-1") eq_refl)
               eq_refl).
Defined.

(** C6. The loop takes any list, sorted or not: it checks no order and
    leaves as many rows as it was given. On [unsorted] it gives the box at
    frame 2 the id 0; on the same rows sorted, as the script sorts them, it
    gives that box the id 1. *)
Theorem propagate_unsorted :
  (forall (B : Builtins) (rows : list row),
      List.length (propagate rows) = List.length rows)
  /\ sort_rows (H := Decimal64.builtins) unsorted = Some unsorted_sorted
  /\ unsorted <> unsorted_sorted
  /\ Permutation unsorted unsorted_sorted
  /\ propagate (H := Decimal64.builtins) unsorted
     = [ Build_row "1" "2" "0.1" "0.1" "0.3" "0.3" "7" "0";
         Build_row "1" "1" "0.5" "0.5" "0.7" "0.7" "7" "1" ]
  /\ propagate (H := Decimal64.builtins) unsorted_sorted
     = [ Build_row "1" "1" "0.5" "0.5" "0.7" "0.7" "7" "0";
         Build_row "1" "2" "0.1" "0.1" "0.3" "0.3" "7" "1" ]
  /\ ~ Permutation (propagate (H := Decimal64.builtins) unsorted)
                   (propagate (H := Decimal64.builtins) unsorted_sorted).
Proof.
  split; [|split; [|split; [|split; [|split; [|split]]]]].
  - intros B rows. rewrite propagate_visit. apply visit_length.
  - vm_compute. reflexivity.
  - discriminate.
  - apply perm_swap.
  - vm_compute. reflexivity.
  - vm_compute. reflexivity.
  - intros Hperm.
    assert (Hin : In (Build_row "1" "2" "0.1" "0.1" "0.3" "0.3" "7" "0")
                     (propagate (H := Decimal64.builtins) unsorted_sorted)).
    { apply (Permutation_in _ Hperm). vm_compute. left. reflexivity. }
    vm_compute in Hin. destruct Hin as [E|[E|[]]]; discriminate.
Qed.

(** *** The sort leaves each video in one run *)
Lemma compare_lt_trans (a b c : string) :
  String.compare a b = Lt -> String.compare b c = Lt -> String.compare a c = Lt.
Proof.
  intros H1 H2. apply String_as_OT.cmp_lt. apply String_as_OT.cmp_lt in H1, H2.
  eapply String_as_OT.lt_trans; eassumption.
Qed.

Lemma name_le_refl (a : string) : name_le a a.
Proof.
  unfold name_le.
  assert (E : String.compare a a = Eq) by (now apply String_as_OT.cmp_eq).
  congruence.
Qed.

Lemma name_le_antisym (a b : string) : name_le a b -> name_le b a -> a = b.
Proof.
  unfold name_le. intros H1 H2. rewrite String.compare_antisym in H2.
  destruct (String.compare a b) eqn:E; simpl in H2; try congruence.
  now apply String.compare_eq_iff.
Qed.

Lemma runs_incl (x : string) (names : list string) : In x (runs names) -> In x names.
Proof.
  induction names as [|a rest IH]; [contradiction|].
  destruct rest as [|b rest'].
  - simpl. tauto.
  - rewrite runs_two. destruct (a =? b)%string.
    + intros Hin. right. now apply IH.
    + intros [<-|Hin]; [now left | right; now apply IH].
Qed.

Lemma sorted_runs (names : list string) :
  StronglySorted name_le names -> NoDup (runs names).
Proof.
  induction 1 as [|a rest Hs IH Hall]; [constructor|].
  destruct rest as [|b rest'].
  - simpl. repeat constructor. intros [].
  - rewrite runs_two. destruct (a =? b)%string eqn:E; [exact IH|].
    constructor; [|exact IH].
    intros Hin. apply runs_incl in Hin.
    apply String.eqb_neq in E. apply E.
    inversion Hall as [|? ? Hab _]; subst.
    apply name_le_antisym; [exact Hab|].
    inversion Hs as [|? ? _ Hb]; subst.
    destruct Hin as [->|Hin]; [apply name_le_refl|].
    exact (proj1 (Forall_forall _ _) Hb a Hin).
Qed.

Lemma key_le_names (k1 k2 : string * Z) :
  key_le k1 k2 = true -> name_le (fst k1) (fst k2).
Proof.
  unfold key_le, name_le. destruct (String.compare (fst k1) (fst k2)); congruence.
Qed.

Lemma key_le_total (k1 k2 : string * Z) :
  key_le k1 k2 = false -> key_le k2 k1 = true.
Proof.
  unfold key_le. rewrite (String.compare_antisym (fst k2) (fst k1)).
  destruct (String.compare (fst k1) (fst k2)); simpl; try congruence.
  intros E. apply Z.leb_gt in E. apply Z.leb_le. lia.
Qed.

Lemma key_le_trans (k1 k2 k3 : string * Z) :
  key_le k1 k2 = true -> key_le k2 k3 = true -> key_le k1 k3 = true.
Proof.
  unfold key_le.
  destruct (String.compare (fst k1) (fst k2)) eqn:E1; try discriminate.
  - apply String.compare_eq_iff in E1. rewrite E1.
    destruct (String.compare (fst k2) (fst k3)); try discriminate; try reflexivity.
    intros H1 H2. apply Z.leb_le in H1, H2. apply Z.leb_le. lia.
  - intros _.
    destruct (String.compare (fst k2) (fst k3)) eqn:E2; try discriminate.
    + apply String.compare_eq_iff in E2. rewrite <- E2, E1. reflexivity.
    + now rewrite (compare_lt_trans _ _ _ E1 E2).
Qed.

Lemma insert_In (x z : string * Z * row) (l : list (string * Z * row)) :
  In z (insert x l) -> z = x \/ In z l.
Proof.
  induction l as [|y rest IH]; simpl.
  - intros [<-|[]]. now left.
  - destruct (key_le (fst x) (fst y)); simpl.
    + intros [<-|Hin]; [now left | now right].
    + intros [<-|Hin]; [right; now left|].
      destruct (IH Hin) as [->|Hin']; [now left | right; now right].
Qed.

Lemma insert_sorted (x : string * Z * row) (l : list (string * Z * row)) :
  StronglySorted keyed_le l -> StronglySorted keyed_le (insert x l).
Proof.
  induction 1 as [|y rest Hs IH Hall]; simpl.
  - repeat constructor.
  - destruct (key_le (fst x) (fst y)) eqn:E.
    + constructor; [now constructor|].
      constructor; [exact E|].
      eapply Forall_impl; [|exact Hall].
      intros z Hz. unfold keyed_le in *. eapply key_le_trans; eassumption.
    + constructor; [exact IH|].
      apply Forall_forall. intros z Hz.
      destruct (insert_In _ _ _ Hz) as [->|Hin].
      * now apply key_le_total.
      * exact (proj1 (Forall_forall _ _) Hall z Hin).
Qed.

Lemma stable_sort_sorted (l : list (string * Z * row)) :
  StronglySorted keyed_le (stable_sort l).
Proof.
  induction l as [|x l IH]; simpl; [constructor | now apply insert_sorted].
Qed.

Lemma stable_sort_In (z : string * Z * row) (l : list (string * Z * row)) :
  In z (stable_sort l) -> In z l.
Proof.
  induction l as [|x l IH]; simpl; [trivial|].
  intros Hin. destruct (insert_In _ _ _ Hin) as [->|Hin']; [now left|].
  right. now apply IH.
Qed.

Lemma StronglySorted_map {A B : Type} (R : A -> A -> Prop) (R' : B -> B -> Prop)
      (f : A -> B) (l : list A) :
  (forall a b, R a b -> R' (f a) (f b)) ->
  StronglySorted R l -> StronglySorted R' (map f l).
Proof.
  intros Hf. induction 1 as [|a l Hs IH Hall]; simpl; constructor; [exact IH|].
  apply Forall_forall. intros b Hb. apply in_map_iff in Hb as [a' [<- Ha']].
  apply Hf. exact (proj1 (Forall_forall _ _) Hall a' Ha').
Qed.

Section Sorted.
Context `{Builtins}.

Lemma keyed_rows (rows : list row) (ks : list (string * Z * row)) :
  keyed rows = Some ks ->
  map snd ks = rows
  /\ Forall (fun x => fst (fst x) = video_name (snd x)) ks.
Proof.
  revert ks. induction rows as [|r rows IH]; intros ks; simpl.
  - intros [= <-]. split; constructor.
  - unfold sort_key. destruct (py_int (frame_idx r)) as [f|]; [|discriminate].
    destruct (keyed rows) as [ks'|]; [|discriminate].
    intros [= <-]. destruct (IH ks' eq_refl) as [Hm Hf].
    split; simpl; [now rewrite Hm | constructor; [reflexivity | exact Hf]].
Qed.

Lemma split_header_spec (rows : list row) (h0 : option row) (acc : list row)
      (h : option row) (data : list row) :
  split_header rows h0 acc = (h, data) ->
  (forall r, h = Some r -> h0 = Some r \/ is_header r = true)
  /\ (forall r, In r data -> In r acc \/ (In r rows /\ is_header r = false)).
Proof.
  revert h0 acc. induction rows as [|x rows IH]; intros h0 acc; simpl.
  - intros [= <- <-]. split; auto.
  - destruct (is_header x) eqn:E; intros Hs; destruct (IH _ _ Hs) as [H1 H2]; split.
    + intros r Hr. destruct (H1 r Hr) as [[= <-]|Hh]; auto.
    + intros r Hr. destruct (H2 r Hr) as [Hin|[Hin Hh]]; auto.
    + exact H1.
    + intros r Hr. destruct (H2 r Hr) as [Hin|[Hin Hh]]; auto.
      apply in_app_or in Hin as [Hin|[<-|[]]]; auto.
Qed.

(** What the sort leaves: the header row, if any, then the other rows
    with each video in one run. *)
Lemma sort_rows_shape (rows sorted : list row) :
  sort_rows rows = Some sorted ->
  exists header data,
    sorted = attach header data
    /\ (forall h, header = Some h -> is_header h = true)
    /\ NoDup (runs (map video_name data))
    /\ (forall r, In r data -> In r rows /\ is_header r = false).
Proof.
  unfold sort_rows.
  destruct (split_header rows None []) as [header data] eqn:Es.
  destruct (keyed data) as [ks|] eqn:Ek; [|discriminate].
  intros [= <-]. exists header, (map snd (stable_sort ks)).
  destruct (split_header_spec _ _ _ _ _ Es) as [Hh Hd].
  destruct (keyed_rows _ _ Ek) as [Hm Hf].
  split; [reflexivity|]. split; [|split].
  - intros h Eh. destruct (Hh h Eh) as [E|E]; [discriminate | exact E].
  - apply sorted_runs. rewrite List.map_map.
    rewrite (map_ext_in _ (fun x => fst (fst x))).
    + apply (StronglySorted_map keyed_le); [|apply stable_sort_sorted].
      intros a b Hab. now apply key_le_names.
    + intros x Hx. apply stable_sort_In in Hx.
      symmetry. exact (proj1 (Forall_forall _ _) Hf x Hx).
  - intros r Hr. apply in_map_iff in Hr as [x [<- Hx]].
    apply stable_sort_In in Hx.
    assert (Hin : In (snd x) data) by (rewrite <- Hm; now apply in_map).
    destruct (Hd _ Hin) as [[]|Hok]. exact Hok.
Qed.

End Sorted.

(** C4. In a table where every row under the header is unassigned and
    each video is one run of rows, as it is after the sort, the ids given
    to the seeds of any one video are 0, 1, 2, ... in the order the seeds
    are met, whatever the other videos hold; and a seed whose video is not
    the current [videoName] is given 0, the loop having reset [maxId] to
    -1. *)
Theorem seeds_count_from_zero :
  (forall (B : Builtins), int_str_law ->
   forall (header : option row) (rows : list row),
     (forall h, header = Some h -> is_header h = true) ->
     Forall (fun r => person_id r = "-1"%string) rows ->
     NoDup (runs (map video_name rows)) ->
     forall u : string,
       ids_for u (seeds (attach header rows))
       = map Z.of_nat
           (seq 0 (List.length (ids_for u (seeds (attach header rows))))))
  /\ (forall (B : Builtins), int_str_law ->
      forall rows sorted : list row,
        sort_rows rows = Some sorted ->
        (forall r, In r rows -> is_header r = false -> person_id r = "-1"%string) ->
        forall u : string,
          ids_for u (seeds sorted)
          = map Z.of_nat (seq 0 (List.length (ids_for u (seeds sorted)))))
  /\ (forall (B : Builtins) (st : state) (index : nat) (data : row),
       nth_error (train_temp st) index = Some data ->
       (index =? 0)%nat && is_header data = false ->
       videoName st <> video_name data ->
       person_id data = "-1"%string ->
       turn st index
       = (Build_state
            (update_train_temp (train_temp st) (video_name data) index (-1))
            0 (video_name data),
          Some (video_name data, 0%Z)))
  /\ seeds (H := Decimal64.builtins) (header_row :: two_videos)
     = [("1"%string, 0%Z); ("1"%string, 1%Z); ("2"%string, 0%Z)]
  /\ map person_id (propagate (H := Decimal64.builtins) (header_row :: two_videos))
     = ["person_id"; "0"; "0"; "1"; "0"]%string.
Proof.
  assert (Hmain : forall (B : Builtins), int_str_law ->
            forall (header : option row) (rows : list row),
              (forall h, header = Some h -> is_header h = true) ->
              Forall (fun r => person_id r = "-1"%string) rows ->
              NoDup (runs (map video_name rows)) ->
              forall u : string,
                ids_for u (seeds (attach header rows))
                = map Z.of_nat
                    (seq 0 (List.length (ids_for u (seeds (attach header rows)))))).
  { intros B law header rows Hhead Hall Hnd u. apply counts_from_seq.
    rewrite seeds_visit.
    assert (Hpend : Forall (pending (-1) "") rows).
    { eapply Forall_impl; [|exact Hall]. intros r E. now left. }
    destruct header as [h|]; unfold attach.
    - change (List.length (h :: rows)) with (S (List.length rows)).
      rewrite (visit_header _ _ _ _ _ (Hhead h eq_refl)). simpl snd.
      destruct (visit_calls law (List.length rows) false (-1) "" rows)
        as [_ Hc]; try assumption; try lia; [now left|].
      specialize (Hc u). now destruct (u =? "")%string.
    - destruct (visit_calls law (List.length rows) true (-1) "" rows)
        as [_ Hc]; try assumption; try lia; [now left|].
      specialize (Hc u). now destruct (u =? "")%string. }
  split; [exact Hmain|]. split; [|split].
  - intros B law rows sorted Hsort Hall u.
    destruct (sort_rows_shape rows sorted Hsort)
      as (header & data & -> & Hhead & Hnd & Hdata).
    apply Hmain; try assumption.
    apply Forall_forall. intros r Hr.
    destruct (Hdata r Hr) as [Hin Hh]. now apply Hall.
  - intros B st index data Hdata Hhead Hv Hid.
    unfold turn. rewrite Hdata, Hhead.
    apply String.eqb_neq in Hv. rewrite Hv. simpl negb. cbv iota.
    unfold read_id. rewrite Hid. reflexivity.
  - split; vm_compute; reflexivity.
Qed.

Lemma seeds_count_from_zero_witness :
  ids_for "1" (seeds (H := Decimal64.builtins) (attach (Some header_row) two_videos))
  = map Z.of_nat
      (seq 0 (List.length
                (ids_for "1" (seeds (H := Decimal64.builtins)
                                (attach (Some header_row) two_videos))))).
Proof.
  apply (proj1 seeds_count_from_zero Decimal64.builtins Decimal64Facts.int_str_law
           (Some header_row) two_videos).
  - intros h [= <-]. reflexivity.
  - repeat constructor.
  - simpl. repeat constructor; simpl; intuition discriminate.
Defined.

(** *** The sort: what it keeps, and in what order *)

Lemma insert_perm (x : string * Z * row) (l : list (string * Z * row)) :
  Permutation (insert x l) (x :: l).
Proof.
  induction l as [|y rest IH]; simpl; [reflexivity|].
  destruct (key_le (fst x) (fst y)); [reflexivity|].
  rewrite IH. apply perm_swap.
Qed.

Lemma stable_sort_perm (l : list (string * Z * row)) : Permutation (stable_sort l) l.
Proof.
  induction l as [|x l IH]; simpl; [reflexivity|].
  rewrite insert_perm. now constructor.
Qed.

Lemma key_le_refl (k : string * Z) : key_le k k = true.
Proof.
  unfold key_le.
  assert (E : String.compare (fst k) (fst k) = Eq) by (now apply String_as_OT.cmp_eq).
  rewrite E. apply Z.leb_refl.
Qed.

Lemma key_is_eq (k : string * Z) (x : string * Z * row) :
  key_is k x = true -> fst x = k.
Proof.
  unfold key_is. intros E. apply andb_prop in E as [E1 E2].
  apply String.eqb_eq in E1. apply Z.eqb_eq in E2.
  destruct x as [[a b] r], k as [a' b']. simpl in *. congruence.
Qed.

(** The sort is stable: it does not reorder rows of one key. *)
Lemma insert_stable (k : string * Z) (x : string * Z * row)
      (l : list (string * Z * row)) :
  filter (key_is k) (insert x l) = filter (key_is k) (x :: l).
Proof.
  induction l as [|y rest IH]; [reflexivity|].
  cbn [insert]. destruct (key_le (fst x) (fst y)) eqn:E; [reflexivity|].
  cbn [filter] in *. rewrite IH.
  destruct (key_is k x) eqn:Ex, (key_is k y) eqn:Ey; try reflexivity.
  apply key_is_eq in Ex, Ey. rewrite Ex, Ey, key_le_refl in E. discriminate.
Qed.

Lemma stable_sort_stable (k : string * Z) (l : list (string * Z * row)) :
  filter (key_is k) (stable_sort l) = filter (key_is k) l.
Proof.
  induction l as [|x l IH]; [reflexivity|].
  cbn [stable_sort fold_right]. fold (stable_sort l).
  rewrite insert_stable. cbn [filter]. now rewrite IH.
Qed.

(** A sorted list is left as it is. *)
Lemma stable_sort_sorted_id (l : list (string * Z * row)) :
  StronglySorted keyed_le l -> stable_sort l = l.
Proof.
  induction 1 as [|x l Hs IH Hall]; [reflexivity|].
  cbn [stable_sort fold_right]. fold (stable_sort l). rewrite IH.
  destruct l as [|y rest]; [reflexivity|].
  cbn [insert]. inversion Hall as [|? ? Hxy _]; subst.
  unfold keyed_le in Hxy. now rewrite Hxy.
Qed.

Lemma find_last {A : Type} (f : A -> bool) (l : list A) (x : A) :
  find f (l ++ [x])
  = match find f l with
    | Some y => Some y
    | None => if f x then Some x else None
    end.
Proof.
  induction l as [|a l IH]; [reflexivity|].
  cbn [app find]. destruct (f a); [reflexivity | exact IH].
Qed.

Lemma filter_all {A : Type} (f : A -> bool) (l : list A) :
  Forall (fun a => f a = true) l -> filter f l = l.
Proof.
  induction 1 as [|a l Ha _ IH]; [reflexivity|].
  cbn [filter]. now rewrite Ha, IH.
Qed.

Lemma find_absent {A : Type} (f : A -> bool) (l : list A) :
  Forall (fun a => f a = false) l -> find f l = None.
Proof.
  induction 1 as [|a l Ha _ IH]; [reflexivity|].
  cbn [find]. now rewrite Ha.
Qed.

Section SortFacts.
Context `{Builtins}.

Lemma keyed_spec (rows : list row) (ks : list (string * Z * row)) :
  keyed rows = Some ks ->
  map snd ks = rows /\ Forall (fun x => sort_key (snd x) = Some (fst x)) ks.
Proof.
  revert ks. induction rows as [|r rows IH]; intros ks; simpl.
  - intros [= <-]. split; constructor.
  - destruct (sort_key r) as [k|] eqn:Ek; [|discriminate].
    destruct (keyed rows) as [ks'|]; [|discriminate].
    intros [= <-]. destruct (IH ks' eq_refl) as [Hm Hf].
    split; simpl; [now rewrite Hm | constructor; [exact Ek | exact Hf]].
Qed.

Lemma keyed_map (l : list (string * Z * row)) :
  Forall (fun x => sort_key (snd x) = Some (fst x)) l -> keyed (map snd l) = Some l.
Proof.
  induction 1 as [|x l Hx _ IH]; [reflexivity|].
  cbn [map keyed]. rewrite Hx, IH. now destruct x.
Qed.

Lemma keyed_none (rows : list row) :
  keyed rows = None <-> exists r, In r rows /\ py_int (frame_idx r) = None.
Proof.
  induction rows as [|r rows IH]; simpl.
  - split; [discriminate | intros [r [[] _]]].
  - unfold sort_key at 1. destruct (py_int (frame_idx r)) as [f|] eqn:Ef.
    + destruct (keyed rows) as [ks|].
      * split; [discriminate|]. intros [r' [[<-|Hin] Hr']]; [congruence|].
        assert (E : Some ks = None) by (apply IH; now exists r').
        discriminate.
      * split; [|reflexivity]. intros _.
        destruct (proj1 IH eq_refl) as [r' [Hin Hr']]. exists r'. auto.
    + split; [|reflexivity]. intros _. exists r. auto.
Qed.

Lemma split_header_fold (rows : list row) (h0 : option row) (acc : list row) :
  split_header rows h0 acc
  = (fold_left (fun h r => if is_header r then Some r else h) rows h0,
     acc ++ filter data_row rows).
Proof.
  revert h0 acc. induction rows as [|r rows IH]; intros h0 acc.
  - simpl. now rewrite List.app_nil_r.
  - cbn [split_header fold_left filter]. unfold data_row at 1.
    destruct (is_header r); rewrite IH; cbn [negb]; [reflexivity|].
    now rewrite <- List.app_assoc.
Qed.

Lemma last_header (rows : list row) (h0 : option row) :
  fold_left (fun h r => if is_header r then Some r else h) rows h0
  = match find is_header (rev rows) with
    | Some h => Some h
    | None => h0
    end.
Proof.
  revert h0. induction rows as [|r rows IH]; intros h0; [reflexivity|].
  cbn [fold_left rev]. rewrite IH, find_last.
  destruct (find is_header (rev rows)); [reflexivity|].
  now destruct (is_header r).
Qed.

(** Lines 10-19 in one expression: the last row named like the header
    goes first, the other rows named so are dropped. *)
Lemma sort_rows_spec (rows : list row) :
  sort_rows rows
  = (ks <- keyed (filter data_row rows) ;;
     Some (attach (find is_header (rev rows)) (map snd (stable_sort ks)))).
Proof.
  unfold sort_rows. rewrite split_header_fold, last_header. cbn [app].
  destruct (keyed (filter data_row rows)); [|reflexivity].
  now destruct (find is_header (rev rows)).
Qed.

Lemma has_key_keyed (k : string * Z) (l : list (string * Z * row)) :
  Forall (fun x => sort_key (snd x) = Some (fst x)) l ->
  filter (has_key k) (map snd l) = map snd (filter (key_is k) l).
Proof.
  induction 1 as [|x l Hx _ IH]; [reflexivity|].
  cbn [map filter]. unfold has_key at 1. rewrite Hx. fold (key_is k x).
  destruct (key_is k x); cbn [map]; now rewrite IH.
Qed.

Lemma stable_sort_keys (l : list (string * Z * row)) :
  Forall (fun x => sort_key (snd x) = Some (fst x)) l ->
  Forall (fun x => sort_key (snd x) = Some (fst x)) (stable_sort l).
Proof.
  intros Hl. apply Forall_forall. intros x Hx. apply stable_sort_In in Hx.
  exact (proj1 (Forall_forall _ _) Hl x Hx).
Qed.

Lemma keyed_sorted_rows (l : list (string * Z * row)) :
  Forall (fun x => sort_key (snd x) = Some (fst x)) l ->
  StronglySorted keyed_le l -> StronglySorted row_le (map snd l).
Proof.
  intros Hk Hs. induction Hs as [|x l Hs IH Hall]; [constructor|].
  inversion Hk as [|? ? Hx Hk']; subst.
  cbn [map]. constructor; [now apply IH|].
  apply Forall_forall. intros r Hr. apply in_map_iff in Hr as [y [<- Hy]].
  exists (fst x), (fst y). split; [exact Hx|]. split.
  - exact (proj1 (Forall_forall _ _) Hk' y Hy).
  - exact (proj1 (Forall_forall _ _) Hall y Hy).
Qed.

Lemma sorted_rows_keyed (l : list (string * Z * row)) :
  Forall (fun x => sort_key (snd x) = Some (fst x)) l ->
  StronglySorted row_le (map snd l) -> StronglySorted keyed_le l.
Proof.
  induction l as [|x l IH]; intros Hk Hs; [constructor|].
  inversion Hk as [|? ? Hx Hk']; subst.
  cbn [map] in Hs. apply StronglySorted_inv in Hs as [Hs Hall].
  constructor; [now apply IH|].
  apply Forall_forall. intros y Hy.
  assert (Hin : In (snd y) (map snd l)) by (now apply in_map).
  destruct (proj1 (Forall_forall _ _) Hall _ Hin) as (ka & kb & Ea & Eb & Hle).
  pose proof (proj1 (Forall_forall _ _) Hk' y Hy) as Ey. cbv beta in Ey.
  unfold keyed_le. congruence.
Qed.

(** A table already in the shape the sort gives is left as it is. *)
Lemma sort_rows_fixed (header : option row) (data : list row) :
  (forall h, header = Some h -> is_header h = true) ->
  Forall (fun r => is_header r = false) data ->
  Forall (fun r => sort_key r <> None) data ->
  StronglySorted row_le data ->
  sort_rows (attach header data) = Some (attach header data).
Proof.
  intros Hh Hd Hk Hs. rewrite sort_rows_spec.
  assert (Hf : filter data_row (attach header data) = data).
  { assert (Hdata : filter data_row data = data).
    { apply filter_all. eapply Forall_impl; [|exact Hd].
      intros r E. unfold data_row. now rewrite E. }
    destruct header as [h|]; [|exact Hdata].
    cbn [attach filter]. unfold data_row at 1.
    now rewrite (Hh h eq_refl). }
  assert (Hfind : find is_header (rev (attach header data)) = header).
  { assert (Hnone : find is_header (rev data) = None).
    { apply find_absent. apply Forall_forall. intros r Hr.
      apply in_rev in Hr. exact (proj1 (Forall_forall _ _) Hd r Hr). }
    destruct header as [h|]; [|exact Hnone].
    cbn [attach rev]. now rewrite find_last, Hnone, (Hh h eq_refl). }
  rewrite Hf, Hfind.
  destruct (keyed data) as [ks|] eqn:Ek.
  - destruct (keyed_spec _ _ Ek) as [Hm Hkeys].
    rewrite stable_sort_sorted_id, Hm; [reflexivity|].
    apply sorted_rows_keyed; [exact Hkeys | now rewrite Hm].
  - apply keyed_none in Ek as [r [Hin Hr]].
    elim (proj1 (Forall_forall _ _) Hk r Hin).
    unfold sort_key. now rewrite Hr.
Qed.

(** The shape of what the sort gives. *)
Lemma sort_rows_sorted (rows sorted : list row) :
  sort_rows rows = Some sorted ->
  exists data,
    sorted = attach (find is_header (rev rows)) data
    /\ (forall h, find is_header (rev rows) = Some h -> is_header h = true)
    /\ Forall (fun r => is_header r = false) data
    /\ Forall (fun r => sort_key r <> None) data
    /\ StronglySorted row_le data
    /\ Permutation data (filter data_row rows)
    /\ forall k, filter (has_key k) data = filter (has_key k) (filter data_row rows).
Proof.
  rewrite sort_rows_spec.
  destruct (keyed (filter data_row rows)) as [ks|] eqn:Ek; [|discriminate].
  intros [= <-]. exists (map snd (stable_sort ks)).
  destruct (keyed_spec _ _ Ek) as [Hm Hkeys].
  pose proof (stable_sort_keys ks Hkeys) as Hkeys'.
  assert (Hperm : Permutation (map snd (stable_sort ks)) (filter data_row rows)).
  { rewrite <- Hm. apply Permutation_map, stable_sort_perm. }
  split; [reflexivity|]. split; [|split; [|split; [|split; [|split]]]].
  - intros h Eh. now apply find_some in Eh.
  - apply Forall_forall. intros r Hr.
    apply (Permutation_in _ Hperm) in Hr. apply filter_In in Hr as [_ Hr].
    unfold data_row in Hr. now destruct (is_header r).
  - apply Forall_forall. intros r Hr. apply in_map_iff in Hr as [x [<- Hx]].
    rewrite (proj1 (Forall_forall _ _) Hkeys' x Hx). discriminate.
  - apply keyed_sorted_rows; [exact Hkeys' | apply stable_sort_sorted].
  - exact Hperm.
  - intros k. rewrite (has_key_keyed k _ Hkeys'), stable_sort_stable.
    now rewrite <- (has_key_keyed k _ Hkeys), Hm.
Qed.

Lemma sort_rows_none (rows : list row) :
  sort_rows rows = None
  <-> exists r, In r rows /\ is_header r = false /\ py_int (frame_idx r) = None.
Proof.
  rewrite sort_rows_spec.
  destruct (keyed (filter data_row rows)) as [ks|] eqn:Ek.
  - split; [discriminate|]. intros [r (Hin & Hh & Hf)].
    assert (Hnone : keyed (filter data_row rows) = None).
    { apply keyed_none. exists r. split; [|exact Hf].
      apply filter_In. split; [exact Hin|]. unfold data_row. now rewrite Hh. }
    congruence.
  - split; [|reflexivity]. intros _.
    apply keyed_none in Ek as [r [Hin Hf]].
    apply filter_In in Hin as [Hin Hd]. exists r.
    unfold data_row in Hd. destruct (is_header r); [discriminate | auto].
Qed.

End SortFacts.

(** X4. The sort stops the script with [ValueError] exactly when the frame
    index of some row not named like the header is not an integer; rows
    named like the header are never asked for their key. *)
Theorem sort_rows_error `{Builtins} (rows : list row) :
  sort_rows rows = None
  <-> exists r, In r rows /\ is_header r = false /\ py_int (frame_idx r) = None.
Proof. apply sort_rows_none. Qed.

(** X5. What the sort keeps: the rows not named like the header, each as
    often as it was there, under the last row named like the header when
    there is one; earlier rows so named are dropped. *)
Theorem sort_rows_permutation `{Builtins} (rows sorted : list row) :
  sort_rows rows = Some sorted ->
  exists data,
    sorted = attach (find is_header (rev rows)) data
    /\ Permutation data (filter data_row rows)
    /\ List.length sorted
       = List.length (filter data_row rows)
         + (if existsb is_header rows then 1 else 0).
Proof.
  intros Hs.
  destruct (sort_rows_sorted rows sorted Hs) as (data & -> & _ & _ & _ & _ & Hp & _).
  exists data. split; [reflexivity|]. split; [exact Hp|].
  rewrite <- (Permutation_length Hp).
  destruct (find is_header (rev rows)) as [h|] eqn:E.
  - apply find_some in E as [Hin Hh]. apply in_rev in Hin.
    rewrite (proj2 (existsb_exists is_header rows)) by (now exists h).
    cbn [attach List.length]. lia.
  - destruct (existsb is_header rows) eqn:Ex; [|cbn [attach]; lia].
    apply existsb_exists in Ex as [h [Hin Hh]].
    apply in_rev in Hin.
    now rewrite (List.find_none is_header (rev rows) E h Hin) in Hh.
Qed.

Lemma sort_rows_permutation_witness :
  exists data,
    two_headers_sorted = attach (find is_header (rev two_headers)) data
    /\ Permutation data (filter data_row two_headers)
    /\ List.length two_headers_sorted
       = List.length (filter data_row two_headers)
         + (if existsb is_header two_headers then 1 else 0).
Proof.
  exact (sort_rows_permutation (H := Decimal64.builtins)
           two_headers two_headers_sorted eq_refl).
Defined.

(** X6. The order the sort gives: under the header the rows are in ascending
    order of [(video_name, int(frame_idx))], names compared as strings and
    frames as integers, and rows of one key keep the order they had in the
    file. *)
Theorem sort_rows_ordered `{Builtins} (rows sorted : list row) :
  sort_rows rows = Some sorted ->
  StronglySorted row_le (filter data_row sorted)
  /\ forall k : string * Z,
       filter (has_key k) (filter data_row sorted)
       = filter (has_key k) (filter data_row rows).
Proof.
  intros Hs.
  destruct (sort_rows_sorted rows sorted Hs)
    as (data & -> & Hh & Hd & _ & Hsorted & _ & Hstable).
  assert (Hf : filter data_row (attach (find is_header (rev rows)) data) = data).
  { assert (Hdata : filter data_row data = data).
    { apply filter_all. eapply Forall_impl; [|exact Hd].
      intros r E. unfold data_row. now rewrite E. }
    destruct (find is_header (rev rows)) as [h|]; [|exact Hdata].
    cbn [attach filter]. unfold data_row at 1. now rewrite (Hh h eq_refl). }
  rewrite Hf. split; [exact Hsorted | exact Hstable].
Qed.

Lemma sort_rows_ordered_witness :
  StronglySorted (row_le (H := Decimal64.builtins))
                 (filter data_row two_headers_sorted)
  /\ forall k : string * Z,
       filter (has_key (H := Decimal64.builtins) k) (filter data_row two_headers_sorted)
       = filter (has_key (H := Decimal64.builtins) k) (filter data_row two_headers).
Proof.
  exact (sort_rows_ordered (H := Decimal64.builtins)
           two_headers two_headers_sorted eq_refl).
Defined.

(** X7. Sorting a sorted table changes nothing. *)
Theorem sort_rows_idempotent `{Builtins} (rows sorted : list row) :
  sort_rows rows = Some sorted -> sort_rows sorted = Some sorted.
Proof.
  intros Hs.
  destruct (sort_rows_sorted rows sorted Hs)
    as (data & -> & Hh & Hd & Hk & Hsorted & _ & _).
  now apply sort_rows_fixed.
Qed.

Lemma sort_rows_idempotent_witness :
  sort_rows (H := Decimal64.builtins) two_headers_sorted = Some two_headers_sorted.
Proof.
  exact (sort_rows_idempotent (H := Decimal64.builtins)
           two_headers two_headers_sorted eq_refl).
Defined.

(** *** The loop: what it may change *)

Lemma py_str_assigned (k : Z) : (0 <= k)%Z -> py_str k <> "-1"%string.
Proof.
  intros Hk. unfold py_str. destruct k as [|p|p]; [discriminate| |lia].
  cbn [Z.to_int NilZero.string_of_int].
  unfold NilZero.string_of_uint.
  destruct (Pos.to_uint p); try discriminate.
Qed.

Lemma filled_refl (r : row) : filled r r.
Proof. now left. Qed.

Lemma filled_trans (a b c : row) : filled a b -> filled b c -> filled a c.
Proof.
  intros [->|[Ha [k [Hk ->]]]] Hbc; [exact Hbc|].
  destruct Hbc as [->|[Hb _]].
  - right. split; [exact Ha|]. now exists k.
  - simpl in Hb. now apply py_str_assigned in Hb.
Qed.

Lemma Forall2_filled_refl (l : list row) : Forall2 filled l l.
Proof. induction l; constructor; [apply filled_refl | assumption]. Qed.

Lemma Forall2_filled_trans (l1 l2 l3 : list row) :
  Forall2 filled l1 l2 -> Forall2 filled l2 l3 -> Forall2 filled l1 l3.
Proof.
  intros H12. revert l3. induction H12 as [|a b l1 l2 Hab _ IH]; intros l3 H23.
  - inversion H23. constructor.
  - inversion H23 as [|? c ? l3' Hbc H23']; subst.
    constructor; [eapply filled_trans; eassumption | now apply IH].
Qed.

Section Frame.
Context `{Builtins}.

Lemma extend_filled (w : nat) (sd : seed) (v : string) (k : Z) (rest : list row) :
  (0 <= k)%Z -> Forall2 filled rest (extend w sd v (py_str k) rest).
Proof.
  intros Hk. revert rest.
  induction w as [|w IH]; intros [|next rest]; simpl;
    try apply Forall2_filled_refl.
  destruct (accepts sd v next) eqn:E; [|apply Forall2_filled_refl].
  constructor; [|apply IH].
  right. unfold accepts in E.
  apply andb_prop in E as [E _]. apply andb_prop in E as [_ E].
  apply String.eqb_eq in E. split; [exact E|]. now exists k.
Qed.

Lemma after_seed_filled (v : string) (m : Z) (r : row) (rest : list row) :
  (-1 <= m)%Z -> Forall2 filled rest (after_seed v m r rest).
Proof.
  intros Hm. unfold after_seed.
  destruct (read_seed r); [|apply Forall2_filled_refl].
  apply extend_filled. lia.
Qed.

(** What [action_of] decides, on any row: [maxId] stays at or above -1, a
    seed is a row with person id ['-1'], a row kept is not. *)
Lemma action_of_any (first : bool) (m : Z) (v : string) (data : row) :
  (-1 <= m)%Z ->
  match action_of first m v data with
  | Skip => first = true /\ is_header data = true
  | Keep m' _ => (-1 <= m')%Z /\ assigned data
  | Seed m' _ => (-1 <= m')%Z /\ person_id data = "-1"%string
  end.
Proof.
  intros Hm. unfold action_of, read_id, assigned.
  destruct (first && is_header data) eqn:Ef.
  { now apply andb_prop in Ef. }
  assert (Hmax : forall c m0 : Z, (-1 <= m0)%Z ->
                   (-1 <= (if (c >? m0)%Z then c else m0))%Z).
  { intros c m0 Hm0. destruct (c >? m0)%Z eqn:E; [|exact Hm0].
    rewrite Z.gtb_ltb in E. apply Z.ltb_lt in E. lia. }
  destruct (person_id data =? "-1")%string eqn:E; cbn [negb].
  - apply String.eqb_eq in E.
    destruct (negb (v =? video_name data)%string);
      (split; [apply Hmax; lia | exact E]).
  - apply String.eqb_neq in E.
    destruct (negb (v =? video_name data)%string);
      destruct (py_int (person_id data)) as [c|];
      (split; [try apply Hmax; lia | exact E]).
Qed.

Lemma visit_filled (n : nat) (first : bool) (m : Z) (v : string) (rows : list row) :
  (-1 <= m)%Z -> Forall2 filled rows (fst (visit n first m v rows)).
Proof.
  revert first m v rows.
  induction n as [|n IH]; intros first m v [|data rest] Hm;
    try apply Forall2_filled_refl.
  rewrite visit_action.
  pose proof (action_of_any first m v data Hm) as Hact.
  destruct (action_of first m v data) as [|m' v'|m' v'].
  - cbn [push fst]. constructor; [apply filled_refl | now apply IH].
  - cbn [push fst]. constructor; [apply filled_refl | apply IH; tauto].
  - destruct Hact as [Hm' Hid].
    pose proof (IH false (m' + 1)%Z v' (after_seed v' m' data rest)) as IH'.
    destruct (visit n false (m' + 1) v' (after_seed v' m' data rest))
      as [out calls].
    cbn [fst] in *. constructor.
    + right. split; [exact Hid|]. exists (m' + 1)%Z. split; [lia | reflexivity].
    + apply (Forall2_filled_trans _ (after_seed v' m' data rest)).
      * now apply after_seed_filled.
      * apply IH'. lia.
Qed.

(** No row visited is left unassigned. *)
Lemma visit_assigned (n : nat) (m : Z) (v : string) (rows : list row) :
  List.length rows <= n -> (-1 <= m)%Z ->
  Forall assigned (fst (visit n false m v rows)).
Proof.
  revert m v rows. induction n as [|n IH]; intros m v rows Hlen Hm.
  - destruct rows; [constructor | simpl in Hlen; lia].
  - destruct rows as [|data rest]; [constructor|].
    simpl in Hlen. rewrite visit_action.
    pose proof (action_of_any false m v data Hm) as Hact.
    destruct (action_of false m v data) as [|m' v'|m' v'].
    + destruct Hact as [Hf _]. discriminate.
    + destruct Hact as [Hm' Ha]. cbn [push fst].
      constructor; [exact Ha | apply IH; lia].
    + destruct Hact as [Hm' _].
      pose proof (IH (m' + 1)%Z v' (after_seed v' m' data rest)) as IH'.
      rewrite after_seed_length in IH'.
      destruct (visit n false (m' + 1) v' (after_seed v' m' data rest))
        as [out calls].
      cbn [fst] in *. constructor; [|apply IH'; lia].
      unfold assigned. cbn [with_person_id person_id].
      apply py_str_assigned. lia.
Qed.

(** Over rows that are all assigned the loop writes nothing. *)
Lemma visit_nothing (n : nat) (first : bool) (m : Z) (v : string) (rows : list row) :
  (-1 <= m)%Z -> Forall assigned rows -> visit n first m v rows = (rows, []).
Proof.
  revert first m v rows.
  induction n as [|n IH]; intros first m v [|data rest] Hm Hall; try reflexivity.
  inversion Hall as [|? ? Hdata Hrest]; subst.
  rewrite visit_action.
  pose proof (action_of_any first m v data Hm) as Hact.
  destruct (action_of first m v data) as [|m' v'|m' v'].
  - now rewrite IH.
  - rewrite IH; [reflexivity | tauto | exact Hrest].
  - destruct Hact as [_ E]. now elim Hdata.
Qed.

Lemma propagate_twice (rows : list row) :
  visit (List.length rows) true (-1) "" (propagate rows) = (propagate rows, []).
Proof.
  rewrite propagate_visit.
  destruct rows as [|data rest]; [reflexivity|].
  change (List.length (data :: rest)) with (S (List.length rest)).
  destruct (is_header data) eqn:Eh.
  - rewrite (visit_header _ _ _ _ _ Eh). cbn [push fst].
    rewrite (visit_header _ _ _ _ _ Eh).
    rewrite visit_nothing; [reflexivity | lia |].
    apply visit_assigned; lia.
  - rewrite (visit_first _ _ _ _ _ Eh).
    apply visit_nothing; [lia|].
    apply visit_assigned; simpl; lia.
Qed.

End Frame.

(** X8. The loop keeps the rows and their order and writes on nothing but the
    person id of rows that hold ['-1']: every row of the result is the row
    of the input at the same place, or that row with a person id that is
    the string of an integer not below 0, and then the row held ['-1']. A
    row that came with an id of its own, or with a person id that is not a
    number, is written back as it was. *)
Theorem propagate_fills `{Builtins} (rows : list row) :
  Forall2 filled rows (propagate rows).
Proof. rewrite propagate_visit. apply visit_filled. lia. Qed.

(** X9. Run on its own result the loop changes nothing and finds no seed. *)
Theorem propagate_idempotent `{Builtins} (rows : list row) :
  propagate (propagate rows) = propagate rows
  /\ seeds (propagate rows) = [].
Proof.
  pose proof (propagate_twice rows) as Ht.
  assert (Hlen : List.length (propagate rows) = List.length rows).
  { rewrite propagate_visit. apply visit_length. }
  split.
  - rewrite (propagate_visit (propagate rows)), Hlen, Ht. reflexivity.
  - rewrite (seeds_visit (propagate rows)), Hlen, Ht. reflexivity.
Qed.

(** *** The script run on its own output *)

Lemma filled_cells (r r' : row) :
  filled r r' -> video_name r' = video_name r /\ frame_idx r' = frame_idx r.
Proof. intros [->|[_ [k [_ ->]]]]; split; reflexivity. Qed.

Section Again.
Context `{Builtins}.

Lemma filled_sort_key (r r' : row) : filled r r' -> sort_key r' = sort_key r.
Proof.
  intros Hf. destruct (filled_cells r r' Hf) as [Ev Ef].
  unfold sort_key. now rewrite Ev, Ef.
Qed.

Lemma filled_is_header (r r' : row) : filled r r' -> is_header r' = is_header r.
Proof.
  intros Hf. destruct (filled_cells r r' Hf) as [Ev _].
  unfold is_header. now rewrite Ev.
Qed.

Lemma filled_Forall (Q : row -> Prop) (l l' : list row) :
  (forall r r', filled r r' -> Q r -> Q r') ->
  Forall2 filled l l' -> Forall Q l -> Forall Q l'.
Proof.
  intros HQ H2. induction H2 as [|a a' l l' Ha _ IH]; intros Hall; [constructor|].
  inversion Hall; subst. constructor; [eapply HQ; eassumption | now apply IH].
Qed.

Lemma filled_row_le (a a' b b' : row) :
  filled a a' -> filled b b' -> row_le a b -> row_le a' b'.
Proof.
  intros Ha Hb (ka & kb & Ea & Eb & Hle). exists ka, kb.
  rewrite (filled_sort_key a a' Ha), (filled_sort_key b b' Hb). auto.
Qed.

Lemma filled_sorted (l l' : list row) :
  Forall2 filled l l' -> StronglySorted row_le l -> StronglySorted row_le l'.
Proof.
  intros H2. induction H2 as [|a a' l l' Ha H2 IH]; intros Hs; [constructor|].
  apply StronglySorted_inv in Hs as [Hs Hall].
  constructor; [now apply IH|].
  clear - Ha H2 Hall. revert Hall.
  induction H2 as [|b b' l l' Hb _ IH]; intros Hall; [constructor|].
  inversion Hall; subst. constructor; [|now apply IH].
  now apply (filled_row_le a a' b b').
Qed.

(** Filling person ids does not unsort a table. *)
Lemma sort_rows_filled (header : option row) (data out : list row) :
  (forall h, header = Some h -> is_header h = true) ->
  Forall (fun r => is_header r = false) data ->
  Forall (fun r => sort_key r <> None) data ->
  StronglySorted row_le data ->
  Forall2 filled (attach header data) out ->
  sort_rows out = Some out.
Proof.
  intros Hh Hd Hk Hs H2.
  assert (Hgo : forall data', Forall2 filled data data' ->
            Forall (fun r => is_header r = false) data'
            /\ Forall (fun r => sort_key r <> None) data'
            /\ StronglySorted row_le data').
  { intros data' Hf. split; [|split].
    - apply (filled_Forall _ data data'); [|exact Hf|exact Hd].
      intros r r' Hr E. now rewrite (filled_is_header r r' Hr).
    - apply (filled_Forall _ data data'); [|exact Hf|exact Hk].
      intros r r' Hr E. now rewrite (filled_sort_key r r' Hr).
    - now apply (filled_sorted data data'). }
  destruct header as [h|]; cbn [attach] in H2.
  - inversion H2 as [|? h' ? data' Hhh' Hf]; subst.
    destruct (Hgo data' Hf) as (H1 & H3 & H4).
    apply (sort_rows_fixed (Some h') data'); try assumption.
    intros h0 [= <-]. rewrite (filled_is_header h h' Hhh'). now apply Hh.
  - destruct (Hgo out H2) as (H1 & H3 & H4).
    apply (sort_rows_fixed None out); assumption.
Qed.

Lemma propagate_again (rows : list row) : propagate (propagate rows) = propagate rows.
Proof.
  pose proof (propagate_twice rows) as Ht.
  rewrite (propagate_visit (propagate rows)).
  replace (List.length (propagate rows)) with (List.length rows)
    by (rewrite propagate_visit; symmetry; apply visit_length).
  now rewrite Ht.
Qed.

End Again.

(** X10. [train_fixed.py] run on the file it wrote writes the same file: the
    rows are already in order, and no person id is left to fill. *)
Theorem train_fixed_idempotent `{Builtins} (rows out : list row) :
  train_fixed rows = Some out -> train_fixed out = Some out.
Proof.
  unfold train_fixed.
  destruct (sort_rows rows) as [sorted|] eqn:Hs; [|discriminate].
  intros [= <-].
  destruct (sort_rows_sorted rows sorted Hs)
    as (data & -> & Hh & Hd & Hk & Hsorted & _ & _).
  rewrite (sort_rows_filled (find is_header (rev rows)) data); try assumption.
  - now rewrite propagate_again.
  - rewrite propagate_visit. apply visit_filled. lia.
Qed.

Lemma train_fixed_idempotent_witness :
  train_fixed (H := Decimal64.builtins) mixed_ids_filled = Some mixed_ids_filled.
Proof.
  exact (train_fixed_idempotent (H := Decimal64.builtins)
           mixed_ids mixed_ids_filled eq_refl).
Defined.

(** *** The two scripts, one after the other *)

Lemma read_line_to_line `{Builtins} (e : TrainTemp.dict_entry) :
  read_line (TrainTemp.to_line e) = Some (of_entry e).
Proof. reflexivity. Qed.

Lemma read_lines_map `{Builtins} (l : list TrainTemp.dict_entry) :
  read_lines (map TrainTemp.to_line l) = Some (map of_entry l).
Proof.
  unfold read_lines. induction l as [|e l IH]; [reflexivity|].
  cbn [map TrainTemp.decode_all]. now rewrite read_line_to_line, IH.
Qed.

Lemma filter_map_length {A B : Type} (f : A -> B) (p : B -> bool) (l : list A) :
  List.length (filter p (map f l)) = List.length (filter (fun a => p (f a)) l).
Proof.
  induction l as [|a l IH]; [reflexivity|].
  cbn [map filter]. destruct (p (f a)); cbn [List.length]; now rewrite IH.
Qed.

Section Pipeline.
Context `{Builtins}.
Hypothesis int_str : int_str_law.

Lemma of_entry_written (train_personID : list TrainTemp.csv_row)
      (data : TrainTemp.csv_row) :
  (forall t id, In t train_personID ->
                py_int (TrainTemp.c6 t) = Some id -> (0 <= id)%Z) ->
  written (of_entry (TrainTemp.match_one train_personID data)).
Proof.
  intros Hids. unfold TrainTemp.match_one.
  destruct (TrainTemp.scan data train_personID) as [e|] eqn:E.
  - destruct (TrainTempFacts.scan_found data train_personID e E)
      as (t & id & Hin & _ & Hid & ->).
    exists (id - 1)%Z. split; [|reflexivity].
    pose proof (Hids t id Hin Hid). lia.
  - exists (-1)%Z. split; [lia | reflexivity].
Qed.

End Pipeline.

(** X11. [train_fixed.py] on the file [train_temp.py] writes. When the person
    ids of the tracker file that read as integers are not negative and the
    frame index of every detection reads as an integer, the second script
    reads the file, sorts it without error and writes a header line
    followed by one row for each detection loaded (those named like the
    header apart), every one with a person id that is not ['-1'] and reads
    as an integer not below 0. *)
Theorem train_temp_then_train_fixed `{Builtins}
    (personID_csv without_personID_csv : list (list string)) :
  int_str_law ->
  (forall t id, In t (TrainTemp.load personID_csv) ->
                py_int (TrainTemp.c6 t) = Some id -> (0 <= id)%Z) ->
  (forall d, In d (TrainTemp.load without_personID_csv) ->
             TrainTemp.c0 d <> "video_name"%string ->
             py_int (TrainTemp.c1 d) <> None) ->
  exists rows h out,
    read_lines (TrainTemp.train_temp personID_csv without_personID_csv) = Some rows
    /\ train_fixed rows = Some (h :: out)
    /\ is_header h = true
    /\ Forall resolved out
    /\ List.length out
       = List.length
           (filter (fun d => negb (TrainTemp.c0 d =? "video_name")%string)
                   (TrainTemp.load without_personID_csv)).
Proof.
  intros law Hids Hframes.
  set (P := TrainTemp.load personID_csv) in *.
  set (W := TrainTemp.load without_personID_csv) in *.
  set (rows := header_row :: map of_entry (map (TrainTemp.match_one P) W)).
  assert (Hread : read_lines (TrainTemp.train_temp personID_csv without_personID_csv)
                  = Some rows).
  { unfold TrainTemp.train_temp, read_lines. cbn [TrainTemp.decode_all].
    change (read_line TrainTemp.header) with (Some header_row).
    fold (read_lines (map TrainTemp.to_line (TrainTemp.match_boxes P W))).
    now rewrite read_lines_map, TrainTempFacts.match_boxes_map. }
  assert (Hdata : forall r, In r rows -> is_header r = false ->
            exists d, In d W /\ r = of_entry (TrainTemp.match_one P d)).
  { intros r [<-|Hin] Hh; [discriminate|].
    rewrite List.map_map in Hin. apply in_map_iff in Hin as [d [<- Hd]].
    now exists d. }
  destruct (sort_rows rows) as [sorted|] eqn:Hs.
  2:{ apply sort_rows_none in Hs as [r (Hin & Hh & Hf)].
      destruct (Hdata r Hin Hh) as [d [Hd ->]].
      unfold is_header in Hh. unfold of_entry in Hh, Hf.
      cbv zeta in Hh, Hf. cbn [video_name frame_idx] in Hh, Hf.
      rewrite TrainTempFacts.match_one_cells in Hh, Hf.
      apply String.eqb_neq in Hh. now elim (Hframes d Hd Hh). }
  destruct (sort_rows_sorted rows sorted Hs)
    as (data & -> & Hh & Hd & _ & _ & Hperm & _).
  destruct (find is_header (rev rows)) as [h|] eqn:Ef.
  2:{ assert (Hin : In header_row (rev rows))
        by (apply in_rev; rewrite rev_involutive; now left).
      pose proof (List.find_none is_header (rev rows) Ef header_row Hin) as E.
      discriminate E. }
  exists rows, h, (fst (visit (List.length data) false (-1) "" data)).
  split; [exact Hread|]. split; [|split; [|split]].
  - unfold train_fixed. rewrite Hs. cbn [attach]. rewrite propagate_visit.
    change (List.length (h :: data)) with (S (List.length data)).
    now rewrite (visit_header _ _ _ _ _ (Hh h eq_refl)).
  - now apply Hh.
  - apply visit_resolved; [exact law | lia | lia |].
    apply Forall_forall. intros r Hr.
    apply (Permutation_in _ Hperm) in Hr. apply filter_In in Hr as [Hin Hr].
    unfold data_row in Hr.
    destruct (Hdata r Hin) as [d [_ ->]]; [now destruct (is_header r)|].
    now apply of_entry_written.
  - rewrite visit_length, (Permutation_length Hperm).
    unfold rows. cbn [filter]. change (data_row header_row) with false. cbv iota.
    rewrite List.map_map, filter_map_length.
    f_equal. apply filter_ext. intros d.
    unfold data_row, is_header, of_entry. cbv zeta. cbn [video_name].
    now rewrite TrainTempFacts.match_one_cells.
Qed.

Lemma train_temp_then_train_fixed_witness :
  exists rows h out,
    read_lines (TrainTemp.train_temp (H := Decimal64.builtins)
                  TrainTemp.scenario1_personID three_boxes) = Some rows
    /\ train_fixed (H := Decimal64.builtins) rows = Some (h :: out)
    /\ is_header h = true
    /\ Forall (resolved (H := Decimal64.builtins)) out
    /\ List.length out
       = List.length
           (filter (fun d => negb (TrainTemp.c0 d =? "video_name")%string)
                   (TrainTemp.load three_boxes)).
Proof.
  apply (train_temp_then_train_fixed (H := Decimal64.builtins)
           TrainTemp.scenario1_personID three_boxes Decimal64Facts.int_str_law).
  - intros t id [<-|[]] E. vm_compute in E. injection E as <-. lia.
  - intros d [<-|[<-|[<-|[]]]] _ E; vm_compute in E; discriminate.
Defined.

(** *** New ids in a table that holds ids already *)

Lemma above_lower (a b : Z) (ids : list Z) : (b <= a)%Z -> above a ids -> above b ids.
Proof.
  destruct ids as [|i later]; [trivial|]. cbn [above].
  intros Hb [Ha Hl]. split; [lia | exact Hl].
Qed.

Lemma above_sorted (a : Z) (ids : list Z) :
  above a ids -> StronglySorted Z.lt ids /\ Forall (fun i => (a < i)%Z) ids.
Proof.
  revert a. induction ids as [|i later IH]; intros a; cbn [above].
  - intros _. split; constructor.
  - intros [Ha Hl]. destruct (IH i Hl) as [Hs Hall]. split.
    + constructor; [exact Hs | exact Hall].
    + constructor; [exact Ha|].
      eapply Forall_impl; [|exact Hall]. intros j Hj. cbv beta in Hj. lia.
Qed.

Section Increasing.
Context `{Builtins}.

(** The state a turn leaves: the video of the row, and a [maxId] that is
    not below the one it had in that video. *)
Lemma action_of_state (first : bool) (m : Z) (v : string) (data : row) :
  action_of first m v data = Skip
  \/ exists m' : Z,
       ((if (v =? video_name data)%string then m else (-1)%Z) <= m')%Z
       /\ (action_of first m v data = Keep m' (video_name data)
           \/ action_of first m v data = Seed m' (video_name data)).
Proof.
  unfold action_of. destruct (first && is_header data); [now left|]. right.
  assert (Hmax : forall c m0 : Z, (m0 <= (if (c >? m0)%Z then c else m0))%Z).
  { intros c m0. destruct (c >? m0)%Z eqn:E; [|lia].
    rewrite Z.gtb_ltb in E. apply Z.ltb_lt in E. lia. }
  destruct (v =? video_name data)%string eqn:Ev; cbn [negb].
  - apply String.eqb_eq in Ev. subst v.
    destruct (read_id data) as [c|].
    + exists (if (c >? m)%Z then c else m). split; [apply Hmax|].
      destruct (person_id data =? "-1")%string; [now right | now left].
    + exists m. split; [lia | now left].
  - destruct (read_id data) as [c|].
    + exists (if (c >? -1)%Z then c else (-1)%Z). split; [apply Hmax|].
      destruct (person_id data =? "-1")%string; [now right | now left].
    + exists (-1)%Z. split; [lia | now left].
Qed.

Lemma visit_increasing (n : nat) (first : bool) (m : Z) (v : string) (rows : list row) :
  List.length rows <= n -> (-1 <= m)%Z ->
  NoDup (runs (map video_name rows)) ->
  fits m v (map video_name rows) ->
  (forall c, In c (snd (visit n first m v rows)) ->
             In (fst c) (map video_name rows))
  /\ (forall u, above (if (u =? v)%string then m else (-1)%Z)
                      (ids_for u (snd (visit n first m v rows)))).
Proof.
  revert first m v rows.
  induction n as [|n IH]; intros first m v rows Hlen Hm Hnd Hfit.
  - destruct rows; [|simpl in Hlen; lia]. simpl. split; [contradiction | trivial].
  - destruct rows as [|data rest].
    { simpl. split; [contradiction | trivial]. }
    simpl in Hlen. simpl map in *.
    pose proof (runs_tail _ _ Hnd) as Hnd'.
    rewrite visit_action.
    (* what holds of the calls made after this row, in its video *)
    assert (Hrest : forall (m' : Z) (calls : list (string * Z)),
               ((if (v =? video_name data)%string then m else (-1)%Z) <= m')%Z ->
               (forall c, In c calls -> In (fst c) (map video_name rest)) ->
               (forall u, above (if (u =? video_name data)%string then m' else (-1)%Z)
                                (ids_for u calls)) ->
               forall u,
                 above (if (u =? v)%string then m else (-1)%Z) (ids_for u calls)).
    { intros m' calls Hm' Hin Hab u.
      specialize (Hab u).
      destruct (u =? video_name data)%string eqn:Eu.
      - apply String.eqb_eq in Eu. subst u.
        rewrite (String.eqb_sym (video_name data) v).
        eapply above_lower; [|exact Hab]. exact Hm'.
      - destruct (u =? v)%string eqn:Euv; [|exact Hab].
        apply String.eqb_eq in Euv. subst u.
        destruct Hfit as [Hf|[Hf|Hf]].
        + subst m. exact Hab.
        + rewrite ids_for_absent; [exact I|].
          intros c Hc E. apply Hf. right. rewrite <- E. now apply Hin.
        + injection Hf as Hf. rewrite Hf, String.eqb_refl in Eu. discriminate. }
    destruct (action_of_state first m v data) as [Hact|[m' [Hm' [Hact|Hact]]]];
      rewrite Hact.
    + (* the header row *)
      assert (Hfit' : fits m v (map video_name rest)).
      { destruct Hfit as [Hf|[Hf|Hf]].
        - now left.
        - right. left. intros Hin. apply Hf. now right.
        - injection Hf as Hf. rewrite <- Hf. now apply fits_tail. }
      destruct (IH false m v rest) as [IH1 IH2]; try assumption; try lia.
      cbn [push snd]. split; [|exact IH2]. intros c Hc. right. now apply IH1.
    + (* a row kept *)
      assert (Hge : (-1 <= m')%Z) by (destruct (v =? video_name data)%string; lia).
      destruct (IH false m' (video_name data) rest) as [IH1 IH2];
        try assumption; try lia; [now apply fits_tail|].
      cbn [push snd]. split.
      * intros c Hc. right. now apply IH1.
      * apply (Hrest m'); assumption.
    + (* a seed *)
      assert (Hge : (-1 <= m')%Z) by (destruct (v =? video_name data)%string; lia).
      destruct (IH false (m' + 1)%Z (video_name data)
                   (after_seed (video_name data) m' data rest)) as [IH1 IH2].
      * rewrite after_seed_length. lia.
      * lia.
      * now rewrite after_seed_names.
      * rewrite after_seed_names. now apply fits_tail.
      * rewrite after_seed_names in IH1.
        destruct (visit n false (m' + 1) (video_name data)
                        (after_seed (video_name data) m' data rest))
          as [out calls].
        cbn [snd] in *. split.
        -- intros c [<-|Hc]; [now left | right; now apply IH1].
        -- intros u. unfold ids_for. cbn [filter fst].
           destruct (video_name data =? u)%string eqn:Eu.
           ++ apply String.eqb_eq in Eu. subst u. cbn [map snd above]. split.
              ** rewrite (String.eqb_sym (video_name data) v). lia.
              ** specialize (IH2 (video_name data)).
                 now rewrite String.eqb_refl in IH2.
           ++ fold (ids_for u calls).
              apply (Hrest (m' + 1)%Z calls); [lia | exact IH1 | exact IH2].
Qed.

Lemma seeds_increasing (header : option row) (rows : list row) (u : string) :
  (forall h, header = Some h -> is_header h = true) ->
  NoDup (runs (map video_name rows)) ->
  above (-1) (ids_for u (seeds (attach header rows))).
Proof.
  intros Hhead Hnd. rewrite seeds_visit.
  destruct header as [h|]; unfold attach.
  - change (List.length (h :: rows)) with (S (List.length rows)).
    rewrite (visit_header _ _ _ _ _ (Hhead h eq_refl)). cbn [push snd].
    destruct (visit_increasing (List.length rows) false (-1) "" rows)
      as [_ Hc]; try assumption; try lia; [now left|].
    specialize (Hc u). now destruct (u =? "")%string.
  - destruct (visit_increasing (List.length rows) true (-1) "" rows)
      as [_ Hc]; try assumption; try lia; [now left|].
    specialize (Hc u). now destruct (u =? "")%string.
Qed.

End Increasing.

(** X12. In a table where each video is one run of rows, as after the sort, the
    ids the loop gives to the seeds of one video go up strictly and none is
    negative, whatever ids the rows already hold: each new id is [maxId + 1]
    for a [maxId] that never goes down inside a video. So no two seeds of a
    video are given the same id. *)
Theorem seeds_strictly_increase `{Builtins} :
  (forall (header : option row) (rows : list row) (u : string),
      (forall h, header = Some h -> is_header h = true) ->
      NoDup (runs (map video_name rows)) ->
      StronglySorted Z.lt (ids_for u (seeds (attach header rows)))
      /\ Forall (fun i => (0 <= i)%Z) (ids_for u (seeds (attach header rows))))
  /\ (forall (rows sorted : list row) (u : string),
      sort_rows rows = Some sorted ->
      StronglySorted Z.lt (ids_for u (seeds sorted))
      /\ NoDup (ids_for u (seeds sorted))).
Proof.
  assert (Hmain : forall (header : option row) (rows : list row) (u : string),
            (forall h, header = Some h -> is_header h = true) ->
            NoDup (runs (map video_name rows)) ->
            StronglySorted Z.lt (ids_for u (seeds (attach header rows)))
            /\ Forall (fun i => (0 <= i)%Z) (ids_for u (seeds (attach header rows)))).
  { intros header rows u Hhead Hnd.
    destruct (above_sorted _ _ (seeds_increasing header rows u Hhead Hnd))
      as [Hs Hall].
    split; [exact Hs|]. eapply Forall_impl; [|exact Hall].
    intros i Hi. cbv beta in Hi. lia. }
  split; [exact Hmain|].
  intros rows sorted u Hsort.
  destruct (sort_rows_shape rows sorted Hsort)
    as (header & data & -> & Hhead & Hnd & _).
  destruct (Hmain header data u Hhead Hnd) as [Hs _].
  split; [exact Hs|].
  clear - Hs. induction Hs as [|i l Hs IH Hall]; constructor; [|exact IH].
  intros Hin. pose proof (proj1 (Forall_forall _ _) Hall i Hin). lia.
Qed.

Lemma seeds_strictly_increase_witness :
  StronglySorted Z.lt (ids_for "1" (seeds (H := Decimal64.builtins) known_and_new))
  /\ NoDup (ids_for "1" (seeds (H := Decimal64.builtins) known_and_new)).
Proof.
  exact (proj2 (seeds_strictly_increase (H := Decimal64.builtins))
           known_and_new known_and_new "1"%string eq_refl).
Defined.

End TrainFixedFacts.

(** ** Facts on binary64 numbers

    Order and arithmetic facts about [PrimFloat], from the specification of
    its operations on [spec_float]. *)
Module Binary64Facts.
Import Binary64.

Lemma SFcompare_rank (x y : spec_float) (c : comparison) :
  SFcompare x y = Some c ->
  match c with
  | Lt => lt3 (rank x) (rank y)
  | Eq => rank x = rank y
  | Gt => lt3 (rank y) (rank x)
  end.
Proof.
  unfold lt3.
  destruct x as [sx|sx| |sx mx ex], y as [sy|sy| |sy my ey]; simpl;
    try discriminate; intros [= <-];
    try (destruct sx); try (destruct sy); simpl; try lia; try reflexivity.
  - destruct (Z.compare_spec ex ey) as [E|E|E]; simpl; try lia.
    subst ey. change (Pos.compare_cont Eq mx my) with (Pos.compare mx my).
    destruct (Pos.compare_spec mx my) as [E|E|E]; simpl; try lia.
    now subst.
  - destruct (Z.compare_spec ex ey) as [E|E|E]; simpl; try lia.
    subst ey. change (Pos.compare_cont Eq mx my) with (Pos.compare mx my).
    destruct (Pos.compare_spec mx my) as [E|E|E]; simpl; try lia.
    now subst.
Qed.

Lemma SFcompare_number (x y : spec_float) :
  x <> S754_nan -> y <> S754_nan -> exists c, SFcompare x y = Some c.
Proof.
  intros Hx Hy.
  destruct x as [sx|sx| |sx mx ex], y as [sy|sy| |sy my ey]; simpl;
    try congruence; eexists; reflexivity.
Qed.

Lemma lt3_irrefl (a : Z * Z * Z) : ~ lt3 a a.
Proof. unfold lt3. lia. Qed.

Lemma lt3_asym (a b : Z * Z * Z) : lt3 a b -> ~ lt3 b a.
Proof. unfold lt3. lia. Qed.

Lemma ltb_lt (x y : float) : (x <? y)%float = true -> lt x y.
Proof.
  rewrite ltb_spec. unfold SFltb, lt, rk.
  destruct (SFcompare (Prim2SF x) (Prim2SF y)) as [[| |]|] eqn:E; try discriminate.
  intros _. exact (SFcompare_rank _ _ _ E).
Qed.

Lemma leb_le (x y : float) : (x <=? y)%float = true -> le x y.
Proof.
  rewrite leb_spec. unfold SFleb, le, rk.
  destruct (SFcompare (Prim2SF x) (Prim2SF y)) as [[| |]|] eqn:E; try discriminate;
    intros _; pose proof (SFcompare_rank _ _ _ E) as Hr; simpl in Hr; auto.
Qed.

Lemma le_leb (x y : float) :
  number x -> number y -> le x y -> (x <=? y)%float = true.
Proof.
  intros Hx Hy Hle. rewrite leb_spec. unfold SFleb.
  destruct (SFcompare_number _ _ Hx Hy) as [c E]. rewrite E.
  pose proof (SFcompare_rank _ _ _ E) as Hr. unfold le, rk in Hle.
  destruct c; try reflexivity.
  destruct Hle as [Hlt|Heq].
  - now apply lt3_asym in Hr.
  - rewrite Heq in Hr. now apply lt3_irrefl in Hr.
Qed.

(** A comparison that holds is between numbers. *)
Lemma ltb_number (x y : float) : (x <? y)%float = true -> number x /\ number y.
Proof.
  rewrite ltb_spec. unfold SFltb, number.
  destruct (Prim2SF x), (Prim2SF y); simpl; try discriminate;
    intros _; split; discriminate.
Qed.

Lemma leb_number (x y : float) : (x <=? y)%float = true -> number x /\ number y.
Proof.
  rewrite leb_spec. unfold SFleb, number.
  destruct (Prim2SF x), (Prim2SF y); simpl; try discriminate;
    intros _; split; discriminate.
Qed.

Lemma ltb_leb (x y : float) : (x <? y)%float = true -> (x <=? y)%float = true.
Proof.
  intros Hlt. destruct (ltb_number _ _ Hlt) as [Hx Hy].
  apply le_leb; try assumption. left. now apply ltb_lt.
Qed.

Lemma ltb_not_leb (x y : float) : (x <? y)%float = true -> (y <=? x)%float = false.
Proof.
  intros Hlt. destruct (y <=? x)%float eqn:E; [|reflexivity].
  apply ltb_lt in Hlt. apply leb_le in E. unfold lt, le in *.
  destruct E as [E|E].
  - now apply lt3_asym in E.
  - rewrite E in Hlt. now apply lt3_irrefl in Hlt.
Qed.

Lemma not_leb_ltb (x y : float) :
  number x -> number y -> (y <=? x)%float = false -> (x <? y)%float = true.
Proof.
  intros Hx Hy Hle. rewrite ltb_spec. rewrite leb_spec in Hle.
  unfold SFltb. unfold SFleb in Hle.
  destruct (SFcompare_number _ _ Hx Hy) as [c E]. rewrite E.
  destruct (SFcompare_number _ _ Hy Hx) as [c' E']. rewrite E' in Hle.
  pose proof (SFcompare_rank _ _ _ E) as Hr.
  pose proof (SFcompare_rank _ _ _ E') as Hr'.
  destruct c, c'; try discriminate; try reflexivity; simpl in *.
  - rewrite Hr in Hr'. now apply lt3_irrefl in Hr'.
  - now apply lt3_asym in Hr.
Qed.

Lemma trichotomy (x y : float) :
  number x -> number y ->
  (x <? y)%float = false -> (y <? x)%float = false -> rk x = rk y.
Proof.
  intros Hx Hy. rewrite !ltb_spec. unfold SFltb, rk.
  destruct (SFcompare_number _ _ Hx Hy) as [c E].
  destruct (SFcompare_number _ _ Hy Hx) as [c' E'].
  rewrite E, E'.
  pose proof (SFcompare_rank _ _ _ E) as Hr.
  pose proof (SFcompare_rank _ _ _ E') as Hr'.
  destruct c, c'; try discriminate; intros _ _; try assumption; try (now symmetry).
  now apply lt3_asym in Hr.
Qed.

Lemma leb_rank (a a' b b' : float) :
  number a -> number a' -> number b -> number b' ->
  rk a = rk a' -> rk b = rk b' -> (a <=? b)%float = (a' <=? b')%float.
Proof.
  intros Ha Ha' Hb Hb' Ea Eb.
  destruct (a <=? b)%float eqn:E, (a' <=? b')%float eqn:E'; try reflexivity.
  - apply leb_le in E. unfold le in E. rewrite Ea, Eb in E.
    now rewrite (le_leb a' b' Ha' Hb' E) in E'.
  - apply leb_le in E'. unfold le in E'. rewrite <- Ea, <- Eb in E'.
    now rewrite (le_leb a b Ha Hb E') in E.
Qed.

(** Numbers at the same place are equal or are the two zeros. *)
Lemma same_place (x y : float) :
  number x -> number y -> rk x = rk y ->
  x = y \/ (exists s s', Prim2SF x = S754_zero s /\ Prim2SF y = S754_zero s').
Proof.
  unfold number, rk. intros Hx Hy E.
  destruct (Prim2SF x) as [s|s| |s m e] eqn:Ex;
    destruct (Prim2SF y) as [s'|s'| |s' m' e'] eqn:Ey;
    try congruence;
    try (destruct s; discriminate); try (destruct s'; discriminate);
    try (destruct s, s'; discriminate).
  - right. now exists s, s'.
  - left. apply Prim2SF_inj. rewrite Ex, Ey.
    destruct s, s'; try discriminate; reflexivity.
  - left. apply Prim2SF_inj. rewrite Ex, Ey.
    destruct s, s'; simpl in E; try discriminate; injection E as E1 E2;
      f_equal; lia.
Qed.

Lemma sub_same (a a' b b' : float) :
  number a -> number a' -> number b -> number b' ->
  rk a = rk a' -> rk b = rk b' -> (a <? b)%float = true ->
  (b - a = b' - a')%float.
Proof.
  intros Ha Ha' Hb Hb' Ea Eb Hlt.
  destruct (same_place a a' Ha Ha' Ea) as [<-|[sa [sa' [Za Za']]]];
    destruct (same_place b b' Hb Hb' Eb) as [<-|[sb [sb' [Zb Zb']]]];
    try reflexivity.
  - apply Prim2SF_inj. rewrite !sub_spec, Zb, Zb'.
    rewrite ltb_spec, Zb in Hlt. unfold SFltb in Hlt.
    destruct (Prim2SF a) as [s|s| |s m e]; simpl in Hlt; try discriminate;
      reflexivity.
  - apply Prim2SF_inj. rewrite !sub_spec, Za, Za'.
    rewrite ltb_spec, Za in Hlt. unfold SFltb in Hlt.
    destruct (Prim2SF b) as [s|s| |s m e]; simpl in Hlt; try discriminate;
      reflexivity.
  - rewrite ltb_spec, Za, Zb in Hlt. discriminate.
Qed.

(** *** Arithmetic *)
Lemma fexp_value (k : Z) : fexp prec emax k = Z.max (k - 53) (-1074).
Proof. reflexivity. Qed.

Lemma shl_align_same (m : positive) (e : Z) : shl_align m e e = (m, e).
Proof. unfold shl_align. now rewrite Z.sub_diag. Qed.

Lemma shl_align_up (m : positive) (e : Z) : shl_align m e (e + 1) = (m, e).
Proof. unfold shl_align. now replace (e + 1 - e)%Z with 1%Z by lia. Qed.

Lemma shl_align_down (m : positive) (e : Z) : shl_align m (e + 1) e = ((m~0)%positive, e).
Proof. unfold shl_align. now replace (e - (e + 1))%Z with (-1)%Z by lia. Qed.

Lemma binary_round_aux_canonical (s : bool) (m : positive) (e : Z) :
  canonical_mantissa prec emax m e = true -> (e <=? emax - prec)%Z = true ->
  binary_round_aux prec emax s (Z.pos m) e loc_Exact = S754_finite s m e.
Proof.
  intros Hc He. unfold canonical_mantissa in Hc. apply Z.eqb_eq in Hc.
  unfold binary_round_aux, shr_fexp. simpl Zdigits2.
  rewrite Hc, Z.sub_diag.
  cbn [shr shr_record_of_loc shr_m shr_r shr_s loc_of_shr_record
       round_nearest_even Zdigits2].
  rewrite Hc, Z.sub_diag.
  cbn [shr shr_m]. now rewrite He.
Qed.

Lemma binary_round_canonical (s : bool) (m : positive) (e : Z) :
  canonical_mantissa prec emax m e = true -> (e <=? emax - prec)%Z = true ->
  binary_round prec emax s m e = S754_finite s m e.
Proof.
  intros Hc He. unfold binary_round.
  pose proof Hc as Hc'. unfold canonical_mantissa in Hc'. apply Z.eqb_eq in Hc'.
  rewrite Hc', shl_align_same. now apply binary_round_aux_canonical.
Qed.

Lemma SF_double (m : positive) (e : Z) :
  SF64add (S754_finite false m e) (S754_finite false m e)
  = binary_round prec emax false (m~0) e.
Proof.
  unfold SF64add, SFadd. rewrite Z.min_id, shl_align_same.
  cbn [fst cond_Zopp]. change (Z.pos m + Z.pos m)%Z with (Z.pos (m + m)).
  now rewrite Pos.add_diag.
Qed.

Lemma SF_double_cases (m : positive) (e : Z) :
  bounded prec emax m e = true ->
  SF64add (S754_finite false m e) (S754_finite false m e)
  = (if (Z.pos (digits2_pos m) <? 53)%Z then S754_finite false (m~0) e
     else if (e + 1 <=? emax - prec)%Z then S754_finite false m (e + 1)
          else S754_infinity false).
Proof.
  intros Hb. unfold bounded in Hb. apply andb_prop in Hb as [Hc He].
  pose proof Hc as Hc'. unfold canonical_mantissa in Hc'. apply Z.eqb_eq in Hc'.
  rewrite fexp_value in Hc'.
  rewrite SF_double. unfold binary_round.
  assert (Hd : Z.pos (digits2_pos m~0) = (Z.pos (digits2_pos m) + 1)%Z).
  { simpl digits2_pos. lia. }
  rewrite Hd, fexp_value.
  destruct (Z.pos (digits2_pos m) <? 53)%Z eqn:E.
  - apply Z.ltb_lt in E.
    replace (Z.max (Z.pos (digits2_pos m) + 1 + e - 53) (-1074)) with e by lia.
    rewrite shl_align_same.
    apply binary_round_aux_canonical; [|exact He].
    unfold canonical_mantissa. rewrite Hd, fexp_value. apply Z.eqb_eq. lia.
  - apply Z.ltb_ge in E.
    replace (Z.max (Z.pos (digits2_pos m) + 1 + e - 53) (-1074)) with (e + 1)%Z by lia.
    rewrite shl_align_up.
    unfold binary_round_aux, shr_fexp. cbn [Zdigits2].
    rewrite Hd, fexp_value.
    replace (Z.max (Z.pos (digits2_pos m) + 1 + e - 53) (-1074) - e)%Z with 1%Z by lia.
    cbn [shr shr_record_of_loc iter_pos shr_1 shr_m shr_r shr_s orb
         loc_of_shr_record round_nearest_even Zdigits2].
    rewrite fexp_value.
    replace (Z.max (Z.pos (digits2_pos m) + (e + 1) - 53) (-1074) - (e + 1))%Z
      with 0%Z by lia.
    cbn [shr shr_m]. reflexivity.
Qed.

Lemma SF_sub_double (m : positive) (e : Z) :
  bounded prec emax m e = true ->
  SF64add (S754_finite false m e) (S754_finite false m e) <> S754_infinity false ->
  SF64sub (SF64add (S754_finite false m e) (S754_finite false m e))
          (S754_finite false m e)
  = S754_finite false m e.
Proof.
  intros Hb. rewrite (SF_double_cases m e Hb).
  unfold bounded in Hb. apply andb_prop in Hb as [Hc He].
  destruct (Z.pos (digits2_pos m) <? 53)%Z.
  - intros _. unfold SF64sub, SFsub. rewrite Z.min_id, !shl_align_same.
    cbn [fst cond_Zopp].
    replace (Z.pos m~0 - Z.pos m)%Z with (Z.pos m) by lia.
    cbn [binary_normalize]. now apply binary_round_canonical.
  - destruct (e + 1 <=? emax - prec)%Z; [|congruence].
    intros _. unfold SF64sub, SFsub.
    replace (Z.min (e + 1) e) with e by lia.
    rewrite shl_align_down, shl_align_same. cbn [fst cond_Zopp].
    replace (Z.pos m~0 - Z.pos m)%Z with (Z.pos m) by lia.
    cbn [binary_normalize]. now apply binary_round_canonical.
Qed.

Lemma SFadd_comm (x y : spec_float) : SF64add x y = SF64add y x.
Proof.
  unfold SF64add, SFadd.
  destruct x as [sx|sx| |sx mx ex], y as [sy|sy| |sy my ey];
    try reflexivity;
    try (destruct sx, sy; reflexivity).
  rewrite (Z.min_comm ey ex), Z.add_comm. reflexivity.
Qed.

Lemma add_comm (x y : float) : (x + y = y + x)%float.
Proof.
  apply Prim2SF_inj. rewrite !add_spec. apply SFadd_comm.
Qed.

Lemma SFdiv_self (s : bool) (m : positive) (e : Z) :
  SF64div (S754_finite s m e) (S754_finite s m e) = Prim2SF 1.
Proof.
  unfold SF64div, SFdiv, SFdiv_core_binary.
  replace (Zdigits2 (Z.pos m) + e - (Zdigits2 (Z.pos m) + e))%Z with 0%Z by lia.
  rewrite Z.sub_diag.
  change (Z.min (fexp prec emax 0) 0) with (-53)%Z.
  change (0 - -53)%Z with 53%Z. cbv iota.
  rewrite Z.shiftl_mul_pow2 by lia.
  pose proof (Z.div_eucl_eq (Z.pos m * 2 ^ 53) (Z.pos m)) as Heq.
  assert (Hq : (Z.pos m * 2 ^ 53 / Z.pos m = 2 ^ 53)%Z).
  { rewrite Z.mul_comm. apply Z.div_mul. lia. }
  assert (Hr : ((Z.pos m * 2 ^ 53) mod Z.pos m = 0)%Z).
  { rewrite Z.mul_comm. apply Z.mod_mul. lia. }
  unfold Z.div, Z.modulo in Hq, Hr.
  destruct (Z.div_eucl (Z.pos m * 2 ^ 53) (Z.pos m)) as [q r].
  simpl in Hq, Hr. subst q r.
  replace (new_location (Z.pos m) 0) with loc_Exact
    by (unfold new_location; destruct (Z.even (Z.pos m)); reflexivity).
  destruct s; vm_compute; reflexivity.
Qed.

Lemma positive_cases (x : float) :
  (0 <? x)%float = true ->
  Prim2SF x = S754_infinity false
  \/ exists m e, Prim2SF x = S754_finite false m e.
Proof.
  rewrite ltb_spec. change (Prim2SF 0) with (S754_zero false).
  unfold SFltb. destruct (Prim2SF x) as [s|s| |s m e]; simpl; try discriminate.
  - destruct s; [discriminate|]. now left.
  - destruct s; [discriminate|]. right. now exists m, e.
Qed.

Lemma below_infinity (x : float) :
  (x <? infinity)%float = true -> Prim2SF x <> S754_infinity false.
Proof.
  rewrite ltb_spec. change (Prim2SF infinity) with (S754_infinity false).
  intros Hlt E. rewrite E in Hlt. discriminate.
Qed.

Lemma sub_double (x : float) :
  (0 <? x)%float = true -> (x + x <? infinity)%float = true ->
  (x + x - x = x)%float.
Proof.
  intros Hpos Hfin. apply below_infinity in Hfin. rewrite add_spec in Hfin.
  apply Prim2SF_inj. rewrite sub_spec, add_spec.
  pose proof (Prim2SF_valid x) as Hv.
  destruct (positive_cases x Hpos) as [E|[m [e E]]]; rewrite E in *.
  - now elim Hfin.
  - now apply SF_sub_double.
Qed.

Lemma le_trans (x y z : float) : le x y -> le y z -> le x z.
Proof.
  unfold le. intros [H|H] [H'|H'].
  - left. unfold lt3 in *. lia.
  - left. now rewrite <- H'.
  - left. now rewrite H.
  - right. congruence.
Qed.

Lemma positive_finite (x : float) :
  (0 <? x)%float = true -> (x + x <? infinity)%float = true ->
  exists m e, Prim2SF x = S754_finite false m e.
Proof.
  intros Hpos Hfin. apply below_infinity in Hfin. rewrite add_spec in Hfin.
  destruct (positive_cases x Hpos) as [E|E]; [|exact E].
  rewrite E in Hfin. now elim Hfin.
Qed.

Lemma div_double (x : float) :
  (0 <? x)%float = true -> (x + x <? infinity)%float = true -> (x / x = 1)%float.
Proof.
  intros Hpos Hfin. destruct (positive_finite x Hpos Hfin) as [m [e E]].
  apply Prim2SF_inj. rewrite div_spec, E. apply SFdiv_self.
Qed.

Lemma positive_nonzero (x : float) : (0 <? x)%float = true -> (x =? 0)%float = false.
Proof.
  intros Hpos. rewrite eqb_spec. change (Prim2SF 0) with (S754_zero false).
  destruct (positive_cases x Hpos) as [E|[m [e E]]]; rewrite E; reflexivity.
Qed.

Lemma eqb_refl (x : float) : number x -> (x =? x)%float = true.
Proof.
  intros Hx. rewrite eqb_spec. unfold SFeqb.
  destruct (SFcompare_number _ _ Hx Hx) as [c E]. rewrite E.
  pose proof (SFcompare_rank _ _ _ E) as Hr.
  destruct c; [reflexivity| |]; now apply lt3_irrefl in Hr.
Qed.

End Binary64Facts.

(** ** iou_calculator.py: properties of AgreementScorer *)
Module IoUFacts.
Import Py IoU.

(** *** Bounds *)
Lemma clamp_bounds (iou : float) :
  (0 <=? py_max 0 (py_min 1 iou))%float = true
  /\ (py_max 0 (py_min 1 iou) <=? 1)%float = true.
Proof.
  unfold py_max, py_min.
  destruct (iou <? 1)%float eqn:E1.
  - destruct (0 <? iou)%float eqn:E0.
    + split; now apply Binary64Facts.ltb_leb.
    + split; reflexivity.
  - split; reflexivity.
Qed.

(** A valid box holds four floats, its corners in order. *)
Lemma valid_floats (b : box) :
  is_valid_box b = true ->
  exists x1 y1 x2 y2 : float,
    b = [PyFloat x1; PyFloat y1; PyFloat x2; PyFloat y2]
    /\ ((x2 <=? x1) || (y2 <=? y1))%float = false.
Proof.
  destruct b as [|c1 [|c2 [|c3 [|c4 [|? ?]]]]]; try discriminate.
  destruct c1 as [x1|], c2 as [y1|], c3 as [x2|], c4 as [y2|]; try discriminate.
  cbn. destruct ((x2 <=? x1) || (y2 <=? y1))%float eqn:E; [discriminate|].
  intros _. now exists x1, y1, x2, y2.
Qed.

Lemma floats_valid (x1 y1 x2 y2 : float) :
  is_valid_box [PyFloat x1; PyFloat y1; PyFloat x2; PyFloat y2]
  = negb ((x2 <=? x1) || (y2 <=? y1))%float.
Proof. cbn. now destruct ((x2 <=? x1) || (y2 <=? y1))%float. Qed.

(** Line 18-20. *)
Lemma calculate_spatial_iou_invalid (box1 box2 : box) :
  is_valid_box box1 = false \/ is_valid_box box2 = false ->
  calculate_spatial_iou box1 box2 = 0%float.
Proof.
  intros Hv. unfold calculate_spatial_iou.
  destruct box1 as [|x1_1 [|y1_1 [|x2_1 [|y2_1 [|? ?]]]]]; try reflexivity;
    destruct box2 as [|x1_2 [|y1_2 [|x2_2 [|y2_2 [|? ?]]]]]; try reflexivity.
  destruct Hv as [-> | ->]; [reflexivity | now rewrite orb_true_r].
Qed.

(** Lines 21-37, on two valid boxes. *)
Lemma calculate_spatial_iou_valid (x1_1 y1_1 x2_1 y2_1 x1_2 y1_2 x2_2 y2_2 : float) :
  is_valid_box [PyFloat x1_1; PyFloat y1_1; PyFloat x2_1; PyFloat y2_1] = true ->
  is_valid_box [PyFloat x1_2; PyFloat y1_2; PyFloat x2_2; PyFloat y2_2] = true ->
  calculate_spatial_iou [PyFloat x1_1; PyFloat y1_1; PyFloat x2_1; PyFloat y2_1]
                        [PyFloat x1_2; PyFloat y1_2; PyFloat x2_2; PyFloat y2_2]
  = let x1_inter := py_max x1_1 x1_2 in
    let y1_inter := py_max y1_1 y1_2 in
    let x2_inter := py_min x2_1 x2_2 in
    let y2_inter := py_min y2_1 y2_2 in
    if ((x2_inter <=? x1_inter) || (y2_inter <=? y1_inter))%float then 0%float
    else
      let intersection_area := ((x2_inter - x1_inter) * (y2_inter - y1_inter))%float in
      let box1_area := ((x2_1 - x1_1) * (y2_1 - y1_1))%float in
      let box2_area := ((x2_2 - x1_2) * (y2_2 - y1_2))%float in
      let union_area := (box1_area + box2_area - intersection_area)%float in
      if (union_area =? 0)%float then 0%float
      else py_max 0%float (py_min 1%float (intersection_area / union_area)%float).
Proof.
  intros V1 V2. unfold calculate_spatial_iou. rewrite V1, V2. reflexivity.
Qed.

Lemma calculate_spatial_iou_bounds (box1 box2 : box) :
  (0 <=? calculate_spatial_iou box1 box2)%float = true
  /\ (calculate_spatial_iou box1 box2 <=? 1)%float = true.
Proof.
  destruct (is_valid_box box1) eqn:V1;
    [|rewrite calculate_spatial_iou_invalid by (now left); split; reflexivity].
  destruct (is_valid_box box2) eqn:V2;
    [|rewrite calculate_spatial_iou_invalid by (now right); split; reflexivity].
  destruct (valid_floats box1 V1) as (x1_1 & y1_1 & x2_1 & y2_1 & -> & _).
  destruct (valid_floats box2 V2) as (x1_2 & y1_2 & x2_2 & y2_2 & -> & _).
  rewrite (calculate_spatial_iou_valid _ _ _ _ _ _ _ _ V1 V2). cbv zeta.
  destruct (_ || _); [split; reflexivity|].
  destruct (_ =? 0)%float; [split; reflexivity|].
  apply clamp_bounds.
Qed.

(** *** Symmetry, identical boxes, empty intersections *)

Section Geometry.
Import Binary64 Binary64Facts.
Lemma py_max_number (a b : float) : number a -> number b -> number (py_max a b).
Proof. intros Ha Hb. unfold py_max. now destruct (a <? b)%float. Qed.

Lemma py_min_number (a b : float) : number a -> number b -> number (py_min a b).
Proof. intros Ha Hb. unfold py_min. now destruct (b <? a)%float. Qed.

Lemma py_max_sym (a b : float) :
  number a -> number b -> rk (py_max a b) = rk (py_max b a).
Proof.
  intros Ha Hb. unfold py_max.
  destruct (a <? b)%float eqn:E, (b <? a)%float eqn:E'; try reflexivity.
  - apply ltb_lt in E. apply ltb_lt in E'. now apply lt3_asym in E.
  - now apply trichotomy.
Qed.

Lemma py_min_sym (a b : float) :
  number a -> number b -> rk (py_min a b) = rk (py_min b a).
Proof.
  intros Ha Hb. unfold py_min.
  destruct (a <? b)%float eqn:E, (b <? a)%float eqn:E'; try reflexivity.
  - apply ltb_lt in E. apply ltb_lt in E'. now apply lt3_asym in E.
  - now apply trichotomy.
Qed.

(** One axis of the intersection, with the boxes in either order. *)
Lemma extent_sym (lo1 hi1 lo2 hi2 : float) :
  number lo1 -> number hi1 -> number lo2 -> number hi2 ->
  (py_min hi1 hi2 <=? py_max lo1 lo2)%float
  = (py_min hi2 hi1 <=? py_max lo2 lo1)%float
  /\ ((py_min hi1 hi2 <=? py_max lo1 lo2)%float = false ->
      (py_min hi1 hi2 - py_max lo1 lo2 = py_min hi2 hi1 - py_max lo2 lo1)%float).
Proof.
  intros Hl1 Hh1 Hl2 Hh2.
  pose proof (py_max_number lo1 lo2 Hl1 Hl2) as Nl.
  pose proof (py_max_number lo2 lo1 Hl2 Hl1) as Nl'.
  pose proof (py_min_number hi1 hi2 Hh1 Hh2) as Nh.
  pose proof (py_min_number hi2 hi1 Hh2 Hh1) as Nh'.
  pose proof (py_max_sym lo1 lo2 Hl1 Hl2) as El.
  pose proof (py_min_sym hi1 hi2 Hh1 Hh2) as Eh.
  split.
  - now apply leb_rank.
  - intros Hgap. apply sub_same; try assumption.
    now apply not_leb_ltb.
Qed.

Lemma numbers4 (a b c d : float) :
  numbers [PyFloat a; PyFloat b; PyFloat c; PyFloat d] ->
  number a /\ number b /\ number c /\ number d.
Proof.
  intros Hn. inversion Hn as [|? ? Ha Hn1]; subst.
  inversion Hn1 as [|? ? Hb Hn2]; subst.
  inversion Hn2 as [|? ? Hc Hn3]; subst.
  inversion Hn3 as [|? ? Hd _]; subst. auto.
Qed.

Lemma calculate_spatial_iou_sym (box1 box2 : box) :
  numbers box1 -> numbers box2 ->
  calculate_spatial_iou box1 box2 = calculate_spatial_iou box2 box1.
Proof.
  intros N1 N2.
  destruct (is_valid_box box1) eqn:V1;
    [|rewrite !calculate_spatial_iou_invalid by auto; reflexivity].
  destruct (is_valid_box box2) eqn:V2;
    [|rewrite !calculate_spatial_iou_invalid by auto; reflexivity].
  destruct (valid_floats box1 V1) as (x1_1 & y1_1 & x2_1 & y2_1 & -> & _).
  destruct (valid_floats box2 V2) as (x1_2 & y1_2 & x2_2 & y2_2 & -> & _).
  rewrite (calculate_spatial_iou_valid _ _ _ _ _ _ _ _ V1 V2).
  rewrite (calculate_spatial_iou_valid _ _ _ _ _ _ _ _ V2 V1).
  apply numbers4 in N1 as (Nx1 & Ny1 & Nx2 & Ny2).
  apply numbers4 in N2 as (Mx1 & My1 & Mx2 & My2).
  cbv zeta.
  destruct (extent_sym x1_1 x2_1 x1_2 x2_2 Nx1 Nx2 Mx1 Mx2) as [Ex Dx].
  destruct (extent_sym y1_1 y2_1 y1_2 y2_2 Ny1 Ny2 My1 My2) as [Ey Dy].
  rewrite <- Ex, <- Ey.
  destruct (py_min x2_1 x2_2 <=? py_max x1_1 x1_2)%float; [reflexivity|].
  destruct (py_min y2_1 y2_2 <=? py_max y1_1 y1_2)%float; [reflexivity|].
  simpl orb. cbv iota.
  rewrite <- (Dx eq_refl), <- (Dy eq_refl).
  rewrite (add_comm ((x2_2 - x1_2) * (y2_2 - y1_2))%float).
  reflexivity.
Qed.

Lemma py_max_self (a : float) : py_max a a = a.
Proof. unfold py_max. now destruct (a <? a)%float. Qed.

Lemma py_min_self (a : float) : py_min a a = a.
Proof. unfold py_min. now destruct (a <? a)%float. Qed.

Lemma calculate_spatial_iou_self (a : box) :
  non_degenerate a ->
  (0 <? area a)%float = true -> (area a + area a <? infinity)%float = true ->
  calculate_spatial_iou a a = 1%float.
Proof.
  destruct a as [|[x1|] [|[y1|] [|[x2|] [|[y2|] [|? ?]]]]]; try contradiction.
  intros [Hx Hy] Hpos Hfin. unfold area in Hpos, Hfin.
  assert (V : is_valid_box [PyFloat x1; PyFloat y1; PyFloat x2; PyFloat y2] = true).
  { rewrite floats_valid, (ltb_not_leb _ _ Hx), (ltb_not_leb _ _ Hy). reflexivity. }
  rewrite (calculate_spatial_iou_valid _ _ _ _ _ _ _ _ V V). cbv zeta.
  rewrite !py_max_self, !py_min_self.
  rewrite (ltb_not_leb _ _ Hx), (ltb_not_leb _ _ Hy). simpl orb. cbv iota.
  rewrite (sub_double _ Hpos Hfin), (positive_nonzero _ Hpos).
  rewrite (div_double _ Hpos Hfin). reflexivity.
Qed.

Lemma calculate_spatial_iou_degenerate (a b : box) :
  degenerate a \/ degenerate b -> calculate_spatial_iou a b = 0%float.
Proof.
  intros Hd. apply calculate_spatial_iou_invalid.
  assert (Hinv : forall c : box, degenerate c -> is_valid_box c = false).
  { intros c Hc.
    destruct c as [|[x1|] [|[y1|] [|[x2|] [|[y2|] [|? ?]]]]]; try contradiction.
    rewrite floats_valid. unfold degenerate in Hc.
    destruct Hc as [E|E]; rewrite E; rewrite ?orb_true_r; reflexivity. }
  destruct Hd as [Hd|Hd]; [left | right]; now apply Hinv.
Qed.

Lemma py_min_le_l (a b : float) : number a -> number b -> le (py_min a b) a.
Proof.
  intros Ha Hb. unfold py_min. destruct (b <? a)%float eqn:E.
  - left. now apply ltb_lt.
  - now right.
Qed.

Lemma py_min_le_r (a b : float) : number a -> number b -> le (py_min a b) b.
Proof.
  intros Ha Hb. unfold py_min. destruct (b <? a)%float eqn:E.
  - now right.
  - destruct (a <? b)%float eqn:E'.
    + left. now apply ltb_lt.
    + right. now apply trichotomy.
Qed.

Lemma py_max_le_l (a b : float) : number a -> number b -> le a (py_max a b).
Proof.
  intros Ha Hb. unfold py_max. destruct (a <? b)%float eqn:E.
  - left. now apply ltb_lt.
  - now right.
Qed.

Lemma py_max_le_r (a b : float) : number a -> number b -> le b (py_max a b).
Proof.
  intros Ha Hb. unfold py_max. destruct (a <? b)%float eqn:E.
  - now right.
  - destruct (b <? a)%float eqn:E'.
    + left. now apply ltb_lt.
    + right. now apply trichotomy.
Qed.

(** Apart on one axis, in either order: the intersection test fires. *)
Lemma extent_apart (lo1 hi1 lo2 hi2 : float) :
  number lo1 -> number hi1 -> number lo2 -> number hi2 ->
  (hi1 <=? lo2)%float = true \/ (hi2 <=? lo1)%float = true ->
  (py_min hi1 hi2 <=? py_max lo1 lo2)%float = true.
Proof.
  intros Hl1 Hh1 Hl2 Hh2 Hapart.
  apply le_leb; [now apply py_min_number | now apply py_max_number |].
  destruct Hapart as [E|E]; apply leb_le in E.
  - apply (le_trans _ hi1); [now apply py_min_le_l|].
    apply (le_trans _ lo2); [exact E | now apply py_max_le_r].
  - apply (le_trans _ hi2); [now apply py_min_le_r|].
    apply (le_trans _ lo1); [exact E | now apply py_max_le_l].
Qed.

Lemma calculate_spatial_iou_disjoint (a b : box) :
  numbers a -> numbers b -> disjoint a b -> calculate_spatial_iou a b = 0%float.
Proof.
  intros Na Nb Hd.
  destruct (is_valid_box a) eqn:Va;
    [|now rewrite calculate_spatial_iou_invalid by auto].
  destruct (is_valid_box b) eqn:Vb;
    [|now rewrite calculate_spatial_iou_invalid by auto].
  destruct (valid_floats a Va) as (ax1 & ay1 & ax2 & ay2 & -> & _).
  destruct (valid_floats b Vb) as (bx1 & by1 & bx2 & by2 & -> & _).
  rewrite (calculate_spatial_iou_valid _ _ _ _ _ _ _ _ Va Vb).
  unfold disjoint in Hd.
  apply numbers4 in Na as (Nx1 & Ny1 & Nx2 & Ny2).
  apply numbers4 in Nb as (Mx1 & My1 & Mx2 & My2).
  cbv zeta.
  destruct Hd as [E|[E|[E|E]]].
  - now rewrite (extent_apart ax1 ax2 bx1 bx2) by auto.
  - now rewrite (extent_apart ax1 ax2 bx1 bx2) by auto.
  - rewrite (extent_apart ay1 ay2 by1 by2) by auto. now rewrite orb_true_r.
  - rewrite (extent_apart ay1 ay2 by1 by2) by auto. now rewrite orb_true_r.
Qed.

End Geometry.

(** C7 (amended). For boxes with no NaN coordinate the IoU is the same in
    either order; for all boxes it lies between 0.0 and 1.0; and a
    non-degenerate box has IoU 1.0 with itself when its area, as the script
    computes it, is greater than zero and twice the area is finite. *)
Theorem spatial_iou_properties :
  (forall a b : box,
      numbers a -> numbers b ->
      calculate_spatial_iou a b = calculate_spatial_iou b a
      /\ (calculate_spatial_iou a b =? calculate_spatial_iou b a)%float = true)
  /\ (forall a b : box,
      (0 <=? calculate_spatial_iou a b)%float = true
      /\ (calculate_spatial_iou a b <=? 1)%float = true)
  /\ (forall a : box,
      non_degenerate a ->
      (0 <? area a)%float = true ->
      (area a + area a <? infinity)%float = true ->
      calculate_spatial_iou a a = 1%float).
Proof.
  split; [|split].
  - intros a b Na Nb. rewrite (calculate_spatial_iou_sym a b Na Nb).
    split; [reflexivity|]. apply Binary64Facts.eqb_refl.
    exact (proj1 (Binary64Facts.leb_number _ _
                    (proj2 (calculate_spatial_iou_bounds b a)))).
  - apply calculate_spatial_iou_bounds.
  - apply calculate_spatial_iou_self.
Qed.

(** C7, counterexample: with a NaN coordinate the two orders give 1.0 and
    0.0; the tiny box is non-degenerate and has IoU 0.0 with itself, its
    area having underflowed to zero. *)
Lemma spatial_iou_nan_and_underflow :
  calculate_spatial_iou nan_box far_box = 1%float
  /\ calculate_spatial_iou far_box nan_box = 0%float
  /\ (calculate_spatial_iou nan_box far_box
      =? calculate_spatial_iou far_box nan_box)%float = false
  /\ non_degenerate tiny_box
  /\ calculate_spatial_iou tiny_box tiny_box = 0%float
  /\ (calculate_spatial_iou tiny_box tiny_box =? 1)%float = false.
Proof. repeat split; reflexivity. Qed.

Lemma test_boxes_numbers : numbers test_box /\ numbers test_box2.
Proof.
  split; repeat constructor; intros E; vm_compute in E; discriminate.
Qed.

Lemma spatial_iou_properties_witness :
  (calculate_spatial_iou test_box test_box2
   = calculate_spatial_iou test_box2 test_box
   /\ (calculate_spatial_iou test_box test_box2
       =? calculate_spatial_iou test_box2 test_box)%float = true)
  /\ calculate_spatial_iou test_box test_box = 1%float.
Proof.
  split.
  - exact (proj1 spatial_iou_properties test_box test_box2
             (proj1 test_boxes_numbers) (proj2 test_boxes_numbers)).
  - apply (proj2 (proj2 spatial_iou_properties) test_box).
    + split; reflexivity.
    + reflexivity.
    + reflexivity.
Defined.

(** C8 (amended). The IoU is 0.0, and nothing is raised, when either box is
    degenerate, when either list does not hold four coordinates, and when
    two boxes with no NaN coordinate do not overlap; the zero-width box has
    IoU 0.0 with every box. *)
Theorem spatial_iou_zero :
  (forall a b : box, degenerate a \/ degenerate b ->
                     calculate_spatial_iou a b = 0%float)
  /\ (forall a b : box, List.length a <> 4 \/ List.length b <> 4 ->
                        calculate_spatial_iou a b = 0%float)
  /\ (forall a b : box, numbers a -> numbers b -> disjoint a b ->
                        calculate_spatial_iou a b = 0%float)
  /\ (forall b : box, calculate_spatial_iou zero_width_box b = 0%float).
Proof.
  split; [|split; [|split]].
  - apply calculate_spatial_iou_degenerate.
  - intros a b Hlen. unfold calculate_spatial_iou.
    destruct a as [|ax1 [|ay1 [|ax2 [|ay2 [|? ?]]]]]; try reflexivity;
      destruct b as [|bx1 [|by1 [|bx2 [|by2 [|? ?]]]]]; try reflexivity.
    simpl in Hlen. destruct Hlen as [Hl|Hl]; now elim Hl.
  - apply calculate_spatial_iou_disjoint.
  - intros b. apply calculate_spatial_iou_degenerate. left. left. reflexivity.
Qed.

(** C8, counterexample: [nan_box] ends at 1 and [far_box] starts at 2, yet
    their IoU is 1.0. *)
Lemma spatial_iou_nan_disjoint :
  disjoint nan_box far_box
  /\ calculate_spatial_iou nan_box far_box = 1%float
  /\ (calculate_spatial_iou nan_box far_box =? 0)%float = false.
Proof.
  split; [|split]; try reflexivity. left. reflexivity.
Qed.

Lemma far_box_numbers : numbers far_box.
Proof. repeat constructor; intros E; vm_compute in E; discriminate. Qed.

Lemma spatial_iou_zero_witness :
  calculate_spatial_iou test_box far_box = 0%float.
Proof.
  apply (proj1 (proj2 (proj2 spatial_iou_zero)) test_box far_box).
  - exact (proj1 test_boxes_numbers).
  - exact far_box_numbers.
  - left. reflexivity.
Defined.

Lemma mask_self (r : annotation) :
  Binary64.number (timestamp r) -> mask r r = true.
Proof.
  intros Ht. unfold mask.
  now rewrite String.eqb_refl, (Binary64Facts.eqb_refl _ Ht), Z.eqb_refl.
Qed.

Lemma find_first {A : Type} (f : A -> bool) (P : list A) (r : A) (R : list A) :
  (forall p, In p P -> f p = false) -> f r = true ->
  find f (P ++ r :: R) = Some r.
Proof.
  intros HP Hr. induction P as [|p P IH]; simpl.
  - now rewrite Hr.
  - rewrite (HP p (or_introl eq_refl)). apply IH.
    intros q Hq. apply HP. now right.
Qed.

Lemma self_matches (P R : list annotation) :
  keys_distinct (P ++ R) ->
  Forall (fun r => Binary64.number (timestamp r)) R ->
  flat_map (match_row (P ++ R)) R = map self_entry R.
Proof.
  revert P. induction R as [|r R IH]; intros P Hk Ht; [reflexivity|].
  inversion Ht as [|? ? Hr Ht']; subst.
  simpl. unfold match_row at 1.
  rewrite find_first.
  - simpl. f_equal.
    change (P ++ r :: R) with (P ++ [r] ++ R).
    rewrite List.app_assoc. apply IH; [|exact Ht'].
    now rewrite <- List.app_assoc.
  - intros p Hp. apply In_nth_error in Hp as [i Hi].
    apply (Hk i (List.length P) p r).
    + apply nth_error_Some. congruence.
    + rewrite nth_error_app1; [exact Hi|]. apply nth_error_Some. congruence.
    + rewrite nth_error_app2 by lia. now rewrite Nat.sub_diag.
  - now apply mask_self.
Qed.

Lemma map_constant {A B : Type} (f : A -> B) (c : B) (l : list A) :
  Forall (fun a => f a = c) l -> map f l = repeat c (List.length l).
Proof.
  induction 1 as [|a l Ha _ IH]; [reflexivity|]. simpl. now rewrite Ha, IH.
Qed.

(** C9 (amended). For a table whose box columns are of dtype [float64],
    that is not empty, in which no row has the key of an earlier row, no
    timestamp is NaN and every box has IoU 1.0 with itself (non-degenerate,
    area above zero, twice the area finite), the report of the table
    against itself has [total_matches] equal to its length and, NumPy's
    mean of that many 1.0 being 1.0, [mean_spatial_iou] and
    [label_accuracy] equal to 1.0. *)
Theorem agreement_with_itself
    (np_mean np_median np_std : list float -> float) (min_iou_threshold : float)
    (rows : list annotation) :
  rows <> [] ->
  keys_distinct rows ->
  Forall (fun r => Binary64.number (timestamp r)) rows ->
  Forall (fun r => whole (box_of r)) rows ->
  np_mean (repeat 1%float (List.length rows)) = 1%float ->
  mean_spatial_iou
    (calculate_annotation_agreement np_mean np_median np_std min_iou_threshold
       rows rows None) = 1%float
  /\ label_accuracy
       (calculate_annotation_agreement np_mean np_median np_std min_iou_threshold
          rows rows None) = 1%float
  /\ total_matches
       (calculate_annotation_agreement np_mean np_median np_std min_iou_threshold
          rows rows None) = List.length rows.
Proof.
  intros Hne Hk Ht Hw Hmean.
  unfold calculate_annotation_agreement, filter_video, all_matches.
  pose proof (self_matches [] rows Hk Ht) as Hself. simpl app in Hself.
  rewrite Hself. clear Hself.
  destruct rows as [|r rest]; [now elim Hne|].
  set (rows := r :: rest) in *.
  change (map self_entry rows) with (self_entry r :: map self_entry rest).
  cbv iota zeta. cbn [mean_spatial_iou label_accuracy total_matches].
  change (self_entry r :: map self_entry rest) with (map self_entry rows).
  rewrite !List.map_map, List.length_map.
  rewrite (map_constant (fun x => spatial_iou (self_entry x)) 1%float rows).
  - rewrite (map_constant (fun x => float_of_bool (label_match (self_entry x)))
               1%float rows).
    + auto.
    + apply Forall_forall. intros x _. cbn [self_entry label_match].
      now rewrite Z.eqb_refl.
  - eapply Forall_impl; [|exact Hw].
    intros x (Hnd & Hpos & Hfin). cbn [self_entry spatial_iou].
    now apply calculate_spatial_iou_self.
Qed.

(** A box that holds a [numpy.int64] does not pass line 167. *)
Lemma int64_invalid (b : box) :
  Exists (fun c => isinstance_int_float c = false) b -> is_valid_box b = false.
Proof.
  intros Hex.
  destruct b as [|c1 [|c2 [|c3 [|c4 [|? ?]]]]]; try reflexivity.
  unfold is_valid_box.
  destruct (forallb isinstance_int_float [c1; c2; c3; c4]) eqn:E; [|reflexivity].
  apply Exists_exists in Hex as [c [Hin Hc]].
  rewrite (proj1 (forallb_forall _ _) E c Hin) in Hc. discriminate.
Qed.

(** C9, counterexample: the report of the empty table against itself has
    mean 0.0 and label accuracy 0.0; with a repeated key the second row is
    scored against the first. And the box that [iloc[0]] takes from a row
    of integer columns holds [numpy.int64] cells, is not valid and has IoU
    0.0 with every box, itself included. *)
Lemma agreement_empty_or_repeated :
  mean_spatial_iou
    (calculate_annotation_agreement mean_in_order mean_in_order mean_in_order 0.5
       [] [] None) = 0%float
  /\ label_accuracy
       (calculate_annotation_agreement mean_in_order mean_in_order mean_in_order 0.5
          [] [] None) = 0%float
  /\ mean_spatial_iou
       (calculate_annotation_agreement mean_in_order mean_in_order mean_in_order 0.5
          same_key_rows same_key_rows None) = 0.5%float
  /\ label_accuracy
       (calculate_annotation_agreement mean_in_order mean_in_order mean_in_order 0.5
          same_key_rows same_key_rows None) = 0.5%float
  /\ is_valid_box int64_box = false
  /\ (forall box1 : box, calculate_spatial_iou box1 int64_box = 0%float)
  /\ calculate_spatial_iou int64_box int64_box = 0%float.
Proof.
  repeat split; try reflexivity.
  intros box1. apply calculate_spatial_iou_invalid. right.
  apply int64_invalid. left. reflexivity.
Qed.

Lemma two_rows_fit :
  keys_distinct two_rows
  /\ Forall (fun r => Binary64.number (timestamp r)) two_rows
  /\ Forall (fun r => whole (box_of r)) two_rows.
Proof.
  split; [|split].
  - intros i j ri rj Hij Hi Hj.
    destruct i as [|[|i]], j as [|[|j]]; simpl in Hi, Hj; try lia;
      try discriminate; try (destruct j; discriminate);
      try (destruct i; discriminate).
    injection Hi as <-. injection Hj as <-. reflexivity.
  - repeat constructor; intros E; vm_compute in E; discriminate.
  - repeat constructor; reflexivity.
Qed.

Lemma agreement_with_itself_witness :
  mean_spatial_iou
    (calculate_annotation_agreement mean_in_order mean_in_order mean_in_order 0.5
       two_rows two_rows None) = 1%float
  /\ label_accuracy
       (calculate_annotation_agreement mean_in_order mean_in_order mean_in_order 0.5
          two_rows two_rows None) = 1%float
  /\ total_matches
       (calculate_annotation_agreement mean_in_order mean_in_order mean_in_order 0.5
          two_rows two_rows None) = 2.
Proof.
  apply (agreement_with_itself mean_in_order mean_in_order mean_in_order 0.5
           two_rows).
  - discriminate.
  - exact (proj1 two_rows_fit).
  - exact (proj1 (proj2 two_rows_fit)).
  - exact (proj2 (proj2 two_rows_fit)).
  - reflexivity.
Defined.

(** *** calculate_temporal_iou *)

Section Time.
Import Binary64 Binary64Facts.

Lemma calculate_temporal_iou_bounds (time1 time2 : interval) :
  (0 <=? calculate_temporal_iou time1 time2)%float = true
  /\ (calculate_temporal_iou time1 time2 <=? 1)%float = true.
Proof.
  unfold calculate_temporal_iou.
  destruct time1 as [|start1 [|end1 [|? ?]]]; try (split; reflexivity).
  destruct time2 as [|start2 [|end2 [|? ?]]]; try (split; reflexivity).
  destruct ((end1 <=? start1)%float || (end2 <=? start2)%float);
    [split; reflexivity|].
  cbv zeta.
  destruct (py_min end1 end2 <=? py_max start1 start2)%float; [split; reflexivity|].
  destruct (_ =? 0)%float; [split; reflexivity|].
  apply clamp_bounds.
Qed.

Lemma numbers2 (a b : float) : Forall number [a; b] -> number a /\ number b.
Proof.
  intros Hn. inversion Hn as [|? ? Ha Hn1]; subst.
  inversion Hn1 as [|? ? Hb _]; subst. auto.
Qed.

Lemma calculate_temporal_iou_sym (time1 time2 : interval) :
  Forall Binary64.number time1 -> Forall Binary64.number time2 ->
  calculate_temporal_iou time1 time2 = calculate_temporal_iou time2 time1.
Proof.
  intros N1 N2. unfold calculate_temporal_iou.
  destruct time1 as [|start1 [|end1 [|? ?]]];
    destruct time2 as [|start2 [|end2 [|? ?]]]; try reflexivity.
  apply numbers2 in N1 as (Ns1 & Ne1). apply numbers2 in N2 as (Ns2 & Ne2).
  rewrite (orb_comm (end2 <=? start2)%float).
  destruct ((end1 <=? start1)%float || (end2 <=? start2)%float); [reflexivity|].
  cbv zeta.
  destruct (extent_sym start1 end1 start2 end2 Ns1 Ne1 Ns2 Ne2) as [E D].
  rewrite <- E.
  destruct (py_min end1 end2 <=? py_max start1 start2)%float; [reflexivity|].
  rewrite <- (D eq_refl).
  rewrite (add_comm (end2 - start2)%float).
  reflexivity.
Qed.

Lemma calculate_temporal_iou_self (t : interval) :
  proper t ->
  (0 <? duration t)%float = true ->
  (duration t + duration t <? infinity)%float = true ->
  calculate_temporal_iou t t = 1%float.
Proof.
  destruct t as [|start [|end_ [|? ?]]]; try contradiction.
  intros Hp Hpos Hfin. unfold proper in Hp. unfold duration in Hpos, Hfin.
  unfold calculate_temporal_iou.
  rewrite (ltb_not_leb _ _ Hp). simpl orb. cbv iota zeta.
  rewrite py_max_self, py_min_self, (ltb_not_leb _ _ Hp).
  rewrite (sub_double _ Hpos Hfin), (positive_nonzero _ Hpos).
  rewrite (div_double _ Hpos Hfin). reflexivity.
Qed.

Lemma calculate_temporal_iou_improper (s t : interval) :
  improper s \/ improper t -> calculate_temporal_iou s t = 0%float.
Proof.
  intros Hd. unfold calculate_temporal_iou.
  destruct s as [|start1 [|end1 [|? ?]]]; try reflexivity;
    destruct t as [|start2 [|end2 [|? ?]]]; try reflexivity.
  unfold improper in Hd.
  destruct Hd as [E|E]; rewrite E; rewrite ?orb_true_r; reflexivity.
Qed.

Lemma calculate_temporal_iou_apart (s t : interval) :
  Forall Binary64.number s -> Forall Binary64.number t -> apart s t -> calculate_temporal_iou s t = 0%float.
Proof.
  unfold calculate_temporal_iou, apart.
  destruct s as [|start1 [|end1 [|? ?]]]; try reflexivity;
    destruct t as [|start2 [|end2 [|? ?]]]; try reflexivity.
  intros Ns Nt Ha.
  apply numbers2 in Ns as (Ns1 & Ne1). apply numbers2 in Nt as (Ns2 & Ne2).
  destruct (_ || _); [reflexivity|]. cbv zeta.
  now rewrite (extent_apart start1 end1 start2 end2) by auto.
Qed.

End Time.

(** X13. The temporal IoU lies between 0.0 and 1.0 whatever it is given; for
    intervals with no NaN bound it is the same in either order; and an
    interval with [start < end] has temporal IoU 1.0 with itself when its
    duration, as the function computes it, is above zero and twice the
    duration is finite. *)
Theorem temporal_iou_properties :
  (forall s t : interval,
      (0 <=? calculate_temporal_iou s t)%float = true
      /\ (calculate_temporal_iou s t <=? 1)%float = true)
  /\ (forall s t : interval,
      Forall Binary64.number s -> Forall Binary64.number t ->
      calculate_temporal_iou s t = calculate_temporal_iou t s)
  /\ (forall t : interval,
      proper t ->
      (0 <? duration t)%float = true ->
      (duration t + duration t <? infinity)%float = true ->
      calculate_temporal_iou t t = 1%float).
Proof.
  split; [|split].
  - apply calculate_temporal_iou_bounds.
  - apply calculate_temporal_iou_sym.
  - apply calculate_temporal_iou_self.
Qed.

Lemma test_times_numbers :
  Forall Binary64.number test_time /\ Forall Binary64.number test_time2
  /\ Forall Binary64.number test_time3.
Proof.
  repeat split; repeat constructor; intros E; vm_compute in E; discriminate.
Qed.

Lemma temporal_iou_properties_witness :
  calculate_temporal_iou test_time test_time2
  = calculate_temporal_iou test_time2 test_time
  /\ calculate_temporal_iou test_time test_time = 1%float.
Proof.
  split.
  - exact (proj1 (proj2 temporal_iou_properties) test_time test_time2
             (proj1 test_times_numbers) (proj1 (proj2 test_times_numbers))).
  - apply (proj2 (proj2 temporal_iou_properties) test_time); reflexivity.
Defined.

(** X14. The temporal IoU is 0.0, and nothing is raised, when either interval
    has [start >= end], when either list does not hold two bounds, and
    when two intervals with no NaN bound do not overlap, touching ends
    included. *)
Theorem temporal_iou_zero :
  (forall s t : interval, improper s \/ improper t ->
                          calculate_temporal_iou s t = 0%float)
  /\ (forall s t : interval, List.length s <> 2 \/ List.length t <> 2 ->
                             calculate_temporal_iou s t = 0%float)
  /\ (forall s t : interval, Forall Binary64.number s -> Forall Binary64.number t -> apart s t ->
                             calculate_temporal_iou s t = 0%float).
Proof.
  split; [|split].
  - apply calculate_temporal_iou_improper.
  - intros s t Hlen. unfold calculate_temporal_iou.
    destruct s as [|start1 [|end1 [|? ?]]]; try reflexivity;
      destruct t as [|start2 [|end2 [|? ?]]]; try reflexivity.
    simpl in Hlen. destruct Hlen as [Hl|Hl]; now elim Hl.
  - apply calculate_temporal_iou_apart.
Qed.

Lemma temporal_iou_zero_witness :
  calculate_temporal_iou test_time test_time3 = 0%float.
Proof.
  apply (proj2 (proj2 temporal_iou_zero) test_time test_time3).
  - exact (proj1 test_times_numbers).
  - exact (proj2 (proj2 test_times_numbers)).
  - left. reflexivity.
Defined.

(** *** calculate_batch_spatial_iou *)

Lemma batch_fold (pairs : list (box * box)) (iou_scores : list float) :
  fold_left (fun iou_scores pair =>
               iou_scores ++ [calculate_spatial_iou (fst pair) (snd pair)])
            pairs iou_scores
  = iou_scores ++ map (fun pair => calculate_spatial_iou (fst pair) (snd pair)) pairs.
Proof.
  revert iou_scores. induction pairs as [|p pairs IH]; intros iou_scores; simpl.
  - now rewrite List.app_nil_r.
  - now rewrite IH, <- List.app_assoc.
Qed.

Lemma nth_error_combine {A B : Type} (l : list A) (l' : list B) (i : nat) (a : A) (b : B) :
  nth_error l i = Some a -> nth_error l' i = Some b ->
  nth_error (combine l l') i = Some (a, b).
Proof.
  revert l l'. induction i as [|i IH]; intros [|x l] [|y l']; simpl; try discriminate.
  - now intros [= ->] [= ->].
  - apply IH.
Qed.

(** X15. The batch function scores the lists pair by pair: given as many boxes
    on each side it returns as many scores, the score at each place being
    the IoU of the two boxes at that place, and every score lies between
    0.0 and 1.0; given lists of different lengths it returns the empty
    list. *)
Theorem batch_spatial_iou_pairwise (boxes1 boxes2 : list box) :
  (List.length boxes1 <> List.length boxes2 ->
   calculate_batch_spatial_iou boxes1 boxes2 = [])
  /\ (List.length boxes1 = List.length boxes2 ->
      List.length (calculate_batch_spatial_iou boxes1 boxes2) = List.length boxes1
      /\ forall (i : nat) (box1 box2 : box),
           nth_error boxes1 i = Some box1 -> nth_error boxes2 i = Some box2 ->
           nth_error (calculate_batch_spatial_iou boxes1 boxes2) i
           = Some (calculate_spatial_iou box1 box2))
  /\ Forall (fun iou => (0 <=? iou)%float = true /\ (iou <=? 1)%float = true)
            (calculate_batch_spatial_iou boxes1 boxes2).
Proof.
  unfold calculate_batch_spatial_iou. rewrite batch_fold. cbn [app].
  split; [|split].
  - intros Hne. apply Nat.eqb_neq in Hne. now rewrite Hne.
  - intros Heq. rewrite (proj2 (Nat.eqb_eq _ _) Heq). cbn [negb].
    split.
    + rewrite List.length_map, List.length_combine. lia.
    + intros i box1 box2 H1 H2.
      now rewrite nth_error_map, (nth_error_combine _ _ _ _ _ H1 H2).
  - destruct (negb _); [constructor|].
    apply Forall_forall. intros iou Hin.
    apply in_map_iff in Hin as [p [<- _]]. apply calculate_spatial_iou_bounds.
Qed.

Lemma batch_spatial_iou_pairwise_witness :
  List.length (calculate_batch_spatial_iou [test_box; test_box2] [test_box2; far_box])
  = 2
  /\ nth_error (calculate_batch_spatial_iou [test_box; test_box2] [test_box2; far_box]) 1
     = Some (calculate_spatial_iou test_box2 far_box).
Proof.
  split.
  - exact (proj1 (proj1 (proj2 (batch_spatial_iou_pairwise
                                  [test_box; test_box2] [test_box2; far_box]))
                        eq_refl)).
  - exact (proj2 (proj1 (proj2 (batch_spatial_iou_pairwise
                                  [test_box; test_box2] [test_box2; far_box]))
                        eq_refl)
             1 test_box2 far_box eq_refl eq_refl).
Defined.

(** *** calculate_annotation_agreement: what is counted *)

Lemma find_existsb {A : Type} (f : A -> bool) (l : list A) :
  existsb f l = match find f l with Some _ => true | None => false end.
Proof.
  induction l as [|a l IH]; [reflexivity|].
  cbn [existsb find]. now destruct (f a).
Qed.

Lemma all_matches_length (annotations1 annotations2 : list annotation) :
  List.length (all_matches annotations1 annotations2)
  = List.length (filter (has_partner annotations2) annotations1).
Proof.
  unfold all_matches. induction annotations1 as [|row1 rest IH]; [reflexivity|].
  cbn [flat_map filter]. rewrite List.length_app, IH.
  unfold has_partner at 2, match_row. rewrite find_existsb.
  now destruct (find (mask row1) annotations2).
Qed.

Lemma filter_length_le {A : Type} (f : A -> bool) (l : list A) :
  List.length (filter f l) <= List.length l.
Proof.
  induction l as [|a l IH]; [reflexivity|].
  cbn [filter]. destruct (f a); cbn [List.length]; lia.
Qed.

Lemma filter_video_length (video : option string) (rows : list annotation) :
  List.length (filter_video video rows) <= List.length rows.
Proof.
  unfold filter_video. destruct video as [v|]; [|reflexivity].
  destruct (v =? "")%string; [reflexivity | apply filter_length_le].
Qed.

Lemma total_matches_length
      (np_mean np_median np_std : list float -> float) (min_iou_threshold : float)
      (annotations1 annotations2 : list annotation) (video : option string) :
  total_matches
    (calculate_annotation_agreement np_mean np_median np_std min_iou_threshold
       annotations1 annotations2 video)
  = List.length (all_matches (filter_video video annotations1)
                             (filter_video video annotations2)).
Proof.
  unfold calculate_annotation_agreement.
  now destruct (all_matches _ _).
Qed.

(** X16. [total_matches] counts rows of the first table: those, of the video
    asked for, whose key (video name, timestamp, person id) some row of the
    second table has; each is counted once however many rows of the second
    table have its key, and rows of the second table that no row of the
    first matches are not counted. It is at most the length of the first
    table. *)
Theorem total_matches_counts_first_table
    (np_mean np_median np_std : list float -> float) (min_iou_threshold : float)
    (annotations1 annotations2 : list annotation) (video : option string) :
  total_matches
    (calculate_annotation_agreement np_mean np_median np_std min_iou_threshold
       annotations1 annotations2 video)
  = List.length (filter (has_partner (filter_video video annotations2))
                        (filter_video video annotations1))
  /\ total_matches
       (calculate_annotation_agreement np_mean np_median np_std min_iou_threshold
          annotations1 annotations2 video)
     <= List.length annotations1.
Proof.
  rewrite total_matches_length, all_matches_length. split; [reflexivity|].
  etransitivity; [apply filter_length_le | apply filter_video_length].
Qed.

(** The IoU of an entry is a number. *)
Lemma calculate_spatial_iou_number (box1 box2 : box) :
  Binary64.number (calculate_spatial_iou box1 box2).
Proof.
  exact (proj1 (Binary64Facts.leb_number _ _
                  (proj2 (calculate_spatial_iou_bounds box1 box2)))).
Qed.

Lemma match_row_number (annotations2 : list annotation) (row1 : annotation) :
  Forall (fun m => Binary64.number (spatial_iou m)) (match_row annotations2 row1).
Proof.
  unfold match_row. destruct (find (mask row1) annotations2); repeat constructor.
  apply calculate_spatial_iou_number.
Qed.

Lemma all_matches_number (annotations1 annotations2 : list annotation) :
  Forall (fun m => Binary64.number (spatial_iou m))
         (all_matches annotations1 annotations2).
Proof.
  unfold all_matches. induction annotations1 as [|row1 rest IH]; [constructor|].
  cbn [flat_map]. apply Forall_app. split; [apply match_row_number | exact IH].
Qed.

Lemma high_or_low (threshold : float) (matches : list match_entry) :
  Binary64.number threshold ->
  Forall (fun m => Binary64.number (spatial_iou m)) matches ->
  List.length (filter (fun iou => (threshold <=? iou)%float) (map spatial_iou matches))
  + List.length (filter (fun m => (spatial_iou m <? threshold)%float) matches)
  = List.length matches.
Proof.
  intros Ht. induction 1 as [|m matches Hm _ IH]; [reflexivity|].
  cbn [map filter].
  destruct (threshold <=? spatial_iou m)%float eqn:E.
  - apply Binary64Facts.leb_le in E.
    destruct (spatial_iou m <? threshold)%float eqn:E'.
    + apply Binary64Facts.ltb_lt in E'. unfold Binary64.le, Binary64.lt in *.
      destruct E as [E|E].
      * now apply Binary64Facts.lt3_asym in E.
      * rewrite E in E'. now apply Binary64Facts.lt3_irrefl in E'.
    + cbn [List.length]. lia.
  - rewrite (Binary64Facts.not_leb_ltb _ _ Hm Ht E). cbn [List.length]. lia.
Qed.

Lemma nan_threshold (threshold : float) (matches : list match_entry) :
  ~ Binary64.number threshold ->
  filter (fun iou => (threshold <=? iou)%float) (map spatial_iou matches) = []
  /\ filter (fun m => (spatial_iou m <? threshold)%float) matches = [].
Proof.
  intros Ht. induction matches as [|m matches [IH1 IH2]]; [split; reflexivity|].
  cbn [map filter].
  destruct (threshold <=? spatial_iou m)%float eqn:E.
  { now apply Binary64Facts.leb_number in E as [E _]. }
  destruct (spatial_iou m <? threshold)%float eqn:E'.
  { now apply Binary64Facts.ltb_number in E' as [_ E']. }
  split; assumption.
Qed.

(** X17. Every match is counted on one side of the threshold: when the
    threshold is a number, [high_iou_matches] and the number of
    [low_iou_samples] add up to [total_matches] (no IoU is NaN); when the
    threshold is NaN no match is counted high and none is listed low. *)
Theorem high_and_low_add_up
    (np_mean np_median np_std : list float -> float) (min_iou_threshold : float)
    (annotations1 annotations2 : list annotation) (video : option string) :
  let r := calculate_annotation_agreement np_mean np_median np_std min_iou_threshold
             annotations1 annotations2 video in
  (Binary64.number min_iou_threshold ->
   high_iou_matches r + low_count r = total_matches r)
  /\ (~ Binary64.number min_iou_threshold ->
      high_iou_matches r = 0 /\ low_count r = 0).
Proof.
  cbv zeta. unfold calculate_annotation_agreement, low_count.
  pose proof (all_matches_number (filter_video video annotations1)
                (filter_video video annotations2)) as Hn.
  destruct (all_matches _ _) as [|m matches] eqn:E;
    cbn [high_iou_matches low_iou_samples total_matches].
  - split; [reflexivity | split; reflexivity].
  - split.
    + intros Ht. now apply high_or_low.
    + intros Ht.
      destruct (nan_threshold min_iou_threshold (m :: matches) Ht) as [-> ->].
      split; reflexivity.
Qed.

Lemma high_and_low_add_up_witness :
  high_iou_matches
    (calculate_annotation_agreement mean_in_order mean_in_order mean_in_order 0.5
       annotations_1 annotations_2 None)
  + low_count
      (calculate_annotation_agreement mean_in_order mean_in_order mean_in_order 0.5
         annotations_1 annotations_2 None)
  = total_matches
      (calculate_annotation_agreement mean_in_order mean_in_order mean_in_order 0.5
         annotations_1 annotations_2 None).
Proof.
  apply (proj1 (high_and_low_add_up mean_in_order mean_in_order mean_in_order 0.5
                  annotations_1 annotations_2 None)).
  intros E. vm_compute in E. discriminate.
Defined.

(** *** The video filter *)

Lemma find_filter {A : Type} (f g : A -> bool) (l : list A) :
  (forall a, f a = true -> g a = true) -> find f (filter g l) = find f l.
Proof.
  intros Hfg. induction l as [|a l IH]; [reflexivity|].
  cbn [filter find]. destruct (g a) eqn:G.
  - cbn [find]. now rewrite IH.
  - destruct (f a) eqn:F; [|exact IH]. rewrite (Hfg a F) in G. discriminate.
Qed.

Lemma match_row_filter (v : string) (annotations2 : list annotation) (row1 : annotation) :
  video_name row1 = v ->
  match_row (filter (fun r => (video_name r =? v)%string) annotations2) row1
  = match_row annotations2 row1.
Proof.
  intros Hv. unfold match_row. rewrite find_filter; [reflexivity|].
  intros row2 Hm. unfold mask in Hm.
  apply andb_prop in Hm as [Hm _]. apply andb_prop in Hm as [Hm _].
  now rewrite <- Hv.
Qed.

Lemma all_matches_filter (video : option string) (annotations1 annotations2 : list annotation) :
  all_matches (filter_video video annotations1) (filter_video video annotations2)
  = all_matches (filter_video video annotations1) annotations2.
Proof.
  unfold filter_video. destruct video as [v|]; [|reflexivity].
  destruct (v =? "")%string; [reflexivity|].
  unfold all_matches.
  induction annotations1 as [|row1 rest IH]; [reflexivity|].
  cbn [filter]. destruct (video_name row1 =? v)%string eqn:E; [|exact IH].
  cbn [flat_map]. rewrite IH. f_equal.
  apply match_row_filter. now apply String.eqb_eq.
Qed.

(** X18. Filtering the second table by video (line 88) changes nothing: the
    report for a video is the report, for no video in particular, of the
    rows of that video in the first table against the whole second table.
    The empty string as video name filters nothing. *)
Theorem video_filter_on_first_table
    (np_mean np_median np_std : list float -> float) (min_iou_threshold : float)
    (annotations1 annotations2 : list annotation) (video : option string) :
  calculate_annotation_agreement np_mean np_median np_std min_iou_threshold
    annotations1 annotations2 video
  = calculate_annotation_agreement np_mean np_median np_std min_iou_threshold
      (filter_video video annotations1) annotations2 None
  /\ calculate_annotation_agreement np_mean np_median np_std min_iou_threshold
       annotations1 annotations2 (Some ""%string)
     = calculate_annotation_agreement np_mean np_median np_std min_iou_threshold
         annotations1 annotations2 None.
Proof.
  split; [|reflexivity].
  unfold calculate_annotation_agreement.
  rewrite all_matches_filter. reflexivity.
Qed.

(** *** calculate_multi_annotator_iou *)

Lemma enumerate_from_app {A : Type} (k : nat) (P R : list A) :
  combine (seq k (List.length (P ++ R))) (P ++ R)
  = combine (seq k (List.length P)) P
    ++ combine (seq (k + List.length P) (List.length R)) R.
Proof.
  revert k. induction P as [|a P IH]; intros k; simpl.
  - now rewrite Nat.add_0_r.
  - rewrite IH. now replace (S k + List.length P) with (k + S (List.length P)) by lia.
Qed.

Lemma fold_left_map {A B C : Type} (f : A -> C -> A) (g : B -> C) (l : list B) (a : A) :
  fold_left f (map g l) a = fold_left (fun a b => f a (g b)) l a.
Proof. revert a. induction l as [|b l IH]; intros a; simpl; [reflexivity | apply IH]. Qed.

Lemma pairs_map {A B : Type} (f : A -> B) (l : list A) :
  pairs (map f l) = map (fun p => (f (fst p), f (snd p))) (pairs l).
Proof.
  induction l as [|a l IH]; [reflexivity|].
  cbn [map pairs]. rewrite List.map_app, IH, !List.map_map. reflexivity.
Qed.

Lemma pairs_in {A : Type} (l : list A) (p : A * A) :
  In p (pairs l) -> In (fst p) l /\ In (snd p) l.
Proof.
  induction l as [|a l IH]; [contradiction|].
  cbn [pairs]. intros Hin. apply in_app_or in Hin as [Hin|Hin].
  - apply in_map_iff in Hin as [b [<- Hb]]. split; [now left | now right].
  - destruct (IH Hin). split; now right.
Qed.

Lemma pairs_length {A : Type} (l : list A) :
  2 * List.length (pairs l) = List.length l * (List.length l - 1).
Proof.
  induction l as [|a l IH]; [reflexivity|].
  cbn [pairs List.length]. rewrite List.length_app, List.length_map.
  replace (S (List.length l) - 1) with (List.length l) by lia.
  destruct (List.length l) as [|n]; [simpl in *; lia|].
  replace (S n - 1) with n in IH by lia. lia.
Qed.

Lemma dict_get_in {V : Type} (d : dict V) (k : string) (v : V) :
  NoDup (keys d) -> In (k, v) d -> dict_get d k = Some v.
Proof.
  induction d as [|[k' v'] d IH]; [contradiction|].
  cbn [keys map fst]. intros Hnd [E|Hin]; inversion Hnd as [|? ? Hk Hnd']; subst.
  - injection E as -> ->. cbn [dict_get]. now rewrite String.eqb_refl.
  - cbn [dict_get]. destruct (k' =? k)%string eqn:E; [|now apply IH].
    apply String.eqb_eq in E. subst k'. elim Hk.
    apply in_map_iff. now exists (k, v).
Qed.

Lemma dict_set_fresh {V : Type} (d : dict V) (k : string) (v : V) :
  ~ In k (keys d) -> dict_set d k v = d ++ [(k, v)].
Proof.
  induction d as [|[k' v'] d IH]; [reflexivity|].
  cbn [keys map fst dict_set app]. intros Hk.
  destruct (k' =? k)%string eqn:E.
  - apply String.eqb_eq in E. elim Hk. now left.
  - rewrite IH; [reflexivity|]. intros Hin. apply Hk. now right.
Qed.

Lemma dict_set_in {V : Type} (d : dict V) (k : string) (v : V) (x : string * V) :
  In x (dict_set d k v) -> In x d \/ snd x = v.
Proof.
  induction d as [|[k' v'] d IH]; cbn [dict_set].
  - intros [<-|[]]. now right.
  - destruct (k' =? k)%string.
    + intros [<-|Hin]; [now right | left; now right].
    + intros [<-|Hin]; [left; now left|].
      destruct (IH Hin); [left; now right | now right].
Qed.

Lemma dict_set_length {V : Type} (d : dict V) (k : string) (v : V) :
  List.length (dict_set d k v) <= S (List.length d).
Proof.
  induction d as [|[k' v'] d IH]; cbn [dict_set List.length]; [lia|].
  destruct (k' =? k)%string; cbn [List.length]; lia.
Qed.

Lemma set_all_fresh {V : Type} (items acc : dict V) :
  NoDup (keys (acc ++ items)) ->
  fold_left (fun pr item => dict_set pr (fst item) (snd item)) items acc
  = acc ++ items.
Proof.
  revert acc. induction items as [|[k v] items IH]; intros acc Hnd.
  - cbn. now rewrite List.app_nil_r.
  - cbn [fold_left fst snd].
    assert (Hk : ~ In k (keys acc)).
    { unfold keys in *. rewrite List.map_app in Hnd. cbn [map fst] in Hnd.
      apply NoDup_remove_2 in Hnd. intros Hin. apply Hnd.
      apply in_or_app. now left. }
    rewrite (dict_set_fresh acc k v Hk), IH.
    + now rewrite <- List.app_assoc.
    + now rewrite <- List.app_assoc.
Qed.

Lemma set_all_in {V : Type} (items acc : dict V) (x : string * V) :
  In x (fold_left (fun pr item => dict_set pr (fst item) (snd item)) items acc) ->
  In x acc \/ In (snd x) (map snd items).
Proof.
  revert acc. induction items as [|item items IH]; intros acc; cbn [fold_left].
  - now left.
  - intros Hin. destruct (IH _ Hin) as [H1|H1].
    + destruct (dict_set_in _ _ _ _ H1) as [H2|H2]; [now left|].
      right. left. now symmetry.
    + right. now right.
Qed.

Lemma set_all_length {V : Type} (items acc : dict V) :
  List.length (fold_left (fun pr item => dict_set pr (fst item) (snd item)) items acc)
  <= List.length acc + List.length items.
Proof.
  revert acc. induction items as [|item items IH]; intros acc; cbn [fold_left List.length].
  - lia.
  - etransitivity; [apply IH|].
    pose proof (dict_set_length acc (fst item) (snd item)). lia.
Qed.

Section AnnotatorFacts.
Variables np_mean np_median np_std : list float -> float.
Variable min_iou_threshold : float.
Variable annotation_dict : dict (list annotation).

Let add := add_pair np_mean np_median np_std min_iou_threshold annotation_dict.

(** The inner loop at [(i, a)], over the names from index [k] on. *)
Lemma inner_skip (i : nat) (a : string) (l : list string) (k : nat)
      (pr : option (dict report)) :
  k + List.length l <= S i ->
  fold_left (fun pr jb => if (i <? fst jb)%nat then add pr a (snd jb) else pr)
            (combine (seq k (List.length l)) l) pr
  = pr.
Proof.
  revert k pr. induction l as [|b l IH]; intros k pr Hk; [reflexivity|].
  simpl in Hk. cbn [List.length seq combine fold_left fst snd].
  rewrite (proj2 (Nat.ltb_ge i k)) by lia. apply IH. lia.
Qed.

Lemma inner_take (i : nat) (a : string) (l : list string) (k : nat)
      (pr : option (dict report)) :
  i < k ->
  fold_left (fun pr jb => if (i <? fst jb)%nat then add pr a (snd jb) else pr)
            (combine (seq k (List.length l)) l) pr
  = fold_left (fun pr b => add pr a b) l pr.
Proof.
  revert k pr. induction l as [|b l IH]; intros k pr Hk; [reflexivity|].
  cbn [List.length seq combine fold_left fst snd].
  rewrite (proj2 (Nat.ltb_lt i k)) by lia. apply IH. lia.
Qed.

Lemma inner_at (P : list string) (a : string) (R : list string)
      (pr : option (dict report)) :
  fold_left (fun pr jb => if (List.length P <? fst jb)%nat
                          then add pr a (snd jb) else pr)
            (enumerate (P ++ a :: R)) pr
  = fold_left (fun pr b => add pr a b) R pr.
Proof.
  unfold enumerate. rewrite enumerate_from_app, fold_left_app.
  rewrite (inner_skip (List.length P) a P 0) by (simpl; lia).
  cbn [List.length seq combine fold_left fst snd plus].
  rewrite Nat.ltb_irrefl. apply inner_take. lia.
Qed.

Lemma outer_from (R P : list string) (pr : option (dict report)) :
  fold_left
    (fun pr ia =>
       fold_left (fun pr jb => if (fst ia <? fst jb)%nat
                               then add pr (snd ia) (snd jb) else pr)
                 (enumerate (P ++ R)) pr)
    (combine (seq (List.length P) (List.length R)) R) pr
  = fold_left (fun pr ab => add pr (fst ab) (snd ab)) (pairs R) pr.
Proof.
  revert P pr. induction R as [|a R IH]; intros P pr; [reflexivity|].
  cbn [List.length seq combine fold_left fst snd pairs].
  rewrite inner_at, fold_left_app, fold_left_map. cbn [fst snd].
  pose proof (IH (P ++ [a])) as IH'.
  rewrite List.length_app in IH'. cbn [List.length] in IH'.
  replace (List.length P + 1) with (S (List.length P)) in IH' by lia.
  rewrite <- List.app_assoc in IH'. cbn [app] in IH'.
  apply IH'.
Qed.

(** The two loops of lines 149-151 visit the pairs [(names[i], names[j])],
    [i < j], row by row. *)
Lemma multi_annotator_loops :
  calculate_multi_annotator_iou np_mean np_median np_std min_iou_threshold
    annotation_dict
  = fold_left (fun pr ab => add pr (fst ab) (snd ab)) (pairs (keys annotation_dict))
              (Some []).
Proof.
  unfold calculate_multi_annotator_iou. cbv zeta.
  exact (outer_from (keys annotation_dict) [] (Some [])).
Qed.

Let report_of := agreement_of np_mean np_median np_std min_iou_threshold.

Lemma add_items (ps : list ((string * list annotation) * (string * list annotation)))
      (pr : dict report) :
  NoDup (keys annotation_dict) ->
  (forall p, In p ps -> In (fst p) annotation_dict /\ In (snd p) annotation_dict) ->
  fold_left (fun pr ab => add pr (fst ab) (snd ab))
            (map (fun p => (fst (fst p), fst (snd p))) ps) (Some pr)
  = Some (fold_left (fun pr item => dict_set pr (fst item) (snd item))
                    (map report_of ps) pr).
Proof.
  intros Hnd. revert pr. induction ps as [|[[a t1] [b t2]] ps IH]; intros pr Hin;
    [reflexivity|].
  cbn [map fold_left fst snd].
  change (add (Some pr) a b)
    with (add_pair np_mean np_median np_std min_iou_threshold annotation_dict
            (Some pr) a b).
  unfold add_pair.
  destruct (Hin _ (or_introl eq_refl)) as [Ha Hb]. cbn [fst snd] in Ha, Hb.
  rewrite (dict_get_in _ _ _ Hnd Ha), (dict_get_in _ _ _ Hnd Hb).
  apply IH. intros p Hp. apply Hin. now right.
Qed.

Lemma multi_annotator_items :
  NoDup (keys annotation_dict) ->
  calculate_multi_annotator_iou np_mean np_median np_std min_iou_threshold
    annotation_dict
  = Some (fold_left (fun pr item => dict_set pr (fst item) (snd item))
                    (map report_of (pairs annotation_dict)) []).
Proof.
  intros Hnd. rewrite multi_annotator_loops. unfold keys at 1.
  rewrite pairs_map. apply add_items; [exact Hnd | apply pairs_in].
Qed.

End AnnotatorFacts.

(** X19. For a dictionary of [n] annotators the function computes one report
    for each of the [n(n-1)/2] pairs of annotators, the one added to the
    dictionary earlier as the first table, and never looks up a missing
    key. The reports are stored under ["a_vs_b"] in the order of the pairs;
    when no two pairs give the same key the result holds exactly these
    reports, and otherwise a later report replaces, in place, the earlier
    one of the same key. *)
Theorem multi_annotator_pairs
    (np_mean np_median np_std : list float -> float) (min_iou_threshold : float)
    (annotation_dict : dict (list annotation)) :
  NoDup (keys annotation_dict) ->
  calculate_multi_annotator_iou np_mean np_median np_std min_iou_threshold
    annotation_dict
  = Some (fold_left (fun pr item => dict_set pr (fst item) (snd item))
            (map (agreement_of np_mean np_median np_std min_iou_threshold)
                 (pairs annotation_dict)) [])
  /\ (NoDup (keys (map (agreement_of np_mean np_median np_std min_iou_threshold)
                       (pairs annotation_dict))) ->
      calculate_multi_annotator_iou np_mean np_median np_std min_iou_threshold
        annotation_dict
      = Some (map (agreement_of np_mean np_median np_std min_iou_threshold)
                  (pairs annotation_dict)))
  /\ 2 * List.length (pairs annotation_dict)
     = List.length annotation_dict * (List.length annotation_dict - 1).
Proof.
  intros Hnd. rewrite (multi_annotator_items _ _ _ _ _ Hnd).
  split; [reflexivity|]. split; [|apply pairs_length].
  intros Hkeys. now rewrite set_all_fresh.
Qed.

Lemma three_annotators_keys : NoDup (keys three_annotators).
Proof.
  repeat constructor; simpl; intuition discriminate.
Qed.

Lemma multi_annotator_pairs_witness :
  calculate_multi_annotator_iou mean_in_order mean_in_order mean_in_order 0.5
    three_annotators
  = Some (map (agreement_of mean_in_order mean_in_order mean_in_order 0.5)
              (pairs three_annotators)).
Proof.
  apply (proj1 (proj2 (multi_annotator_pairs mean_in_order mean_in_order
                         mean_in_order 0.5 three_annotators three_annotators_keys))).
  repeat constructor; simpl; intuition discriminate.
Defined.

(** *** get_problematic_samples *)

Lemma flag_fold (pair_key : string) (samples : list match_entry) (ps : list flagged) :
  fold_left
    (fun problematic_samples sample =>
       problematic_samples
       ++ [ {| sample := sample; annotator_pair := pair_key; needs_review := true |} ])
    samples ps
  = ps ++ map (fun s => {| sample := s; annotator_pair := pair_key;
                           needs_review := true |}) samples.
Proof.
  revert ps. induction samples as [|s samples IH]; intros ps; cbn [fold_left map].
  - now rewrite List.app_nil_r.
  - now rewrite IH, <- List.app_assoc.
Qed.

Lemma flag_pairs_Forall (Q : flagged -> Prop) (items : dict report) (ps : list flagged) :
  Forall Q ps ->
  (forall item samples s,
      In item items -> low_iou_samples (snd item) = Some samples -> In s samples ->
      Q {| sample := s; annotator_pair := fst item; needs_review := true |}) ->
  Forall Q (fold_left flag_pair items ps).
Proof.
  revert ps. induction items as [|item items IH]; intros ps Hps Hitems; [exact Hps|].
  cbn [fold_left]. apply IH.
  - unfold flag_pair.
    destruct (low_iou_samples (snd item)) as [samples|] eqn:E; [|exact Hps].
    rewrite flag_fold. apply Forall_app. split; [exact Hps|].
    apply Forall_forall. intros x Hx. apply in_map_iff in Hx as [s [<- Hs]].
    apply (Hitems item samples s); [now left | exact E | exact Hs].
  - intros item' samples s Hin. apply Hitems. now right.
Qed.

Lemma flag_pairs_none (items : dict report) :
  (forall item, In item items -> low_count (snd item) = 0) ->
  fold_left flag_pair items [] = [].
Proof.
  induction items as [|item items IH]; intros Hitems; [reflexivity|].
  cbn [fold_left]. unfold flag_pair at 2.
  pose proof (Hitems item (or_introl eq_refl)) as H0. unfold low_count in H0.
  destruct (low_iou_samples (snd item)) as [[|s samples]|]; try discriminate;
    apply IH; intros item' Hin; apply Hitems; now right.
Qed.

Lemma below_zero (threshold x : float) :
  (threshold <=? 0)%float = true -> (0 <=? x)%float = true ->
  (x <? threshold)%float = false.
Proof.
  intros Ht Hx. destruct (x <? threshold)%float eqn:E; [|reflexivity].
  apply Binary64Facts.ltb_lt in E.
  apply Binary64Facts.leb_le in Ht, Hx.
  pose proof (Binary64Facts.le_trans _ _ _ Ht Hx) as Hle.
  unfold Binary64.le, Binary64.lt in *. destruct Hle as [Hle|Hle].
  - now apply Binary64Facts.lt3_asym in Hle.
  - rewrite Hle in E. now apply Binary64Facts.lt3_irrefl in E.
Qed.

Section Samples.
Variables np_mean np_median np_std : list float -> float.
Variable min_iou_threshold : float.

Let agreement :=
  calculate_annotation_agreement np_mean np_median np_std min_iou_threshold.

Lemma low_iou_samples_below (annotations1 annotations2 : list annotation)
      (video : option string) (samples : list match_entry) (s : match_entry) :
  low_iou_samples (agreement annotations1 annotations2 video) = Some samples ->
  In s samples ->
  (spatial_iou s <? min_iou_threshold)%float = true.
Proof.
  unfold agreement, calculate_annotation_agreement.
  destruct (all_matches _ _) as [|m matches]; [discriminate|].
  set (l := m :: matches). cbn [low_iou_samples].
  intros E Hin.
  assert (Es : samples
               = filter (fun m => (spatial_iou m <? min_iou_threshold)%float) l)
    by congruence.
  rewrite Es in Hin. now apply filter_In in Hin as [_ Hin].
Qed.

Lemma all_matches_bounds (annotations1 annotations2 : list annotation) :
  Forall (fun m => (0 <=? spatial_iou m)%float = true)
         (all_matches annotations1 annotations2).
Proof.
  unfold all_matches. induction annotations1 as [|row1 rest IH]; [constructor|].
  cbn [flat_map]. apply Forall_app. split; [|exact IH].
  unfold match_row. destruct (find (mask row1) annotations2); repeat constructor.
  apply calculate_spatial_iou_bounds.
Qed.

Lemma low_count_zero (annotations1 annotations2 : list annotation)
      (video : option string) :
  (min_iou_threshold <=? 0)%float = true ->
  low_count (agreement annotations1 annotations2 video) = 0.
Proof.
  intros Ht. unfold low_count, agreement, calculate_annotation_agreement.
  pose proof (all_matches_bounds (filter_video video annotations1)
                (filter_video video annotations2)) as Hb.
  destruct (all_matches _ _) as [|m matches]; [reflexivity|].
  set (l := m :: matches) in *. cbn [low_iou_samples]. clearbody l.
  induction Hb as [|x l Hx _ IH]; [reflexivity|].
  cbn [filter]. now rewrite (below_zero _ _ Ht Hx).
Qed.

End Samples.

(** The samples flagged are entries whose IoU is strictly below the
    calculator's own threshold, each marked [needs_review] and labelled
    with the key of a pair of annotators. With a threshold of 0.0 or less
    nothing is flagged. *)
Lemma problematic_samples_flagged
    (np_mean np_median np_std : list float -> float) (min_iou_threshold : float)
    (annotation_dict : dict (list annotation)) (min_iou : float) :
  NoDup (keys annotation_dict) ->
  exists problematic_samples,
    get_problematic_samples np_mean np_median np_std min_iou_threshold
      annotation_dict min_iou = Some problematic_samples
    /\ Forall (fun s =>
                 (spatial_iou (sample s) <? min_iou_threshold)%float = true
                 /\ needs_review s = true
                 /\ exists annotator1 annotator2,
                      In annotator1 (keys annotation_dict)
                      /\ In annotator2 (keys annotation_dict)
                      /\ annotator_pair s = pair_key annotator1 annotator2)
              problematic_samples
    /\ ((min_iou_threshold <=? 0)%float = true -> problematic_samples = []).
Proof.
  intros Hnd. unfold get_problematic_samples.
  rewrite (multi_annotator_items _ _ _ _ _ Hnd).
  eexists. split; [reflexivity|].
  set (items := map (agreement_of np_mean np_median np_std min_iou_threshold)
                    (pairs annotation_dict)).
  set (results := fold_left (fun pr item => dict_set pr (fst item) (snd item))
                            items []).
  assert (Hitem : forall item, In item results ->
            exists p, In p (pairs annotation_dict)
                      /\ snd item
                         = snd (agreement_of np_mean np_median np_std
                                  min_iou_threshold p)).
  { intros item Hin. destruct (set_all_in items [] item Hin) as [[]|Hv].
    unfold items in Hv. rewrite List.map_map in Hv.
    apply in_map_iff in Hv as [p [Ep Hp]]. now exists p. }
  assert (Hkey : forall item, In item results ->
            exists annotator1 annotator2,
              In annotator1 (keys annotation_dict)
              /\ In annotator2 (keys annotation_dict)
              /\ fst item = pair_key annotator1 annotator2).
  { assert (Hgen : forall (l acc : dict report),
              (forall x, In x acc \/ In x l ->
                 exists annotator1 annotator2,
                   In annotator1 (keys annotation_dict)
                   /\ In annotator2 (keys annotation_dict)
                   /\ fst x = pair_key annotator1 annotator2) ->
              forall item,
                In item (fold_left (fun pr item => dict_set pr (fst item) (snd item))
                                   l acc) ->
                exists annotator1 annotator2,
                  In annotator1 (keys annotation_dict)
                  /\ In annotator2 (keys annotation_dict)
                  /\ fst item = pair_key annotator1 annotator2).
    { induction l as [|x l IHl]; intros acc Hall item Hin.
      - apply Hall. now left.
      - cbn [fold_left] in Hin. apply (IHl (dict_set acc (fst x) (snd x))); [|exact Hin].
        intros y [Hy|Hy]; [|apply Hall; right; now right].
        clear - Hy Hall. induction acc as [|[k v] acc IHa]; cbn [dict_set] in Hy.
        + destruct Hy as [<-|[]]. apply (Hall x). right. now left.
        + destruct (k =? fst x)%string eqn:E.
          * destruct Hy as [<-|Hy].
            -- apply (Hall (k, v)). left. now left.
            -- apply Hall. left. now right.
          * destruct Hy as [<-|Hy].
            -- apply (Hall (k, v)). left. now left.
            -- apply IHa; [|exact Hy].
               intros z [Hz|Hz]; apply Hall; [left; now right | now right]. }
    intros item Hin. apply (Hgen items [] ); [|exact Hin].
    intros x [[]|Hx]. unfold items in Hx.
    apply in_map_iff in Hx as [p [<- Hp]].
    apply pairs_in in Hp as [H1 H2].
    exists (fst (fst p)), (fst (snd p)).
    split; [now apply in_map|]. split; [now apply in_map | reflexivity]. }
  split.
  - apply flag_pairs_Forall; [constructor|].
    intros item samples s Hin Hlow Hs. cbn [sample needs_review annotator_pair].
    split; [|split; [reflexivity | now apply Hkey]].
    destruct (Hitem item Hin) as [p [_ Ep]]. rewrite Ep in Hlow.
    unfold agreement_of in Hlow. cbn [snd] in Hlow.
    eapply low_iou_samples_below; eassumption.
  - intros Ht. apply flag_pairs_none. intros item Hin.
    destruct (Hitem item Hin) as [p [_ ->]].
    unfold agreement_of. cbn [snd]. now apply low_count_zero.
Qed.

Lemma flag_pairs_flat_map (items : dict report) (ps : list flagged) :
  fold_left flag_pair items ps
  = ps ++ flat_map (fun item => map (flag (fst item)) (samples_of (snd item))) items.
Proof.
  revert ps. induction items as [|item items IH]; intros ps; cbn [fold_left flat_map].
  - now rewrite List.app_nil_r.
  - rewrite IH. unfold flag_pair, samples_of.
    destruct (low_iou_samples (snd item)) as [samples|].
    + rewrite flag_fold, <- List.app_assoc. reflexivity.
    + reflexivity.
Qed.

Lemma flat_map_of_map {A B C : Type} (f : B -> list C) (g : A -> B) (l : list A) :
  flat_map f (map g l) = flat_map (fun a => f (g a)) l.
Proof.
  induction l as [|a l IH]; [reflexivity|]. cbn [map flat_map]. now rewrite IH.
Qed.

(** [low_iou_samples] holds the matches below the threshold, in the order
    of the matches. *)
Lemma samples_of_agreement
      (np_mean np_median np_std : list float -> float) (min_iou_threshold : float)
      (annotations1 annotations2 : list annotation) :
  samples_of (calculate_annotation_agreement np_mean np_median np_std
                min_iou_threshold annotations1 annotations2 None)
  = filter (fun m => (spatial_iou m <? min_iou_threshold)%float)
           (all_matches annotations1 annotations2).
Proof.
  unfold samples_of, calculate_annotation_agreement, filter_video.
  destruct (all_matches annotations1 annotations2); reflexivity.
Qed.

(** X20. [get_problematic_samples] returns, for each entry of the pairwise
    results in order, the entries of its [low_iou_samples] in order, each
    with [annotator_pair] set to the entry's key and [needs_review] set.
    When no two pairs of annotators give the same key these are, pair by
    pair, the matches of the first annotator's rows against the second's
    whose IoU is strictly below the calculator's own threshold, and no
    others. The argument [min_iou] plays no part: every value of it gives
    the same list. With a threshold of 0.0 or less the list is empty. *)
Theorem problematic_samples_below_threshold
    (np_mean np_median np_std : list float -> float) (min_iou_threshold : float)
    (annotation_dict : dict (list annotation)) (min_iou : float) :
  NoDup (keys annotation_dict) ->
  get_problematic_samples np_mean np_median np_std min_iou_threshold
    annotation_dict min_iou
  = Some (flat_map
            (fun item => map (flag (fst item)) (samples_of (snd item)))
            (fold_left (fun pr item => dict_set pr (fst item) (snd item))
               (map (agreement_of np_mean np_median np_std min_iou_threshold)
                    (pairs annotation_dict)) []))
  /\ (NoDup (keys (map (agreement_of np_mean np_median np_std min_iou_threshold)
                       (pairs annotation_dict))) ->
      get_problematic_samples np_mean np_median np_std min_iou_threshold
        annotation_dict min_iou
      = Some (flat_map
                (fun p =>
                   map (flag (pair_key (fst (fst p)) (fst (snd p))))
                       (filter (fun m => (spatial_iou m <? min_iou_threshold)%float)
                               (all_matches (snd (fst p)) (snd (snd p)))))
                (pairs annotation_dict)))
  /\ (forall min_iou' : float,
        get_problematic_samples np_mean np_median np_std min_iou_threshold
          annotation_dict min_iou'
        = get_problematic_samples np_mean np_median np_std min_iou_threshold
            annotation_dict min_iou)
  /\ exists problematic_samples,
       get_problematic_samples np_mean np_median np_std min_iou_threshold
         annotation_dict min_iou = Some problematic_samples
       /\ Forall (fun s =>
                    (spatial_iou (sample s) <? min_iou_threshold)%float = true
                    /\ needs_review s = true
                    /\ exists annotator1 annotator2,
                         In annotator1 (keys annotation_dict)
                         /\ In annotator2 (keys annotation_dict)
                         /\ annotator_pair s = pair_key annotator1 annotator2)
                 problematic_samples
       /\ ((min_iou_threshold <=? 0)%float = true -> problematic_samples = []).
Proof.
  intros Hnd.
  assert (Hall : get_problematic_samples np_mean np_median np_std min_iou_threshold
                   annotation_dict min_iou
                 = Some (flat_map
                           (fun item => map (flag (fst item)) (samples_of (snd item)))
                           (fold_left (fun pr item => dict_set pr (fst item) (snd item))
                              (map (agreement_of np_mean np_median np_std
                                      min_iou_threshold)
                                   (pairs annotation_dict)) []))).
  { unfold get_problematic_samples.
    rewrite (multi_annotator_items _ _ _ _ _ Hnd).
    now rewrite flag_pairs_flat_map. }
  split; [exact Hall|]. split; [|split].
  - intros Hkeys. rewrite Hall, set_all_fresh by exact Hkeys.
    cbn [app]. rewrite flat_map_of_map. f_equal.
    apply flat_map_ext. intros p. unfold agreement_of. cbn [fst snd].
    now rewrite samples_of_agreement.
  - reflexivity.
  - now apply problematic_samples_flagged.
Qed.

Lemma problematic_samples_below_threshold_witness :
  get_problematic_samples mean_in_order mean_in_order mean_in_order 0.5
    three_annotators 0.9
  = Some (flat_map
            (fun p =>
               map (flag (pair_key (fst (fst p)) (fst (snd p))))
                   (filter (fun m => (spatial_iou m <? 0.5)%float)
                           (all_matches (snd (fst p)) (snd (snd p)))))
            (pairs three_annotators)).
Proof.
  apply (proj1 (proj2 (problematic_samples_below_threshold mean_in_order
                         mean_in_order mean_in_order 0.5 three_annotators 0.9
                         three_annotators_keys))).
  repeat constructor; simpl; intuition discriminate.
Defined.

End IoUFacts.
